(** * The graph handle of cugraph: representations, views and conversions

    A shallow embedding of [cpp/src/structure/cugraph.cu]: the graph object
    with its three optional representations (edge list, adjacency list,
    transposed adjacency list), the view operations that install the first
    representation, the add operations that derive the others, and the
    vertex count.

    Columns are descriptors over device memory, as in the source: a data
    pointer, a size and a type tag.  Device memory is modelled explicitly, so
    that a shallow view (same pointer) differs from a fresh allocation.

    An operation is a state transformer over the handle and the device
    memory.  It ends by returning a status code, or it is ended by a failed
    [CUGRAPH_EXPECTS]; the state it leaves is kept in both cases, so that
    what a failing call did to the handle can be read off.  A read through
    a null pointer and a kernel access outside the buffers it was given,
    both undefined in the source, are outcomes of their own.  Requests to
    the allocator and copies between host and device are taken to go
    through. *)

From Stdlib Require Import ZArith String Bool Lia.
From stdpp Require Import base decidable option list numbers.

Local Open Scope Z_scope.

(** ** Type tags and status codes *)

(** The column type tags of the columnar-buffer library ([gdf_dtype]).  This
    file names six of them; the others only ever reach a [default] branch. *)
Inductive gdf_dtype : Set :=
| GDF_invalid
| GDF_INT8
| GDF_INT16
| GDF_INT32
| GDF_INT64
| GDF_FLOAT32
| GDF_FLOAT64
| GDF_BOOL8
| GDF_DATE32
| GDF_DATE64
| GDF_TIMESTAMP
| GDF_CATEGORY
| GDF_STRING
| GDF_STRING_CATEGORY.

#[global] Instance gdf_dtype_eq_dec : EqDecision gdf_dtype.
Proof. solve_decision. Defined.

(** The status codes a function returns ([gdf_error]).  The operations below
    return [GDF_SUCCESS], [GDF_CUDA_ERROR] and [GDF_UNSUPPORTED_DTYPE]
    themselves; the indexing check may hand back any code. *)
Inductive gdf_error : Set :=
| GDF_SUCCESS
| GDF_CUDA_ERROR
| GDF_UNSUPPORTED_DTYPE
| GDF_COLUMN_SIZE_MISMATCH
| GDF_DATASET_EMPTY
| GDF_VALIDITY_UNSUPPORTED
| GDF_INVALID_API_CALL.

#[global] Instance gdf_error_eq_dec : EqDecision gdf_error.
Proof. solve_decision. Defined.

(** The tri-state of a graph property ([gdf_prop_type]). *)
Inductive gdf_prop_type : Set :=
| GDF_PROP_UNDEF
| GDF_PROP_FALSE
| GDF_PROP_TRUE.

(** The element types a data pointer is cast to, and the weight type [WT] the
    conversion templates are instantiated at. *)
Inductive ctype : Set :=
| int8_t
| int16_t
| int32_t
| int64_t
| float
| double.

(** ** Device memory *)

(** A device pointer: [0] is [nullptr], [S k] is the [k]-th allocation. *)
Definition addr := nat.

Definition nullptr : addr := 0%nat.

(** One list of cells per allocation.  A cell holds the element stored
    there; what the element means is up to the type the pointer is cast to. *)
Abbreviation device_memory := (list (list Z)).

(** The cells behind a pointer (none behind [nullptr] or a pointer that was
    never allocated). *)
Definition load (m : device_memory) (p : addr) : list Z :=
  match p with
  | O => []
  | S k => default [] (m !! k)
  end.

(** The first [n] elements behind a pointer: what a kernel given the pointer
    and the count [n] reads. *)
Definition load_n (m : device_memory) (p : addr) (n : Z) : list Z :=
  take (Z.to_nat n) (load m p).

Definition store (m : device_memory) (p : addr) (cells : list Z) : device_memory :=
  match p with
  | O => m
  | S k => <[k := cells]> m
  end.

(** A fresh allocation of [n] elements; the model hands out zeroed cells and
    assumes the request is granted. *)
Definition allocate (m : device_memory) (n : Z) : addr * device_memory :=
  (S (length m), m ++ [replicate (Z.to_nat n) 0]).

(** ** Columns and representations *)

(** The column descriptor of the columnar-buffer library, with the fields
    this file reads and writes. *)
Record gdf_column : Set := {
  data : addr;
  valid : addr;
  size : Z;
  dtype : gdf_dtype;
  null_count : Z
}.

(** [gdf_column_view] of the columnar-buffer library: fills a descriptor
    from a data pointer, a validity pointer, a size and a type tag, with a
    null count of zero. *)
Definition gdf_column_view (d v : addr) (n : Z) (t : gdf_dtype) : gdf_column :=
  {| data := d; valid := v; size := n; dtype := t; null_count := 0 |}.

(** A shallow view of a column: same pointers, same size, same type tag. *)
Definition cpy_column_view (c : gdf_column) : gdf_column :=
  gdf_column_view (data c) (valid c) (size c) (dtype c).

(** The two index columns are allocated together with the representation, so
    they are always present; the weights are optional. *)
Record gdf_edge_list : Set := {
  src_indices : gdf_column;
  dest_indices : gdf_column;
  edge_data : option gdf_column
}.

Record gdf_adj_list : Set := {
  offsets : gdf_column;
  indices : gdf_column;
  adj_edge_data : option gdf_column
}.

(** The property block; [has_negative_edges] is the one property this file
    writes. *)
Record gdf_graph_properties : Set := {
  has_negative_edges : gdf_prop_type
}.

(** A freshly constructed property block knows nothing yet. *)
Definition new_gdf_graph_properties : gdf_graph_properties :=
  {| has_negative_edges := GDF_PROP_UNDEF |}.

Record gdf_graph : Set := {
  edgeList : option gdf_edge_list;
  adjList : option gdf_adj_list;
  transposedAdjList : option gdf_adj_list;
  prop : option gdf_graph_properties;
  numberOfVertices : Z
}.

(** The handle as its constructor leaves it. *)
Definition new_gdf_graph : gdf_graph :=
  {| edgeList := None; adjList := None; transposedAdjList := None;
     prop := None; numberOfVertices := 0 |}.

(** The negative-edge flag as a caller sees it: unknown while there is no
    property block. *)
Definition negative_edges (g : gdf_graph) : gdf_prop_type :=
  match prop g with
  | Some p => has_negative_edges p
  | None => GDF_PROP_UNDEF
  end.

Definition set_edgeList (v : option gdf_edge_list) (g : gdf_graph) : gdf_graph :=
  {| edgeList := v; adjList := adjList g;
     transposedAdjList := transposedAdjList g; prop := prop g;
     numberOfVertices := numberOfVertices g |}.

Definition set_adjList (v : option gdf_adj_list) (g : gdf_graph) : gdf_graph :=
  {| edgeList := edgeList g; adjList := v;
     transposedAdjList := transposedAdjList g; prop := prop g;
     numberOfVertices := numberOfVertices g |}.

Definition set_transposedAdjList (v : option gdf_adj_list) (g : gdf_graph) : gdf_graph :=
  {| edgeList := edgeList g; adjList := adjList g;
     transposedAdjList := v; prop := prop g;
     numberOfVertices := numberOfVertices g |}.

Definition set_prop (v : option gdf_graph_properties) (g : gdf_graph) : gdf_graph :=
  {| edgeList := edgeList g; adjList := adjList g;
     transposedAdjList := transposedAdjList g; prop := v;
     numberOfVertices := numberOfVertices g |}.

Definition set_numberOfVertices (v : Z) (g : gdf_graph) : gdf_graph :=
  {| edgeList := edgeList g; adjList := adjList g;
     transposedAdjList := transposedAdjList g; prop := prop g;
     numberOfVertices := v |}.

Definition set_edge_data (v : option gdf_column) (el : gdf_edge_list) : gdf_edge_list :=
  {| src_indices := src_indices el; dest_indices := dest_indices el;
     edge_data := v |}.

Definition set_adj_edge_data (v : option gdf_column) (al : gdf_adj_list) : gdf_adj_list :=
  {| offsets := offsets al; indices := indices al; adj_edge_data := v |}.

(** ** Operations as state transformers *)

(** What an operation works on: the handle and the device memory. *)
Record state : Set := {
  graph : gdf_graph;
  device : device_memory
}.

(** How an operation ends: it returns a value, it is ended by a failed
    expectation that carries a reason, it dereferences a null pointer, or a
    kernel it launched read or wrote outside a buffer it was given.  The last
    two are undefined in the source; after an overrun the state reported is
    the one the operation builds with the stray accesses left out. *)
Inductive result (A : Type) : Type :=
| Done (a : A)
| Raised (reason : string)
| Crashed
| Overrun.

Arguments Done {A} a.
Arguments Raised {A} reason%_string.
Arguments Crashed {A}.
Arguments Overrun {A}.

Definition M (A : Type) : Type := state -> result A * state.

#[global] Instance M_ret : MRet M :=
  fun A a s => (Done a, s).

#[global] Instance M_bind : MBind M :=
  fun A B k c s =>
    match c s with
    | (Done a, s') => k a s'
    | (Raised r, s') => (Raised r, s')
    | (Crashed, s') => (Crashed, s')
    | (Overrun, s') => (Overrun, s')
    end.

Definition get_graph : M gdf_graph :=
  fun s => (Done (graph s), s).

Definition get_device : M device_memory :=
  fun s => (Done (device s), s).

Definition update_graph (f : gdf_graph -> gdf_graph) : M unit :=
  fun s => (Done tt, {| graph := f (graph s); device := device s |}).

Definition put_device (m : device_memory) : M unit :=
  fun s => (Done tt, {| graph := graph s; device := m |}).

(** Reading through a pointer to a structure. *)
Definition deref {A : Type} (p : option A) : M A :=
  fun s =>
    match p with
    | Some a => (Done a, s)
    | None => (Crashed, s)
    end.

(** Modelled from the spec: the [CUGRAPH_EXPECTS] macro of
    [utilities/error_utils.h], which is not among the sources.  A violated
    expectation ends the operation on the spot and is reported to the caller
    as a failure that carries the reason; it is given a reason text, not a
    status code, and it also ends an enclosing operation that called this one
    for its effect only. *)
Definition CUGRAPH_EXPECTS (cond : bool) (reason : string) : M unit :=
  fun s => if cond then (Done tt, s) else (Raised reason, s).

Arguments CUGRAPH_EXPECTS cond reason%_string.


(** The end of a kernel launch: fine if every access stayed inside the
    buffers the kernel was given, an overrun otherwise. *)
Definition kernel_ran (inside : bool) : M unit :=
  fun s => if inside then (Done tt, s) else (Overrun, s).

Definition is_nullptr {A : Type} (p : option A) : bool :=
  match p with
  | Some _ => false
  | None => true
  end.

(** ** The device kernels the operations call *)

(** What the unweighted converter fills in ([CSR_Result]). *)
Record CSR_Result : Set := {
  csr_size : Z;
  csr_nnz : Z;
  rowOffsets : addr;
  colIndices : addr
}.

(** What the weighted converter fills in ([CSR_Result_Weighted]). *)
Record CSR_Result_Weighted : Set := {
  csrw_size : Z;
  csrw_nnz : Z;
  w_rowOffsets : addr;
  w_colIndices : addr;
  edgeWeights : addr
}.

(** The kernels of [utilities/graph_utils.cuh], [utilities/validation.cuh]
    and [converters/COOtoCSR.cuh] that this file calls and whose outcome is
    not fixed by the operations themselves: the typed negative-value scan,
    the indexing check, and the two converters, which allocate their outputs
    and report a status.  The operations are stated over any such kernels. *)
Record kernels : Type := {
  has_negative_val : ctype -> device_memory -> addr -> Z -> bool;
  indexing_check : device_memory -> addr -> addr -> Z -> gdf_error;
  ConvertCOOtoCSR :
    device_memory -> addr -> addr -> Z -> Z * CSR_Result * device_memory;
  ConvertCOOtoCSR_weighted :
    ctype -> device_memory -> addr -> addr -> addr -> Z ->
    Z * CSR_Result_Weighted * device_memory
}.

(** Modelled from the spec: [offsets_to_indices] of
    [utilities/graph_utils.cuh], which is not among the sources.  It expands
    an offset array over [v] vertices into a per-edge source array: for the
    offset range [offsets[j], offsets[j+1]) every entry gets source [j].
    The kernel is given two pointers and no lengths, so nothing keeps it
    inside the buffers: beside the output, each function returns whether
    every read of the offsets and every write of the output stayed inside. *)
Fixpoint fill_range (buf : list Z) (start : Z) (count : nat) (x : Z)
    : list Z * bool :=
  match count with
  | O => (buf, true)
  | S c =>
      let inside := (0 <=? start) && (start <? Z.of_nat (length buf)) in
      let written :=
        if inside then <[Z.to_nat start := x]> buf else buf in
      let '(filled, rest) := fill_range written (start + 1) c x in
      (filled, inside && rest)
  end.

Definition offsets_to_indices (offs : list Z) (v : Z) (out : list Z)
    : list Z * bool :=
  foldl
    (fun '(buf, inside) j =>
       match offs !! j, offs !! S j with
       | Some colStart, Some colEnd =>
           let '(filled, ok) :=
             fill_range buf colStart (Z.to_nat (colEnd - colStart))
               (Z.of_nat j) in
           (filled, inside && ok)
       | _, _ => (buf, false)
       end)
    (out, true) (seq 0 (Z.to_nat v)).

(** ** The view operations *)

Section Operations.

Variable K : kernels.

(** [if (!graph->prop) graph->prop = new gdf_graph_properties();] *)
Definition ensure_prop : M unit :=
  graph ← get_graph;
  if is_nullptr (prop graph)
  then update_graph (set_prop (Some new_gdf_graph_properties))
  else mret tt.

(** [graph->prop->has_negative_edges = v;] *)
Definition assign_has_negative_edges (v : gdf_prop_type) : M unit :=
  graph ← get_graph;
  _ ← deref (prop graph);
  update_graph (set_prop (Some {| has_negative_edges := v |})).

(** The type-dispatched scan of a weight column for a negative value; a type
    tag outside the six cases takes the [default] branch. *)
Definition has_neg_val_of (m : device_memory) (c : gdf_column) : bool :=
  match dtype c with
  | GDF_INT8 => has_negative_val K int8_t m (data c) (size c)
  | GDF_INT16 => has_negative_val K int16_t m (data c) (size c)
  | GDF_INT32 => has_negative_val K int32_t m (data c) (size c)
  | GDF_INT64 => has_negative_val K int64_t m (data c) (size c)
  | GDF_FLOAT32 => has_negative_val K float m (data c) (size c)
  | GDF_FLOAT64 => has_negative_val K double m (data c) (size c)
  | _ => false
  end.

Definition scan_negative (c : gdf_column) : M bool :=
  m ← get_device;
  mret (has_neg_val_of m c).

Definition gdf_adj_list_view (in_offsets in_indices : gdf_column)
    (in_edge_data : option gdf_column) : M gdf_error :=
  graph ← get_graph;
  CUGRAPH_EXPECTS
    (is_nullptr (edgeList graph) && is_nullptr (adjList graph)
     && is_nullptr (transposedAdjList graph))
    "Invalid API parameter";;
  CUGRAPH_EXPECTS (null_count in_offsets =? 0)
    "Input column has non-zero null count";;
  CUGRAPH_EXPECTS (null_count in_indices =? 0)
    "Input column has non-zero null count";;
  CUGRAPH_EXPECTS (bool_decide (dtype in_offsets = dtype in_indices))
    "Unsupported data type";;
  CUGRAPH_EXPECTS (bool_decide (dtype in_offsets = GDF_INT32))
    "Unsupported data type";;
  CUGRAPH_EXPECTS (0 <? size in_offsets) "Column is empty";;
  update_graph
    (set_adjList
       (Some {| offsets := cpy_column_view in_offsets;
                indices := cpy_column_view in_indices;
                adj_edge_data := None |}));;
  ensure_prop;;
  match in_edge_data with
  | Some in_weights =>
      CUGRAPH_EXPECTS (size in_indices =? size in_weights)
        "Column size mismatch";;
      graph ← get_graph;
      adj ← deref (adjList graph);
      let weights := cpy_column_view in_weights in
      update_graph
        (set_adjList (Some (set_adj_edge_data (Some weights) adj)));;
      has_neg_val ← scan_negative weights;
      assign_has_negative_edges
        (if has_neg_val : bool then GDF_PROP_TRUE else GDF_PROP_FALSE)
  | None =>
      graph ← get_graph;
      adj ← deref (adjList graph);
      update_graph (set_adjList (Some (set_adj_edge_data None adj)));;
      assign_has_negative_edges GDF_PROP_FALSE
  end;;
  graph ← get_graph;
  adj ← deref (adjList graph);
  update_graph (set_numberOfVertices (size (offsets adj) - 1));;
  mret GDF_SUCCESS.

Definition gdf_edge_list_view (in_src_indices in_dest_indices : gdf_column)
    (in_edge_data : option gdf_column) : M gdf_error :=
  graph ← get_graph;
  CUGRAPH_EXPECTS
    (is_nullptr (edgeList graph) && is_nullptr (adjList graph)
     && is_nullptr (transposedAdjList graph))
    "Invalid API parameter";;
  CUGRAPH_EXPECTS (size in_src_indices =? size in_dest_indices)
    "Column size mismatch";;
  CUGRAPH_EXPECTS (bool_decide (dtype in_src_indices = dtype in_dest_indices))
    "Unsupported data type";;
  CUGRAPH_EXPECTS (bool_decide (dtype in_src_indices = GDF_INT32))
    "Unsupported data type";;
  CUGRAPH_EXPECTS (0 <? size in_src_indices) "Column is empty";;
  CUGRAPH_EXPECTS (null_count in_src_indices =? 0)
    "Input column has non-zero null count";;
  CUGRAPH_EXPECTS (null_count in_dest_indices =? 0)
    "Input column has non-zero null count";;
  update_graph
    (set_edgeList
       (Some {| src_indices := cpy_column_view in_src_indices;
                dest_indices := cpy_column_view in_dest_indices;
                edge_data := None |}));;
  ensure_prop;;
  match in_edge_data with
  | Some in_weights =>
      CUGRAPH_EXPECTS (size in_src_indices =? size in_weights)
        "Column size mismatch";;
      graph ← get_graph;
      el ← deref (edgeList graph);
      let weights := cpy_column_view in_weights in
      update_graph (set_edgeList (Some (set_edge_data (Some weights) el)));;
      has_neg_val ← scan_negative weights;
      assign_has_negative_edges
        (if has_neg_val : bool then GDF_PROP_TRUE else GDF_PROP_FALSE)
  | None =>
      graph ← get_graph;
      el ← deref (edgeList graph);
      update_graph (set_edgeList (Some (set_edge_data None el)));;
      assign_has_negative_edges GDF_PROP_FALSE
  end;;
  graph ← get_graph;
  el ← deref (edgeList graph);
  m ← get_device;
  let status :=
    indexing_check K m (data (src_indices el)) (data (dest_indices el))
      (size (dest_indices el)) in
  mret status.

(** ** The add operations *)

(** The adjacency list the weighted converter's result is viewed as; index
    columns take the type tag of [src_indices], the weights that of the edge
    list's weights. *)
Definition view_of_weighted (adj_list : CSR_Result_Weighted)
    (index_dtype weight_dtype : gdf_dtype) : gdf_adj_list :=
  {| offsets :=
       gdf_column_view (w_rowOffsets adj_list) nullptr
         (csrw_size adj_list + 1) index_dtype;
     indices :=
       gdf_column_view (w_colIndices adj_list) nullptr
         (csrw_nnz adj_list) index_dtype;
     adj_edge_data :=
       Some (gdf_column_view (edgeWeights adj_list) nullptr
               (csrw_nnz adj_list) weight_dtype) |}.

(** The adjacency list the unweighted converter's result is viewed as. *)
Definition view_of_unweighted (adj_list : CSR_Result)
    (index_dtype : gdf_dtype) : gdf_adj_list :=
  {| offsets :=
       gdf_column_view (rowOffsets adj_list) nullptr
         (csr_size adj_list + 1) index_dtype;
     indices :=
       gdf_column_view (colIndices adj_list) nullptr
         (csr_nnz adj_list) index_dtype;
     adj_edge_data := None |}.

Definition gdf_add_adj_list_impl (WT : ctype) : M gdf_error :=
  graph ← get_graph;
  if is_nullptr (adjList graph) then
    CUGRAPH_EXPECTS (negb (is_nullptr (edgeList graph)))
      "Invalid API parameter";;
    el ← deref (edgeList graph);
    let nnz := size (src_indices el) in
    m ← get_device;
    status ←
      match edge_data el with
      | Some weights =>
          let '(status, adj_list, m') :=
            ConvertCOOtoCSR_weighted K WT m (data (src_indices el))
              (data (dest_indices el)) (data weights) nnz in
          put_device m';;
          update_graph
            (set_adjList
               (Some (view_of_weighted adj_list (dtype (src_indices el))
                        (dtype weights))));;
          mret status
      | None =>
          let '(status, adj_list, m') :=
            ConvertCOOtoCSR K m (data (src_indices el))
              (data (dest_indices el)) nnz in
          put_device m';;
          update_graph
            (set_adjList
               (Some (view_of_unweighted adj_list (dtype (src_indices el)))));;
          mret status
      end;
    if negb (status =? 0) then mret GDF_CUDA_ERROR
    else
      graph ← get_graph;
      adj ← deref (adjList graph);
      update_graph (set_numberOfVertices (size (offsets adj) - 1));;
      mret GDF_SUCCESS
  else mret GDF_SUCCESS.

(** The expansion kernel is launched on the new allocation and the host goes
    on to fill in the columns; an access of the kernel outside the buffers it
    was given ends the operation as an overrun, with the handle filled in. *)
Definition gdf_add_edge_list : M gdf_error :=
  graph ← get_graph;
  if is_nullptr (edgeList graph) then
    CUGRAPH_EXPECTS (negb (is_nullptr (adjList graph)))
      "Invalid API parameter";;
    adj ← deref (adjList graph);
    m ← get_device;
    let '(d_src, m) := allocate m (size (indices adj)) in
    let '(expanded, inside) :=
      offsets_to_indices (load m (data (offsets adj)))
        (size (offsets adj) - 1) (load m d_src) in
    put_device (store m d_src expanded);;
    update_graph
      (set_edgeList
         (Some {| src_indices :=
                    gdf_column_view d_src nullptr (size (indices adj))
                      (dtype (indices adj));
                  dest_indices := cpy_column_view (indices adj);
                  edge_data :=
                    match adj_edge_data adj with
                    | Some weights => Some (cpy_column_view weights)
                    | None => None
                    end |}));;
    kernel_ran inside;;
    mret GDF_SUCCESS
  else mret GDF_SUCCESS.

Definition gdf_add_transposed_adj_list_impl (WT : ctype) : M gdf_error :=
  graph ← get_graph;
  if is_nullptr (transposedAdjList graph) then
    CUGRAPH_EXPECTS (negb (is_nullptr (edgeList graph)))
      "Invalid API parameter";;
    el ← deref (edgeList graph);
    let nnz := size (src_indices el) in
    m ← get_device;
    status ←
      match edge_data el with
      | Some weights =>
          let '(status, adj_list, m') :=
            ConvertCOOtoCSR_weighted K WT m (data (dest_indices el))
              (data (src_indices el)) (data weights) nnz in
          put_device m';;
          update_graph
            (set_transposedAdjList
               (Some (view_of_weighted adj_list (dtype (src_indices el))
                        (dtype weights))));;
          mret status
      | None =>
          let '(status, adj_list, m') :=
            ConvertCOOtoCSR K m (data (dest_indices el))
              (data (src_indices el)) nnz in
          put_device m';;
          update_graph
            (set_transposedAdjList
               (Some (view_of_unweighted adj_list (dtype (src_indices el)))));;
          mret status
      end;
    if negb (status =? 0) then mret GDF_CUDA_ERROR
    else
      graph ← get_graph;
      adj ← deref (transposedAdjList graph);
      update_graph (set_numberOfVertices (size (offsets adj) - 1));;
      mret GDF_SUCCESS
  else mret GDF_SUCCESS.

Definition gdf_add_adj_list : M gdf_error :=
  graph ← get_graph;
  if negb (is_nullptr (adjList graph)) then mret GDF_SUCCESS
  else
    CUGRAPH_EXPECTS (negb (is_nullptr (edgeList graph)))
      "Invalid API parameter";;
    el ← deref (edgeList graph);
    CUGRAPH_EXPECTS (bool_decide (dtype (src_indices el) = GDF_INT32))
      "Unsupported data type";;
    match edge_data el with
    | Some weights =>
        match dtype weights with
        | GDF_FLOAT32 => gdf_add_adj_list_impl float
        | GDF_FLOAT64 => gdf_add_adj_list_impl double
        | _ => mret GDF_UNSUPPORTED_DTYPE
        end
    | None => gdf_add_adj_list_impl float
    end.

Definition gdf_add_transposed_adj_list : M gdf_error :=
  graph ← get_graph;
  (if is_nullptr (edgeList graph)
   then _ ← gdf_add_edge_list; mret tt
   else mret tt);;
  graph ← get_graph;
  el ← deref (edgeList graph);
  CUGRAPH_EXPECTS (bool_decide (dtype (src_indices el) = GDF_INT32))
    "Unsupported data type";;
  CUGRAPH_EXPECTS (bool_decide (dtype (dest_indices el) = GDF_INT32))
    "Unsupported data type";;
  match edge_data el with
  | Some weights =>
      match dtype weights with
      | GDF_FLOAT32 => gdf_add_transposed_adj_list_impl float
      | GDF_FLOAT64 => gdf_add_transposed_adj_list_impl double
      | _ => mret GDF_UNSUPPORTED_DTYPE
      end
  | None => gdf_add_transposed_adj_list_impl float
  end.

(** ** The vertex count *)

(** The lowest 32-bit signed value, with which a maximum reduction starts. *)
Definition INT32_MIN : Z := -2147483648.

Definition INT32_MAX : Z := 2147483647.

(** 32-bit signed arithmetic keeps the low 32 bits. *)
Definition wrap_int32 (z : Z) : Z :=
  (z + 2147483648) mod 4294967296 - 2147483648.

(** [cub::DeviceReduce::Max] over [num_items] 32-bit elements behind
    [d_in]. *)
Definition DeviceReduce_Max (m : device_memory) (d_in : addr)
    (num_items : Z) : Z :=
  foldl Z.max INT32_MIN (load_n m d_in num_items).

Definition gdf_number_of_vertices : M gdf_error :=
  graph ← get_graph;
  if negb (numberOfVertices graph =? 0) then mret GDF_SUCCESS
  else
    CUGRAPH_EXPECTS (negb (is_nullptr (edgeList graph)))
      "Invalid API parameter";;
    el ← deref (edgeList graph);
    CUGRAPH_EXPECTS (bool_decide (dtype (src_indices el) = GDF_INT32))
      "Unsupported data type";;
    m ← get_device;
    let h_max0 :=
      DeviceReduce_Max m (data (src_indices el)) (size (src_indices el)) in
    let h_max1 :=
      DeviceReduce_Max m (data (dest_indices el)) (size (src_indices el)) in
    update_graph
      (set_numberOfVertices (wrap_int32 (1 + Z.max h_max0 h_max1)));;
    mret GDF_SUCCESS.

End Operations.

(** ** The error kinds of the interface *)

(** How the outcome of an operation reads as an error kind: a failed
    expectation is told by its reason, a returned status by its code. *)
Definition InvalidState (r : result gdf_error) : Prop :=
  r = Raised "Invalid API parameter".

Definition UnsupportedType (r : result gdf_error) : Prop :=
  r = Raised "Unsupported data type" \/ r = Done GDF_UNSUPPORTED_DTYPE.

Definition succeeded (r : result gdf_error) : Prop :=
  r = Done GDF_SUCCESS.

Definition failed (r : result gdf_error) : Prop :=
  r <> Done GDF_SUCCESS.

(** A handle with no representation at all, and one with at least one. *)
Definition empty_handle (g : gdf_graph) : Prop :=
  edgeList g = None /\ adjList g = None /\ transposedAdjList g = None.

Definition populated (g : gdf_graph) : Prop :=
  edgeList g <> None \/ adjList g <> None \/ transposedAdjList g <> None.

(** The six weight kinds the negative-value scan knows. *)
Definition supported_weight_kind (t : gdf_dtype) : bool :=
  match t with
  | GDF_INT8 | GDF_INT16 | GDF_INT32 | GDF_INT64
  | GDF_FLOAT32 | GDF_FLOAT64 => true
  | _ => false
  end.

(** ** Deriving the edge list *)

(** The state an edge-list derivation from the adjacency list [adj] leaves:
    a fresh source array holding the expanded offsets, and shallow views of
    the adjacency list's indices and weights. *)
Definition derived_edge_list (d_src : addr) (adj : gdf_adj_list) : gdf_edge_list :=
  {| src_indices :=
       gdf_column_view d_src nullptr (size (indices adj)) (dtype (indices adj));
     dest_indices := cpy_column_view (indices adj);
     edge_data :=
       match adj_edge_data adj with
       | Some weights => Some (cpy_column_view weights)
       | None => None
       end |}.

(** What the expansion kernel of the derivation makes of the new source
    array, and whether it stays inside the buffers. *)
Definition expansion (s : state) (adj : gdf_adj_list) : list Z * bool :=
  let d_src := S (length (device s)) in
  let m := device s ++ [replicate (Z.to_nat (size (indices adj))) 0] in
  offsets_to_indices (load m (data (offsets adj))) (size (offsets adj) - 1)
    (load m d_src).

Definition after_add_edge_list (s : state) (adj : gdf_adj_list) : state :=
  let d_src := S (length (device s)) in
  let m := device s ++ [replicate (Z.to_nat (size (indices adj))) 0] in
  {| graph := set_edgeList (Some (derived_edge_list d_src adj)) (graph s);
     device := store m d_src (fst (expansion s adj)) |}.

(** ** What a view installs *)

(** The handle after an adjacency-list view went through: the views of the
    given columns in the adjacency slot, the flag, and the vertex count read
    off the offsets. *)
Definition adj_view_state (s : state) (in_offsets in_indices : gdf_column)
    (weights : option gdf_column) (flag : gdf_prop_type) : state :=
  {| graph :=
       {| edgeList := edgeList (graph s);
          adjList :=
            Some {| offsets := cpy_column_view in_offsets;
                    indices := cpy_column_view in_indices;
                    adj_edge_data := weights |};
          transposedAdjList := transposedAdjList (graph s);
          prop := Some {| has_negative_edges := flag |};
          numberOfVertices := size in_offsets - 1 |};
     device := device s |}.

(** The handle after an edge-list view went through, whatever the indexing
    check then says: the vertex count is not touched. *)
Definition edge_view_state (s : state) (in_src in_dest : gdf_column)
    (weights : option gdf_column) (flag : gdf_prop_type) : state :=
  {| graph :=
       {| edgeList :=
            Some {| src_indices := cpy_column_view in_src;
                    dest_indices := cpy_column_view in_dest;
                    edge_data := weights |};
          adjList := adjList (graph s);
          transposedAdjList := transposedAdjList (graph s);
          prop := Some {| has_negative_edges := flag |};
          numberOfVertices := numberOfVertices (graph s) |};
     device := device s |}.

(** The handle a view leaves when the weights turn out not to fit: the index
    columns are in their slot and the property block exists, but neither the
    flag nor the vertex count has been written. *)
Definition adj_view_interrupted (s : state) (in_offsets in_indices : gdf_column)
    : state :=
  {| graph :=
       {| edgeList := edgeList (graph s);
          adjList :=
            Some {| offsets := cpy_column_view in_offsets;
                    indices := cpy_column_view in_indices;
                    adj_edge_data := None |};
          transposedAdjList := transposedAdjList (graph s);
          prop := Some (default new_gdf_graph_properties (prop (graph s)));
          numberOfVertices := numberOfVertices (graph s) |};
     device := device s |}.

Definition edge_view_interrupted (s : state) (in_src in_dest : gdf_column)
    : state :=
  {| graph :=
       {| edgeList :=
            Some {| src_indices := cpy_column_view in_src;
                    dest_indices := cpy_column_view in_dest;
                    edge_data := None |};
          adjList := adjList (graph s);
          transposedAdjList := transposedAdjList (graph s);
          prop := Some (default new_gdf_graph_properties (prop (graph s)));
          numberOfVertices := numberOfVertices (graph s) |};
     device := device s |}.

(** The flag a scan result is recorded as. *)
Definition flag_of (has_neg_val : bool) : gdf_prop_type :=
  if has_neg_val then GDF_PROP_TRUE else GDF_PROP_FALSE.

(** ** What a conversion installs *)

(** The format converter applied to the index arrays [rows] and [cols] and,
    when there are weights, to the weights, instantiated at the weight type
    [WT]: the status, the adjacency list its result is viewed as, and the
    device memory it leaves. *)
Definition convert (K : kernels) (WT : ctype) (m : device_memory)
    (rows cols : addr) (weights : option gdf_column) (nnz : Z)
    (index_dtype : gdf_dtype) : Z * gdf_adj_list * device_memory :=
  match weights with
  | Some w =>
      let '(status, adj_list, m') :=
        ConvertCOOtoCSR_weighted K WT m rows cols (data w) nnz in
      (status, view_of_weighted adj_list index_dtype (dtype w), m')
  | None =>
      let '(status, adj_list, m') := ConvertCOOtoCSR K m rows cols nnz in
      (status, view_of_unweighted adj_list index_dtype, m')
  end.

(** How a derivation ends once the converter ran: the result is put in its
    slot either way; a zero status also sets the vertex count. *)
Definition conversion_outcome
    (install : option gdf_adj_list -> gdf_graph -> gdf_graph)
    (g : gdf_graph) (c : Z * gdf_adj_list * device_memory)
    : result gdf_error * state :=
  let '(status, adj, m') := c in
  if status =? 0
  then (Done GDF_SUCCESS,
        {| graph :=
             set_numberOfVertices (size (offsets adj) - 1)
               (install (Some adj) g);
           device := m' |})
  else (Done GDF_CUDA_ERROR,
        {| graph := install (Some adj) g; device := m' |}).

(** ** Preconditions and invariants *)

(** The checks a view makes on the index columns it is given, in the words
    of the interface: no nulls, both columns 32-bit integers, a non-empty
    offset column. *)
Definition adjacency_columns_ok (in_offsets in_indices : gdf_column) : Prop :=
  null_count in_offsets = 0 /\ null_count in_indices = 0 /\
  dtype in_offsets = GDF_INT32 /\ dtype in_indices = GDF_INT32 /\
  0 < size in_offsets.

Definition edge_columns_ok (in_src in_dest : gdf_column) : Prop :=
  size in_src = size in_dest /\
  dtype in_src = GDF_INT32 /\ dtype in_dest = GDF_INT32 /\
  0 < size in_src /\
  null_count in_src = 0 /\ null_count in_dest = 0.

(** The offsets [offs] over [v] vertices describe ranges of an array of [n]
    cells: the offsets of each vertex and of the next one are there, and a
    range that is not empty starts at zero or later and ends at [n] or
    before. *)
Definition offsets_within (offs : list Z) (v n : Z) : Prop :=
  forall j, (j < Z.to_nat v)%nat ->
    exists colStart colEnd,
      offs !! j = Some colStart /\ offs !! S j = Some colEnd
      /\ (colEnd <= colStart \/ 0 <= colStart /\ colEnd <= n).

(** Weights, when given, are as many as the edges. *)
Definition weights_fit (edges : Z) (in_edge_data : option gdf_column) : Prop :=
  forall w, in_edge_data = Some w -> size w = edges.

(** The state in which the transposed derivation converts: the given one
    when an Edge List is there, else the one left by deriving the Edge List
    from the Adjacency List. *)
Definition conversion_source (s : state) : state :=
  match edgeList (graph s), adjList (graph s) with
  | None, Some adj => after_add_edge_list s adj
  | _, _ => s
  end.

(** The instantiation of the weighted converter chosen for a weight kind. *)
Definition weight_ctype (t : gdf_dtype) : option ctype :=
  match t with
  | GDF_FLOAT32 => Some float
  | GDF_FLOAT64 => Some double
  | _ => None
  end.

(** [x] is the greatest element of [l]. *)
Definition is_maximum (x : Z) (l : list Z) : Prop :=
  x ∈ l /\ Forall (fun y => y <= x) l.

(** An Edge List that satisfies the invariant of the data model in the
    memory [m]: both index columns describe their whole array, the arrays are
    equally long and not empty, and every vertex id is a 32-bit value below
    the largest one (so that one more still is). *)
Definition vertex_id (x : Z) : Prop := INT32_MIN <= x < INT32_MAX.


(** ** Reference kernels *)

(** Modelled from the spec: [has_negative_val] of
    [utilities/graph_utils.cuh].  Some element of the array is negative; the
    cell is read as the number the element denotes. *)
Definition reference_has_negative_val (_ : ctype) (m : device_memory)
    (p : addr) (n : Z) : bool :=
  bool_decide (Exists (fun x => x < 0) (load_n m p n)).

(** The indexing check of the concrete runs.  Its rule is known neither
    from the sources nor from the interface, so the runs take a check that
    every pair passes; the operations are stated over any check. *)
Definition reference_indexing_check (m : device_memory) (srcs dests : addr)
    (nnz : Z) : gdf_error :=
  GDF_SUCCESS.

(** Modelled from the spec: the format converter of
    [converters/COOtoCSR.cuh].  Edges are grouped by source vertex, in their
    original order within a group; the offset array has one entry more than
    there are vertices, a vertex count one above the largest id. *)
Definition vertex_count (src dst : list Z) : Z :=
  1 + foldl Z.max (-1) (src ++ dst).

Definition vertices (V : Z) : list Z :=
  Z.of_nat <$> seq 0 (Z.to_nat V).

Definition row_offsets (V : Z) (src : list Z) : list Z :=
  (fun v => Z.of_nat (length (filter (fun x => x < v) src)))
    <$> vertices (V + 1).

Definition group_by_source {X : Type} (V : Z) (src : list Z) (xs : list X) : list X :=
  vertices V ≫= fun v => snd <$> filter (fun e => fst e = v) (zip src xs).

Definition reference_ConvertCOOtoCSR (m : device_memory) (src dst : addr)
    (nnz : Z) : Z * CSR_Result * device_memory :=
  let s := load_n m src nnz in
  let d := load_n m dst nnz in
  let V := vertex_count s d in
  let base := length m in
  (0,
   {| csr_size := V; csr_nnz := nnz;
      rowOffsets := S base; colIndices := S (S base) |},
   m ++ [row_offsets V s; group_by_source V s d]).

Definition reference_ConvertCOOtoCSR_weighted (_ : ctype) (m : device_memory)
    (src dst weights : addr) (nnz : Z)
    : Z * CSR_Result_Weighted * device_memory :=
  let s := load_n m src nnz in
  let d := load_n m dst nnz in
  let w := load_n m weights nnz in
  let V := vertex_count s d in
  let base := length m in
  (0,
   {| csrw_size := V; csrw_nnz := nnz;
      w_rowOffsets := S base; w_colIndices := S (S base);
      edgeWeights := S (S (S base)) |},
   m ++ [row_offsets V s; group_by_source V s d; group_by_source V s w]).

Definition reference_kernels : kernels :=
  {| has_negative_val := reference_has_negative_val;
     indexing_check := reference_indexing_check;
     ConvertCOOtoCSR := reference_ConvertCOOtoCSR;
     ConvertCOOtoCSR_weighted := reference_ConvertCOOtoCSR_weighted |}.

(** ** Concrete inputs *)

(** A column of [n] elements of type [t] behind the pointer [p]. *)
Definition column (p : addr) (n : Z) (t : gdf_dtype) : gdf_column :=
  {| data := p; valid := nullptr; size := n; dtype := t; null_count := 0 |}.

(** A handle fresh from its constructor, over the device memory [m]. *)
Definition fresh (m : device_memory) : state :=
  {| graph := new_gdf_graph; device := m |}.

(** A handle that holds just the Edge List [el]. *)
Definition holding_edge_list (el : gdf_edge_list) (m : device_memory) : state :=
  {| graph := set_edgeList (Some el) new_gdf_graph; device := m |}.

(** A handle that holds just the Adjacency List [adj], with its vertex
    count. *)
Definition holding_adj_list (adj : gdf_adj_list) (m : device_memory) : state :=
  {| graph :=
       set_numberOfVertices (size (offsets adj) - 1)
         (set_adjList (Some adj) new_gdf_graph);
     device := m |}.

(** ** Releasing a representation *)

(** What [delete] runs on a representation: the destructors of
    [gdf_edge_list] and [gdf_adj_list], declared with the structures and not
    among the sources.  They release device buffers; the delete operations
    are stated over any such destructors. *)
Record destructors : Type := {
  destroy_edge_list : gdf_edge_list -> device_memory -> device_memory;
  destroy_adj_list : gdf_adj_list -> device_memory -> device_memory
}.

Section Deletion.

Variable D : destructors.

Definition gdf_delete_adj_list : M gdf_error :=
  graph ← get_graph;
  match adjList graph with
  | Some adj => m ← get_device; put_device (destroy_adj_list D adj m)
  | None => mret tt
  end;;
  update_graph (set_adjList None);;
  mret GDF_SUCCESS.

Definition gdf_delete_edge_list : M gdf_error :=
  graph ← get_graph;
  match edgeList graph with
  | Some el => m ← get_device; put_device (destroy_edge_list D el m)
  | None => mret tt
  end;;
  update_graph (set_edgeList None);;
  mret GDF_SUCCESS.

Definition gdf_delete_transposed_adj_list : M gdf_error :=
  graph ← get_graph;
  match transposedAdjList graph with
  | Some adj => m ← get_device; put_device (destroy_adj_list D adj m)
  | None => mret tt
  end;;
  update_graph (set_transposedAdjList None);;
  mret GDF_SUCCESS.

End Deletion.

(** ** The methods of an adjacency list *)



Section Methods.

(** The [sequence] kernel of [utilities/graph_utils.cuh], not among the
    sources.  It is given a count and a pointer and no length: the cells it
    writes behind the pointer, index and value, for the count it is called
    with. *)
Variable sequence : Z -> list (Z * Z).



End Methods.

(** ** Sequences of calls *)

(** A call of one of the operations on the handle, with its arguments. *)
Inductive call : Set :=
| call_adj_list_view (in_offsets in_indices : gdf_column)
    (in_edge_data : option gdf_column)
| call_edge_list_view (in_src_indices in_dest_indices : gdf_column)
    (in_edge_data : option gdf_column)
| call_add_adj_list
| call_add_transposed_adj_list
| call_add_edge_list
| call_delete_adj_list
| call_delete_edge_list
| call_delete_transposed_adj_list
| call_number_of_vertices.

Definition run_call (K : kernels) (D : destructors) (c : call)
    : M gdf_error :=
  match c with
  | call_adj_list_view o i ed => gdf_adj_list_view K o i ed
  | call_edge_list_view a b ed => gdf_edge_list_view K a b ed
  | call_add_adj_list => gdf_add_adj_list K
  | call_add_transposed_adj_list => gdf_add_transposed_adj_list K
  | call_add_edge_list => gdf_add_edge_list
  | call_delete_adj_list => gdf_delete_adj_list D
  | call_delete_edge_list => gdf_delete_edge_list D
  | call_delete_transposed_adj_list => gdf_delete_transposed_adj_list D
  | call_number_of_vertices => gdf_number_of_vertices
  end.

(** The state after a sequence of calls, each made whatever the ones before
    it answered. *)
Definition run_calls (K : kernels) (D : destructors) (calls : list call)
    (s : state) : state :=
  foldl (fun s c => snd (run_call K D c s)) s calls.

(** ** What holds of every stored representation *)

(** An index column as the operations store it: 32-bit integers, no nulls. *)
Definition index_column (c : gdf_column) : Prop :=
  dtype c = GDF_INT32 /\ null_count c = 0.

(** Weights, when stored, are as many as the edges and have no nulls. *)
Definition weights_column (edges : Z) (w : option gdf_column) : Prop :=
  forall c, w = Some c -> size c = edges /\ null_count c = 0.

Definition edge_list_ok (el : gdf_edge_list) : Prop :=
  index_column (src_indices el) /\ index_column (dest_indices el)
  /\ size (src_indices el) = size (dest_indices el)
  /\ weights_column (size (src_indices el)) (edge_data el).

Definition adj_list_ok (adj : gdf_adj_list) : Prop :=
  index_column (offsets adj) /\ index_column (indices adj)
  /\ weights_column (size (indices adj)) (adj_edge_data adj).

Definition handle_ok (g : gdf_graph) : Prop :=
  (forall el, edgeList g = Some el -> edge_list_ok el)
  /\ (forall adj, adjList g = Some adj -> adj_list_ok adj)
  /\ (forall adj, transposedAdjList g = Some adj -> adj_list_ok adj).

(** The element type the scan is run at for a weight kind. *)
Definition scanned_as (t : gdf_dtype) : option ctype :=
  match t with
  | GDF_INT8 => Some int8_t
  | GDF_INT16 => Some int16_t
  | GDF_INT32 => Some int32_t
  | GDF_INT64 => Some int64_t
  | GDF_FLOAT32 => Some float
  | GDF_FLOAT64 => Some double
  | _ => None
  end.

(** Destructors that leave the device memory alone, and a sequence kernel
    that counts up from zero, for concrete runs. *)
Definition keep_memory : destructors :=
  {| destroy_edge_list := fun _ m => m;
     destroy_adj_list := fun _ m => m |}.


(** * Properties *)

(** ** Stepping through an operation *)

Lemma is_nullptr_true {A : Type} (p : option A) :
  is_nullptr p = true <-> p = None.
Proof. destruct p; cbn; split; congruence. Qed.

Lemma is_nullptr_false {A : Type} (p : option A) :
  is_nullptr p = false <-> p <> None.
Proof. destruct p; cbn; split; congruence. Qed.

Section Stepping.

Context {A B : Type}.
Implicit Types (k : A -> M B) (s : state).

Lemma run_bind (c : M A) k s :
  (c ≫= k) s =
  match c s with
  | (Done a, s') => k a s'
  | (Raised r, s') => (Raised r, s')
  | (Crashed, s') => (Crashed, s')
  | (Overrun, s') => (Overrun, s')
  end.
Proof. reflexivity. Qed.

Lemma run_ret (a : A) k s : (mret a ≫= k) s = k a s.
Proof. reflexivity. Qed.

Lemma run_deref_some (a : A) k s : (deref (Some a) ≫= k) s = k a s.
Proof. reflexivity. Qed.

Lemma run_deref_none k s : (deref None ≫= k) s = (Crashed, s).
Proof. reflexivity. Qed.

End Stepping.

Section SteppingState.

Context {B : Type}.
Implicit Types (s : state).

Lemma run_get_graph (k : gdf_graph -> M B) s :
  (get_graph ≫= k) s = k (graph s) s.
Proof. reflexivity. Qed.

Lemma run_get_device (k : device_memory -> M B) s :
  (get_device ≫= k) s = k (device s) s.
Proof. reflexivity. Qed.

Lemma run_update_graph (f : gdf_graph -> gdf_graph) (k : unit -> M B) s :
  (update_graph f ≫= k) s =
  k tt {| graph := f (graph s); device := device s |}.
Proof. reflexivity. Qed.

Lemma run_put_device (m : device_memory) (k : unit -> M B) s :
  (put_device m ≫= k) s = k tt {| graph := graph s; device := m |}.
Proof. reflexivity. Qed.

Lemma run_expects_true (reason : string) (k : unit -> M B) s :
  (CUGRAPH_EXPECTS true reason ≫= k) s = k tt s.
Proof. reflexivity. Qed.

Lemma run_expects_false (reason : string) (k : unit -> M B) s :
  (CUGRAPH_EXPECTS false reason ≫= k) s = (Raised reason, s).
Proof. reflexivity. Qed.

End SteppingState.

Ltac step :=
  first
    [ rewrite run_get_graph
    | rewrite run_get_device
    | rewrite run_update_graph
    | rewrite run_put_device
    | rewrite run_expects_true
    | rewrite run_expects_false
    | rewrite run_deref_some
    | rewrite run_deref_none
    | rewrite run_ret ];
  cbn [graph device].

Ltac steps := repeat step.

(** A returned value met by the match of an enclosing bind. *)
Ltac simpl_ret :=
  repeat match goal with
         | |- context [@mret M M_ret ?A ?a ?s] =>
             change (@mret M M_ret A a s) with (@Done A a, s)
         end;
  cbn iota beta.

Lemma gdf_add_edge_list_present (s : state) (el : gdf_edge_list) :
  edgeList (graph s) = Some el ->
  gdf_add_edge_list s = (Done GDF_SUCCESS, s).
Proof.
  intros Hel. unfold gdf_add_edge_list. steps. rewrite Hel. reflexivity.
Qed.

Lemma gdf_add_edge_list_no_source (s : state) :
  edgeList (graph s) = None ->
  adjList (graph s) = None ->
  gdf_add_edge_list s = (Raised "Invalid API parameter", s).
Proof.
  intros Hel Hadj. unfold gdf_add_edge_list. steps. rewrite Hel, Hadj.
  reflexivity.
Qed.

Lemma gdf_add_edge_list_derive (s : state) (adj : gdf_adj_list) :
  edgeList (graph s) = None ->
  adjList (graph s) = Some adj ->
  gdf_add_edge_list s =
  (if snd (expansion s adj) then Done GDF_SUCCESS else Overrun,
   after_add_edge_list s adj).
Proof.
  intros Hel Hadj. unfold gdf_add_edge_list. steps. rewrite Hel, Hadj.
  cbn [is_nullptr negb]. steps.
  unfold after_add_edge_list, expansion, allocate.
  destruct (offsets_to_indices
              (load (device s ++ [replicate (Z.to_nat (size (indices adj))) 0])
                 (data (offsets adj)))
              (size (offsets adj) - 1)
              (load (device s ++ [replicate (Z.to_nat (size (indices adj))) 0])
                 (S (length (device s)))))
    as [expanded inside].
  steps. unfold kernel_ran. destruct inside; reflexivity.
Qed.

(** ** The view operations, case by case *)

Lemma bool_decide_dtype (a b : gdf_dtype) :
  bool_decide (a = b) = true <-> a = b.
Proof. apply bool_decide_eq_true. Qed.

Section Views.

Variable K : kernels.

(** A view on a populated handle raises before it touches anything. *)
Lemma gdf_adj_list_view_populated (o i : gdf_column) (ed : option gdf_column)
    (s : state) :
  populated (graph s) ->
  gdf_adj_list_view K o i ed s = (Raised "Invalid API parameter", s).
Proof.
  intros Hp. unfold gdf_adj_list_view. steps.
  assert (is_nullptr (edgeList (graph s)) && is_nullptr (adjList (graph s))
          && is_nullptr (transposedAdjList (graph s)) = false) as ->.
  { destruct Hp as [H | [H | H]]; apply is_nullptr_false in H; rewrite H;
      rewrite ?andb_false_r; reflexivity. }
  reflexivity.
Qed.

Lemma gdf_edge_list_view_populated (src dst : gdf_column)
    (ed : option gdf_column) (s : state) :
  populated (graph s) ->
  gdf_edge_list_view K src dst ed s = (Raised "Invalid API parameter", s).
Proof.
  intros Hp. unfold gdf_edge_list_view. steps.
  assert (is_nullptr (edgeList (graph s)) && is_nullptr (adjList (graph s))
          && is_nullptr (transposedAdjList (graph s)) = false) as ->.
  { destruct Hp as [H | [H | H]]; apply is_nullptr_false in H; rewrite H;
      rewrite ?andb_false_r; reflexivity. }
  reflexivity.
Qed.

(** A view whose handle or index columns fail a check raises before it
    touches anything. *)
Lemma gdf_adj_list_view_rejected (o i : gdf_column) (ed : option gdf_column)
    (s : state) :
  ~ (empty_handle (graph s) /\ adjacency_columns_ok o i) ->
  exists reason, gdf_adj_list_view K o i ed s = (Raised reason, s).
Proof.
  intros Hno. unfold gdf_adj_list_view. steps.
  destruct (is_nullptr (edgeList (graph s))) eqn:E1;
    [| eexists; reflexivity].
  destruct (is_nullptr (adjList (graph s))) eqn:E2;
    [| eexists; reflexivity].
  destruct (is_nullptr (transposedAdjList (graph s))) eqn:E3;
    [| eexists; reflexivity].
  cbn [andb]. steps.
  destruct (null_count o =? 0) eqn:E4; [| eexists; reflexivity]. steps.
  destruct (null_count i =? 0) eqn:E5; [| eexists; reflexivity]. steps.
  destruct (bool_decide (dtype o = dtype i)) eqn:E6;
    [| eexists; reflexivity]. steps.
  destruct (bool_decide (dtype o = GDF_INT32)) eqn:E7;
    [| eexists; reflexivity]. steps.
  destruct (0 <? size o) eqn:E8; [| eexists; reflexivity].
  exfalso. apply Hno.
  apply is_nullptr_true in E1, E2, E3.
  apply bool_decide_dtype in E6, E7.
  unfold empty_handle, adjacency_columns_ok. repeat split; try assumption;
    try lia; congruence.
Qed.

Lemma gdf_edge_list_view_rejected (src dst : gdf_column)
    (ed : option gdf_column) (s : state) :
  ~ (empty_handle (graph s) /\ edge_columns_ok src dst) ->
  exists reason, gdf_edge_list_view K src dst ed s = (Raised reason, s).
Proof.
  intros Hno. unfold gdf_edge_list_view. steps.
  destruct (is_nullptr (edgeList (graph s))) eqn:E1;
    [| eexists; reflexivity].
  destruct (is_nullptr (adjList (graph s))) eqn:E2;
    [| eexists; reflexivity].
  destruct (is_nullptr (transposedAdjList (graph s))) eqn:E3;
    [| eexists; reflexivity].
  cbn [andb]. steps.
  destruct (size src =? size dst) eqn:E4; [| eexists; reflexivity]. steps.
  destruct (bool_decide (dtype src = dtype dst)) eqn:E5;
    [| eexists; reflexivity]. steps.
  destruct (bool_decide (dtype src = GDF_INT32)) eqn:E6;
    [| eexists; reflexivity]. steps.
  destruct (0 <? size src) eqn:E7; [| eexists; reflexivity]. steps.
  destruct (null_count src =? 0) eqn:E8; [| eexists; reflexivity]. steps.
  destruct (null_count dst =? 0) eqn:E9; [| eexists; reflexivity].
  exfalso. apply Hno.
  apply is_nullptr_true in E1, E2, E3.
  apply bool_decide_dtype in E5, E6.
  unfold empty_handle, edge_columns_ok. repeat split; try assumption;
    try lia; congruence.
Qed.

Lemma ensure_prop_run {B : Type} (k : unit -> M B) (s : state) :
  (ensure_prop ≫= k) s =
  k tt {| graph :=
            set_prop (Some (default new_gdf_graph_properties (prop (graph s))))
              (graph s);
          device := device s |}.
Proof.
  unfold ensure_prop. rewrite run_bind. steps.
  destruct s as [g m]. destruct g as [el al tl [p|] n]; reflexivity.
Qed.

Lemma adjacency_checks_pass (o i : gdf_column) (g : gdf_graph) :
  empty_handle g -> adjacency_columns_ok o i ->
  is_nullptr (edgeList g) && is_nullptr (adjList g)
    && is_nullptr (transposedAdjList g) = true
  /\ (null_count o =? 0) = true /\ (null_count i =? 0) = true
  /\ bool_decide (dtype o = dtype i) = true
  /\ bool_decide (dtype o = GDF_INT32) = true
  /\ (0 <? size o) = true.
Proof.
  intros (E1 & E2 & E3) (H1 & H2 & H3 & H4 & H5).
  rewrite E1, E2, E3, H1, H2, H3, H4. repeat split; try reflexivity.
  lia.
Qed.

Lemma edge_checks_pass (src dst : gdf_column) (g : gdf_graph) :
  empty_handle g -> edge_columns_ok src dst ->
  is_nullptr (edgeList g) && is_nullptr (adjList g)
    && is_nullptr (transposedAdjList g) = true
  /\ (size src =? size dst) = true
  /\ bool_decide (dtype src = dtype dst) = true
  /\ bool_decide (dtype src = GDF_INT32) = true
  /\ (0 <? size src) = true
  /\ (null_count src =? 0) = true /\ (null_count dst =? 0) = true.
Proof.
  intros (E1 & E2 & E3) (H1 & H2 & H3 & H4 & H5 & H6).
  rewrite E1, E2, E3, H1, H2, H3, H5, H6. repeat split; try reflexivity; lia.
Qed.

(** What an adjacency-list view does once the handle and the index columns
    passed the checks. *)
Lemma gdf_adj_list_view_accepted (o i : gdf_column) (ed : option gdf_column)
    (s : state) :
  empty_handle (graph s) -> adjacency_columns_ok o i ->
  gdf_adj_list_view K o i ed s =
  match ed with
  | None => (Done GDF_SUCCESS, adj_view_state s o i None GDF_PROP_FALSE)
  | Some w =>
      if size i =? size w
      then (Done GDF_SUCCESS,
            adj_view_state s o i (Some (cpy_column_view w))
              (flag_of (has_neg_val_of K (device s) (cpy_column_view w))))
      else (Raised "Column size mismatch", adj_view_interrupted s o i)
  end.
Proof.
  intros He Hc.
  destruct (adjacency_checks_pass o i (graph s) He Hc)
    as (C1 & C2 & C3 & C4 & C5 & C6).
  unfold gdf_adj_list_view. steps.
  rewrite C1, C2, C3, C4, C5, C6. steps.
  rewrite ensure_prop_run.
  destruct ed as [w|].
  - rewrite run_bind. steps.
    destruct (size i =? size w); steps; [| reflexivity].
    unfold scan_negative, assign_has_negative_edges.
    rewrite !run_bind. steps. cbn. reflexivity.
  - rewrite run_bind. steps. unfold assign_has_negative_edges.
    rewrite !run_bind. steps. cbn. reflexivity.
Qed.

(** What an edge-list view does once the handle and the index columns
    passed the checks: it installs, and answers with the indexing check. *)
Lemma gdf_edge_list_view_accepted (src dst : gdf_column)
    (ed : option gdf_column) (s : state) :
  empty_handle (graph s) -> edge_columns_ok src dst ->
  gdf_edge_list_view K src dst ed s =
  match ed with
  | None =>
      (Done (indexing_check K (device s) (data src) (data dst) (size dst)),
       edge_view_state s src dst None GDF_PROP_FALSE)
  | Some w =>
      if size src =? size w
      then (Done (indexing_check K (device s) (data src) (data dst) (size dst)),
            edge_view_state s src dst (Some (cpy_column_view w))
              (flag_of (has_neg_val_of K (device s) (cpy_column_view w))))
      else (Raised "Column size mismatch", edge_view_interrupted s src dst)
  end.
Proof.
  intros He Hc.
  destruct (edge_checks_pass src dst (graph s) He Hc)
    as (C1 & C2 & C3 & C4 & C5 & C6 & C7).
  unfold gdf_edge_list_view. steps.
  rewrite C1, C2, C3, C4, C5, C6, C7. steps.
  rewrite ensure_prop_run.
  destruct ed as [w|].
  - rewrite run_bind. steps.
    destruct (size src =? size w); steps; [| reflexivity].
    unfold scan_negative, assign_has_negative_edges.
    rewrite !run_bind. steps. cbn. reflexivity.
  - rewrite run_bind. steps. unfold assign_has_negative_edges.
    rewrite !run_bind. steps. cbn. reflexivity.
Qed.

End Views.

(** ** The add operations, case by case *)

Section Adds.

Variable K : kernels.

Lemma gdf_add_adj_list_impl_converts (WT : ctype) (s : state)
    (el : gdf_edge_list) :
  adjList (graph s) = None ->
  edgeList (graph s) = Some el ->
  gdf_add_adj_list_impl K WT s =
  conversion_outcome set_adjList (graph s)
    (convert K WT (device s) (data (src_indices el)) (data (dest_indices el))
       (edge_data el) (size (src_indices el)) (dtype (src_indices el))).
Proof.
  intros Hadj Hel. unfold gdf_add_adj_list_impl, convert, conversion_outcome.
  steps. rewrite Hadj, Hel. cbn [is_nullptr negb]. steps. rewrite run_bind.
  destruct (edge_data el) as [w|].
  - destruct (ConvertCOOtoCSR_weighted K WT (device s) (data (src_indices el))
                (data (dest_indices el)) (data w) (size (src_indices el)))
      as [[status r] m'].
    steps. simpl_ret. destruct (status =? 0); cbn [negb]; steps; reflexivity.
  - destruct (ConvertCOOtoCSR K (device s) (data (src_indices el))
                (data (dest_indices el)) (size (src_indices el)))
      as [[status r] m'].
    steps. simpl_ret. destruct (status =? 0); cbn [negb]; steps; reflexivity.
Qed.

Lemma gdf_add_transposed_adj_list_impl_converts (WT : ctype) (s : state)
    (el : gdf_edge_list) :
  transposedAdjList (graph s) = None ->
  edgeList (graph s) = Some el ->
  gdf_add_transposed_adj_list_impl K WT s =
  conversion_outcome set_transposedAdjList (graph s)
    (convert K WT (device s) (data (dest_indices el)) (data (src_indices el))
       (edge_data el) (size (src_indices el)) (dtype (src_indices el))).
Proof.
  intros Hadj Hel.
  unfold gdf_add_transposed_adj_list_impl, convert, conversion_outcome.
  steps. rewrite Hadj, Hel. cbn [is_nullptr negb]. steps. rewrite run_bind.
  destruct (edge_data el) as [w|].
  - destruct (ConvertCOOtoCSR_weighted K WT (device s) (data (dest_indices el))
                (data (src_indices el)) (data w) (size (src_indices el)))
      as [[status r] m'].
    steps. simpl_ret. destruct (status =? 0); cbn [negb]; steps; reflexivity.
  - destruct (ConvertCOOtoCSR K (device s) (data (dest_indices el))
                (data (src_indices el)) (size (src_indices el)))
      as [[status r] m'].
    steps. simpl_ret. destruct (status =? 0); cbn [negb]; steps; reflexivity.
Qed.

Lemma gdf_add_transposed_adj_list_impl_present (WT : ctype) (s : state) :
  transposedAdjList (graph s) <> None ->
  gdf_add_transposed_adj_list_impl K WT s = (Done GDF_SUCCESS, s).
Proof.
  intros H. apply is_nullptr_false in H.
  unfold gdf_add_transposed_adj_list_impl. steps. rewrite H. reflexivity.
Qed.

Lemma gdf_add_adj_list_present (s : state) :
  adjList (graph s) <> None ->
  gdf_add_adj_list K s = (Done GDF_SUCCESS, s).
Proof.
  intros H. apply is_nullptr_false in H.
  unfold gdf_add_adj_list. steps. rewrite H. reflexivity.
Qed.

Lemma gdf_add_adj_list_no_source (s : state) :
  adjList (graph s) = None ->
  edgeList (graph s) = None ->
  gdf_add_adj_list K s = (Raised "Invalid API parameter", s).
Proof.
  intros Hadj Hel. unfold gdf_add_adj_list. steps. rewrite Hadj, Hel.
  reflexivity.
Qed.

(** The forward derivation on a handle with an Edge List and no Adjacency
    List: the index type is checked, then the weight kind picks the
    instantiation. *)
Lemma gdf_add_adj_list_with_edges (s : state) (el : gdf_edge_list) :
  adjList (graph s) = None ->
  edgeList (graph s) = Some el ->
  gdf_add_adj_list K s =
  if bool_decide (dtype (src_indices el) = GDF_INT32) then
    match edge_data el with
    | Some w =>
        match weight_ctype (dtype w) with
        | Some WT => gdf_add_adj_list_impl K WT s
        | None => (Done GDF_UNSUPPORTED_DTYPE, s)
        end
    | None => gdf_add_adj_list_impl K float s
    end
  else (Raised "Unsupported data type", s).
Proof.
  intros Hadj Hel. unfold gdf_add_adj_list. steps. rewrite Hadj, Hel.
  cbn [is_nullptr negb]. steps.
  destruct (bool_decide (dtype (src_indices el) = GDF_INT32)); steps;
    [| reflexivity].
  destruct (edge_data el) as [w|]; [| reflexivity].
  destruct (dtype w); reflexivity.
Qed.

(** The transposed derivation on a handle with an Edge List. *)
Lemma gdf_add_transposed_adj_list_with_edges (s : state) (el : gdf_edge_list) :
  edgeList (graph s) = Some el ->
  gdf_add_transposed_adj_list K s =
  if bool_decide (dtype (src_indices el) = GDF_INT32) then
    if bool_decide (dtype (dest_indices el) = GDF_INT32) then
      match edge_data el with
      | Some w =>
          match weight_ctype (dtype w) with
          | Some WT => gdf_add_transposed_adj_list_impl K WT s
          | None => (Done GDF_UNSUPPORTED_DTYPE, s)
          end
      | None => gdf_add_transposed_adj_list_impl K float s
      end
    else (Raised "Unsupported data type", s)
  else (Raised "Unsupported data type", s).
Proof.
  intros Hel. unfold gdf_add_transposed_adj_list. steps. rewrite Hel.
  cbn [is_nullptr]. rewrite run_ret. steps. rewrite Hel. steps.
  destruct (bool_decide (dtype (src_indices el) = GDF_INT32)); steps;
    [| reflexivity].
  destruct (bool_decide (dtype (dest_indices el) = GDF_INT32)); steps;
    [| reflexivity].
  destruct (edge_data el) as [w|]; [| reflexivity].
  destruct (dtype w); reflexivity.
Qed.

(** The transposed derivation on a handle without an Edge List first derives
    one, and goes on from the state that leaves, unless the expansion ran
    outside its buffers. *)
Lemma gdf_add_transposed_adj_list_derives (s : state) (adj : gdf_adj_list) :
  edgeList (graph s) = None ->
  adjList (graph s) = Some adj ->
  gdf_add_transposed_adj_list K s =
  if snd (expansion s adj)
  then gdf_add_transposed_adj_list K (after_add_edge_list s adj)
  else (Overrun, after_add_edge_list s adj).
Proof.
  intros Hel Hadj.
  rewrite (gdf_add_transposed_adj_list_with_edges (after_add_edge_list s adj)
             (derived_edge_list (S (length (device s))) adj))
    by reflexivity.
  unfold gdf_add_transposed_adj_list. steps. rewrite Hel.
  cbn [is_nullptr]. rewrite !run_bind.
  rewrite (gdf_add_edge_list_derive s adj Hel Hadj).
  destruct (snd (expansion s adj)); [| reflexivity].
  steps. simpl_ret.
  steps.
  set (s1 := after_add_edge_list s adj).
  change (edgeList (graph s1))
    with (Some (derived_edge_list (S (length (device s))) adj)).
  steps.
  set (el := derived_edge_list (S (length (device s))) adj).
  destruct (bool_decide (dtype (src_indices el) = GDF_INT32)); steps;
    [| reflexivity].
  destruct (bool_decide (dtype (dest_indices el) = GDF_INT32)); steps;
    [| reflexivity].
  destruct (edge_data el) as [w|]; [| reflexivity].
  destruct (dtype w); reflexivity.
Qed.

Lemma gdf_add_transposed_adj_list_no_source (s : state) :
  edgeList (graph s) = None ->
  adjList (graph s) = None ->
  gdf_add_transposed_adj_list K s = (Raised "Invalid API parameter", s).
Proof.
  intros Hel Hadj.
  unfold gdf_add_transposed_adj_list. steps. rewrite Hel. cbn [is_nullptr].
  rewrite !run_bind, gdf_add_edge_list_no_source by assumption.
  reflexivity.
Qed.

End Adds.

(** ** The vertex count, case by case *)

Lemma gdf_number_of_vertices_cached (s : state) :
  numberOfVertices (graph s) <> 0 ->
  gdf_number_of_vertices s = (Done GDF_SUCCESS, s).
Proof.
  intros H. unfold gdf_number_of_vertices. steps.
  destruct (Z.eqb_spec (numberOfVertices (graph s)) 0); [contradiction |].
  reflexivity.
Qed.

Lemma gdf_number_of_vertices_no_edges (s : state) :
  numberOfVertices (graph s) = 0 ->
  edgeList (graph s) = None ->
  gdf_number_of_vertices s = (Raised "Invalid API parameter", s).
Proof.
  intros H Hel. unfold gdf_number_of_vertices. steps. rewrite H, Hel.
  reflexivity.
Qed.

Lemma gdf_number_of_vertices_computes (s : state) (el : gdf_edge_list) :
  numberOfVertices (graph s) = 0 ->
  edgeList (graph s) = Some el ->
  gdf_number_of_vertices s =
  if bool_decide (dtype (src_indices el) = GDF_INT32)
  then (Done GDF_SUCCESS,
        {| graph :=
             set_numberOfVertices
               (wrap_int32
                  (1 + Z.max
                         (DeviceReduce_Max (device s) (data (src_indices el))
                            (size (src_indices el)))
                         (DeviceReduce_Max (device s) (data (dest_indices el))
                            (size (src_indices el)))))
               (graph s);
           device := device s |})
  else (Raised "Unsupported data type", s).
Proof.
  intros H Hel. unfold gdf_number_of_vertices. steps. rewrite H, Hel.
  cbn [Z.eqb negb is_nullptr]. steps.
  destruct (bool_decide (dtype (src_indices el) = GDF_INT32)); steps;
    reflexivity.
Qed.

(** A maximum reduction that starts from the lowest value finds the greatest
    element of a non-empty array of 32-bit values. *)
Lemma foldl_max_bounds (l : list Z) (a : Z) :
  a <= foldl Z.max a l /\ Forall (fun y => y <= foldl Z.max a l) l
  /\ (foldl Z.max a l = a \/ foldl Z.max a l ∈ l).
Proof.
  revert a. induction l as [| x l IH]; intros a; cbn [foldl].
  - split; [lia |]. split; [constructor | left; reflexivity].
  - destruct (IH (Z.max a x)) as (Hge & Hall & Hin).
    split; [lia |]. split.
    + constructor; [lia | exact Hall].
    + destruct Hin as [Heq | Hin].
      * destruct (Z.max_spec a x) as [[_ Hm] | [_ Hm]].
        -- right. rewrite Heq, Hm. apply list_elem_of_here.
        -- left. rewrite Heq, Hm. reflexivity.
      * right. apply list_elem_of_further, Hin.
Qed.

Lemma reduce_max_is_maximum (l : list Z) :
  l <> [] -> Forall vertex_id l ->
  is_maximum (foldl Z.max INT32_MIN l) l.
Proof.
  intros Hne Hids.
  destruct (foldl_max_bounds l INT32_MIN) as (Hge & Hall & [Heq | Hin]).
  - split; [| exact Hall]. destruct l as [| x l]; [contradiction |].
    inversion Hids as [| ? ? Hx _]; subst.
    inversion Hall as [| ? ? Hle _]; subst.
    unfold vertex_id in Hx.
    assert (x = foldl Z.max INT32_MIN (x :: l)) as Hx' by lia.
    rewrite <- Hx'. apply list_elem_of_here.
  - split; assumption.
Qed.

Lemma DeviceReduce_Max_full (m : device_memory) (p : addr) (n : Z) :
  Z.of_nat (length (load m p)) = n -> 0 < n ->
  Forall vertex_id (load m p) ->
  is_maximum (DeviceReduce_Max m p n) (load m p).
Proof.
  intros Hlen Hpos Hids. unfold DeviceReduce_Max, load_n.
  rewrite firstn_all2 by lia.
  apply reduce_max_is_maximum; [| exact Hids].
  destruct (load m p); [cbn in Hlen; lia | discriminate].
Qed.

Lemma is_maximum_vertex_id (x : Z) (l : list Z) :
  is_maximum x l -> Forall vertex_id l -> vertex_id x.
Proof.
  intros [Hin _] Hall. rewrite Forall_forall in Hall.
  apply Hall, list_elem_of_In, Hin.
Qed.

Lemma wrap_int32_succ (x : Z) :
  vertex_id x -> wrap_int32 (1 + x) = 1 + x.
Proof.
  unfold vertex_id, wrap_int32, INT32_MIN, INT32_MAX. intros H.
  rewrite Z.mod_small by lia. lia.
Qed.

(** * Specification statements *)

(** ** Deriving without a source *)

(** C5.  Deriving the transposed adjacency list on a handle with neither an
    Edge List nor an Adjacency List ends with the failure InvalidState, raised
    by the edge-list derivation it starts with; the handle and the device
    memory are left as they were, so no conversion is entered. *)
Theorem add_transposed_without_source (K : kernels) (s : state) :
  edgeList (graph s) = None ->
  adjList (graph s) = None ->
  InvalidState (fst (gdf_add_transposed_adj_list K s))
  /\ snd (gdf_add_transposed_adj_list K s) = s.
Proof.
  intros Hel Hadj.
  rewrite gdf_add_transposed_adj_list_no_source by assumption.
  split; reflexivity.
Qed.

Lemma add_transposed_without_source_witness :
  InvalidState (fst (gdf_add_transposed_adj_list reference_kernels (fresh [])))
  /\ snd (gdf_add_transposed_adj_list reference_kernels (fresh [])) = fresh [].
Proof.
  apply (add_transposed_without_source reference_kernels (fresh []));
    reflexivity.
Defined.

(** ** The vertex count *)


Ltac vertex_ids :=
  repeat first
    [ apply List.Forall_nil
    | apply List.Forall_cons;
      [unfold vertex_id, INT32_MIN, INT32_MAX; lia |] ].


(** ** Views *)

(** C9.  On an empty handle, an adjacency-list view whose columns have no
    nulls, are both int32, with a non-empty offsets column and weights (when
    given) as many as the indices, succeeds whatever the device memory holds:
    the contents of the buffers are never inspected for structure.  It
    installs the views of the given columns and leaves the memory alone. *)
Theorem adj_list_view_unconditional (K : kernels) (s : state)
    (in_offsets in_indices : gdf_column) (in_edge_data : option gdf_column) :
  empty_handle (graph s) ->
  adjacency_columns_ok in_offsets in_indices ->
  weights_fit (size in_indices) in_edge_data ->
  succeeded (fst (gdf_adj_list_view K in_offsets in_indices in_edge_data s))
  /\ adjList
       (graph (snd (gdf_adj_list_view K in_offsets in_indices in_edge_data s)))
     = Some {| offsets := cpy_column_view in_offsets;
               indices := cpy_column_view in_indices;
               adj_edge_data := cpy_column_view <$> in_edge_data |}
  /\ device (snd (gdf_adj_list_view K in_offsets in_indices in_edge_data s))
     = device s.
Proof.
  intros He Hc Hw.
  rewrite (gdf_adj_list_view_accepted K _ _ _ s He Hc).
  destruct in_edge_data as [w|]; [| repeat split].
  rewrite (Hw w eq_refl), Z.eqb_refl. repeat split.
Qed.

(** Offsets that go down and indices that name no vertex are taken as they
    are. *)
Lemma adj_list_view_unconditional_witness :
  let s := fresh [[0; 5; 1]; [7; -3]] in
  let in_offsets := column 1%nat 3 GDF_INT32 in
  let in_indices := column 2%nat 2 GDF_INT32 in
  empty_handle (graph s)
  /\ adjacency_columns_ok in_offsets in_indices
  /\ weights_fit (size in_indices) None
  /\ succeeded (fst (gdf_adj_list_view reference_kernels in_offsets in_indices None s))
  /\ adjList
       (graph (snd (gdf_adj_list_view reference_kernels in_offsets in_indices None s)))
     = Some {| offsets := cpy_column_view in_offsets;
               indices := cpy_column_view in_indices;
               adj_edge_data := None |}
  /\ device (snd (gdf_adj_list_view reference_kernels in_offsets in_indices None s))
     = device s.
Proof.
  intros s in_offsets in_indices.
  assert (empty_handle (graph s)) as He by (repeat split).
  assert (adjacency_columns_ok in_offsets in_indices) as Hc
    by (unfold adjacency_columns_ok; cbn; repeat split; lia).
  assert (weights_fit (size in_indices) None) as Hw
    by (intros w Hw; discriminate Hw).
  split; [exact He |]. split; [exact Hc |]. split; [exact Hw |].
  exact (adj_list_view_unconditional reference_kernels s in_offsets in_indices
           None He Hc Hw).
Defined.

(** C10.  Zero is the mark of a count not yet computed.  With a zero count
    and no Edge List the vertex count fails with InvalidState whatever else
    the handle holds, and leaves it as it was; this is where a handle stands
    after an adjacency-list view with a one-element offsets column, whose
    Adjacency List is in place and whose count is a true zero.  With a zero
    count and an int32 Edge List the count is computed from the arrays anew,
    never handed back as cached. *)
Theorem zero_count_is_not_cached (K : kernels) :
  (forall s,
     numberOfVertices (graph s) = 0 -> edgeList (graph s) = None ->
     InvalidState (fst (gdf_number_of_vertices s))
     /\ snd (gdf_number_of_vertices s) = s)
  /\ (forall m in_offsets in_indices,
        adjacency_columns_ok in_offsets in_indices ->
        size in_offsets = 1 ->
        exists s1,
          gdf_adj_list_view K in_offsets in_indices None (fresh m)
          = (Done GDF_SUCCESS, s1)
          /\ adjList (graph s1) <> None
          /\ numberOfVertices (graph s1) = 0
          /\ InvalidState (fst (gdf_number_of_vertices s1))
          /\ snd (gdf_number_of_vertices s1) = s1)
  /\ (forall s el,
        numberOfVertices (graph s) = 0 -> edgeList (graph s) = Some el ->
        dtype (src_indices el) = GDF_INT32 ->
        succeeded (fst (gdf_number_of_vertices s))
        /\ numberOfVertices (graph (snd (gdf_number_of_vertices s)))
           = wrap_int32
               (1 + Z.max
                      (DeviceReduce_Max (device s) (data (src_indices el))
                         (size (src_indices el)))
                      (DeviceReduce_Max (device s) (data (dest_indices el))
                         (size (src_indices el))))).
Proof.
  split.
  { intros s H0 Hel. rewrite gdf_number_of_vertices_no_edges by assumption.
    split; reflexivity. }
  split.
  { intros m o i Hc Hsz.
    rewrite (gdf_adj_list_view_accepted K o i None (fresh m))
      by first [exact Hc | repeat split].
    eexists. split; [reflexivity |]. split; [discriminate |].
    assert (numberOfVertices
              (graph (adj_view_state (fresh m) o i None GDF_PROP_FALSE)) = 0)
      as Hn by (cbn; lia).
    split; [exact Hn |].
    rewrite gdf_number_of_vertices_no_edges by (exact Hn || reflexivity).
    split; reflexivity. }
  intros s el H0 Hel Hty.
  rewrite (gdf_number_of_vertices_computes s el H0 Hel).
  rewrite bool_decide_eq_true_2 by assumption.
  split; reflexivity.
Qed.

Lemma zero_count_is_not_cached_witness :
  let in_offsets := column 1%nat 1 GDF_INT32 in
  let in_indices := column 2%nat 0 GDF_INT32 in
  adjacency_columns_ok in_offsets in_indices
  /\ size in_offsets = 1
  /\ exists s1,
       gdf_adj_list_view reference_kernels in_offsets in_indices None
         (fresh [[0]; []])
       = (Done GDF_SUCCESS, s1)
       /\ adjList (graph s1) <> None
       /\ numberOfVertices (graph s1) = 0
       /\ InvalidState (fst (gdf_number_of_vertices s1))
       /\ snd (gdf_number_of_vertices s1) = s1.
Proof.
  intros in_offsets in_indices.
  assert (adjacency_columns_ok in_offsets in_indices) as Hc
    by (unfold adjacency_columns_ok; cbn; repeat split; lia).
  split; [exact Hc |]. split; [reflexivity |].
  destruct (zero_count_is_not_cached reference_kernels) as (_ & H & _).
  exact (H [[0]; []] in_offsets in_indices Hc eq_refl).
Defined.



(** An unknown weight kind never reaches a kernel. *)
Lemma has_neg_val_of_unknown_kind (K : kernels) (m : device_memory)
    (w : gdf_column) :
  supported_weight_kind (dtype w) = false ->
  has_neg_val_of K m (cpy_column_view w) = false.
Proof.
  unfold has_neg_val_of. cbn [cpy_column_view gdf_column_view dtype].
  destruct (dtype w); cbn; congruence.
Qed.

(** C3, as the code has it.  Weights of a kind outside the six are not a
    reason for a view to fail: once the handle and the columns pass the
    checks, the adjacency-list view succeeds and the edge-list view answers
    with the indexing check; the weights are installed and
    [has_negative_edges] is recorded as false without a scan. *)
Theorem unknown_weight_kind_taken_as_non_negative (K : kernels) (s : state)
    (first second w : gdf_column) :
  supported_weight_kind (dtype w) = false ->
  empty_handle (graph s) ->
  (adjacency_columns_ok first second -> size w = size second ->
   gdf_adj_list_view K first second (Some w) s
   = (Done GDF_SUCCESS,
      adj_view_state s first second (Some (cpy_column_view w)) GDF_PROP_FALSE))
  /\ (edge_columns_ok first second -> size w = size first ->
      gdf_edge_list_view K first second (Some w) s
      = (Done (indexing_check K (device s) (data first) (data second)
                 (size second)),
         edge_view_state s first second (Some (cpy_column_view w))
           GDF_PROP_FALSE)).
Proof.
  intros Hk He. split; intros Hc Hsz.
  - rewrite (gdf_adj_list_view_accepted K _ _ _ s He Hc).
    rewrite Hsz, Z.eqb_refl, has_neg_val_of_unknown_kind by assumption.
    reflexivity.
  - rewrite (gdf_edge_list_view_accepted K _ _ _ s He Hc).
    rewrite Hsz, Z.eqb_refl, has_neg_val_of_unknown_kind by assumption.
    reflexivity.
Qed.

(** A date column as weights, its one cell negative: the view succeeds and
    records that no edge is negative. *)
Lemma unknown_weight_kind_taken_as_non_negative_witness :
  let s := fresh [[0; 1]; [0]; [-5]] in
  let in_offsets := column 1%nat 2 GDF_INT32 in
  let in_indices := column 2%nat 1 GDF_INT32 in
  let w := column 3%nat 1 GDF_DATE32 in
  supported_weight_kind (dtype w) = false
  /\ empty_handle (graph s)
  /\ adjacency_columns_ok in_offsets in_indices
  /\ size w = size in_indices
  /\ gdf_adj_list_view reference_kernels in_offsets in_indices (Some w) s
     = (Done GDF_SUCCESS,
        adj_view_state s in_offsets in_indices (Some (cpy_column_view w))
          GDF_PROP_FALSE).
Proof.
  intros s in_offsets in_indices w.
  assert (empty_handle (graph s)) as He by (repeat split).
  assert (adjacency_columns_ok in_offsets in_indices) as Hc
    by (unfold adjacency_columns_ok; cbn; repeat split; lia).
  split; [reflexivity |]. split; [exact He |]. split; [exact Hc |].
  split; [reflexivity |].
  destruct (unknown_weight_kind_taken_as_non_negative reference_kernels s
              in_offsets in_indices w eq_refl He) as [H _].
  exact (H Hc eq_refl).
Defined.

(** C3 as stated does not hold: weights of a kind outside the six, one of
    them negative, go through an adjacency-list view that succeeds, does not
    fail with UnsupportedType, and records that no edge is negative. *)
Lemma unknown_weight_kind_is_not_rejected :
  let s := fresh [[0; 1]; [0]; [-5]] in
  let run :=
    gdf_adj_list_view reference_kernels (column 1%nat 2 GDF_INT32)
      (column 2%nat 1 GDF_INT32) (Some (column 3%nat 1 GDF_DATE32)) s in
  supported_weight_kind GDF_DATE32 = false
  /\ succeeded (fst run)
  /\ ~ UnsupportedType (fst run)
  /\ negative_edges (graph (snd run)) = GDF_PROP_FALSE.
Proof.
  intros s run. split; [reflexivity |]. split; [reflexivity |].
  split; [| reflexivity].
  intros [H | H]; vm_compute in H; discriminate H.
Qed.

(** ** Failure and the state of the handle *)

(** A forward derivation that fails otherwise than in the converter leaves
    the state alone. *)
Lemma gdf_add_adj_list_early_failure (K : kernels) (s : state) :
  failed (fst (gdf_add_adj_list K s)) ->
  fst (gdf_add_adj_list K s) <> Done GDF_CUDA_ERROR ->
  snd (gdf_add_adj_list K s) = s.
Proof.
  intros Hf Hc.
  destruct (adjList (graph s)) as [adj|] eqn:Hadj.
  { rewrite gdf_add_adj_list_present by congruence. reflexivity. }
  destruct (edgeList (graph s)) as [el|] eqn:Hel.
  2: { rewrite gdf_add_adj_list_no_source by assumption. reflexivity. }
  rewrite (gdf_add_adj_list_with_edges K s el Hadj Hel) in *.
  destruct (bool_decide (dtype (src_indices el) = GDF_INT32));
    [| reflexivity].
  assert (forall WT,
            failed (fst (gdf_add_adj_list_impl K WT s)) ->
            fst (gdf_add_adj_list_impl K WT s) <> Done GDF_CUDA_ERROR ->
            snd (gdf_add_adj_list_impl K WT s) = s) as Himpl.
  { intros WT. rewrite (gdf_add_adj_list_impl_converts K WT s el Hadj Hel).
    unfold conversion_outcome.
    destruct (convert K WT (device s) (data (src_indices el))
                (data (dest_indices el)) (edge_data el)
                (size (src_indices el)) (dtype (src_indices el)))
      as [[status adj] m'].
    destruct (status =? 0); cbn [fst snd]; unfold failed; congruence. }
  destruct (edge_data el) as [w|]; [| apply Himpl; assumption].
  destruct (weight_ctype (dtype w)); [apply Himpl; assumption | reflexivity].
Qed.

(** So does a transposed derivation on a handle that has an Edge List. *)
Lemma gdf_add_transposed_adj_list_early_failure (K : kernels) (s : state)
    (el : gdf_edge_list) :
  edgeList (graph s) = Some el ->
  failed (fst (gdf_add_transposed_adj_list K s)) ->
  fst (gdf_add_transposed_adj_list K s) <> Done GDF_CUDA_ERROR ->
  snd (gdf_add_transposed_adj_list K s) = s.
Proof.
  intros Hel Hf Hc.
  rewrite (gdf_add_transposed_adj_list_with_edges K s el Hel) in *.
  destruct (bool_decide (dtype (src_indices el) = GDF_INT32));
    [| reflexivity].
  destruct (bool_decide (dtype (dest_indices el) = GDF_INT32));
    [| reflexivity].
  assert (forall WT,
            failed (fst (gdf_add_transposed_adj_list_impl K WT s)) ->
            fst (gdf_add_transposed_adj_list_impl K WT s) <> Done GDF_CUDA_ERROR ->
            snd (gdf_add_transposed_adj_list_impl K WT s) = s) as Himpl.
  { intros WT.
    destruct (transposedAdjList (graph s)) as [t|] eqn:Ht.
    { rewrite gdf_add_transposed_adj_list_impl_present by congruence.
      reflexivity. }
    rewrite (gdf_add_transposed_adj_list_impl_converts K WT s el Ht Hel).
    unfold conversion_outcome.
    destruct (convert K WT (device s) (data (dest_indices el))
                (data (src_indices el)) (edge_data el)
                (size (src_indices el)) (dtype (src_indices el)))
      as [[status adj] m'].
    destruct (status =? 0); cbn [fst snd]; unfold failed; congruence. }
  destruct (edge_data el) as [w|]; [| apply Himpl; assumption].
  destruct (weight_ctype (dtype w)); [apply Himpl; assumption | reflexivity].
Qed.

(** C1, as the code has it.  A view that fails one of the checks it makes
    before it installs (the handle is empty; the index columns have no nulls,
    the right type and size) leaves the state exactly as it was.  So does a
    forward derivation that fails with InvalidState or UnsupportedType, and a
    transposed derivation that fails with one of these on a handle that has
    an Edge List or has no representation at all.  Nothing is said here of a
    failure found after the install. *)
Theorem early_failure_leaves_handle (K : kernels) (s : state) :
  (forall in_offsets in_indices in_edge_data,
     ~ (empty_handle (graph s) /\ adjacency_columns_ok in_offsets in_indices) ->
     failed (fst (gdf_adj_list_view K in_offsets in_indices in_edge_data s))
     /\ snd (gdf_adj_list_view K in_offsets in_indices in_edge_data s) = s)
  /\ (forall in_src in_dest in_edge_data,
        ~ (empty_handle (graph s) /\ edge_columns_ok in_src in_dest) ->
        failed (fst (gdf_edge_list_view K in_src in_dest in_edge_data s))
        /\ snd (gdf_edge_list_view K in_src in_dest in_edge_data s) = s)
  /\ (failed (fst (gdf_add_adj_list K s)) ->
      fst (gdf_add_adj_list K s) <> Done GDF_CUDA_ERROR ->
      (InvalidState (fst (gdf_add_adj_list K s))
       \/ UnsupportedType (fst (gdf_add_adj_list K s)))
      /\ snd (gdf_add_adj_list K s) = s)
  /\ (edgeList (graph s) <> None \/ adjList (graph s) = None ->
      failed (fst (gdf_add_transposed_adj_list K s)) ->
      fst (gdf_add_transposed_adj_list K s) <> Done GDF_CUDA_ERROR ->
      (InvalidState (fst (gdf_add_transposed_adj_list K s))
       \/ UnsupportedType (fst (gdf_add_transposed_adj_list K s)))
      /\ snd (gdf_add_transposed_adj_list K s) = s).
Proof.
  split.
  { intros o i ed Hno.
    destruct (gdf_adj_list_view_rejected K o i ed s Hno) as [reason ->].
    split; [discriminate | reflexivity]. }
  split.
  { intros src dst ed Hno.
    destruct (gdf_edge_list_view_rejected K src dst ed s Hno) as [reason ->].
    split; [discriminate | reflexivity]. }
  split.
  { intros Hf Hc. split; [| apply gdf_add_adj_list_early_failure; assumption].
    destruct (adjList (graph s)) as [adj|] eqn:Hadj.
    { rewrite gdf_add_adj_list_present in Hf by congruence.
      exfalso. apply Hf. reflexivity. }
    destruct (edgeList (graph s)) as [el|] eqn:Hel.
    2: { rewrite gdf_add_adj_list_no_source by assumption.
         left. reflexivity. }
    rewrite (gdf_add_adj_list_with_edges K s el Hadj Hel) in *.
    destruct (bool_decide (dtype (src_indices el) = GDF_INT32));
      [| right; left; reflexivity].
    assert (forall WT,
              failed (fst (gdf_add_adj_list_impl K WT s)) ->
              fst (gdf_add_adj_list_impl K WT s) <> Done GDF_CUDA_ERROR ->
              False) as Himpl.
    { intros WT. rewrite (gdf_add_adj_list_impl_converts K WT s el Hadj Hel).
      unfold conversion_outcome.
      destruct (convert K WT (device s) (data (src_indices el))
                  (data (dest_indices el)) (edge_data el)
                  (size (src_indices el)) (dtype (src_indices el)))
        as [[status adj] m'].
      destruct (status =? 0); cbn [fst snd]; unfold failed; congruence. }
    destruct (edge_data el) as [w|];
      [| exfalso; apply (Himpl float); assumption].
    destruct (weight_ctype (dtype w)) as [WT|];
      [exfalso; apply (Himpl WT); assumption | right; right; reflexivity]. }
  intros Hsrc Hf Hc.
  destruct (edgeList (graph s)) as [el|] eqn:Hel.
  2: { destruct Hsrc as [Hsrc | Hadj]; [congruence |].
       rewrite gdf_add_transposed_adj_list_no_source by assumption.
       split; [left |]; reflexivity. }
  split; [| apply (gdf_add_transposed_adj_list_early_failure K s el);
            assumption].
  rewrite (gdf_add_transposed_adj_list_with_edges K s el Hel) in *.
  destruct (bool_decide (dtype (src_indices el) = GDF_INT32));
    [| right; left; reflexivity].
  destruct (bool_decide (dtype (dest_indices el) = GDF_INT32));
    [| right; left; reflexivity].
  assert (forall WT,
            failed (fst (gdf_add_transposed_adj_list_impl K WT s)) ->
            fst (gdf_add_transposed_adj_list_impl K WT s) <> Done GDF_CUDA_ERROR ->
            False) as Himpl.
  { intros WT.
    destruct (transposedAdjList (graph s)) as [t|] eqn:Ht.
    { rewrite gdf_add_transposed_adj_list_impl_present by congruence.
      unfold failed. cbn [fst]. congruence. }
    rewrite (gdf_add_transposed_adj_list_impl_converts K WT s el Ht Hel).
    unfold conversion_outcome.
    destruct (convert K WT (device s) (data (dest_indices el))
                (data (src_indices el)) (edge_data el)
                (size (src_indices el)) (dtype (src_indices el)))
      as [[status adj] m'].
    destruct (status =? 0); cbn [fst snd]; unfold failed; congruence. }
  destruct (edge_data el) as [w|];
    [| exfalso; apply (Himpl float); assumption].
  destruct (weight_ctype (dtype w)) as [WT|];
    [exfalso; apply (Himpl WT); assumption | right; right; reflexivity].
Qed.

(** A view on a handle that already holds an Edge List fails and changes
    nothing. *)
Lemma early_failure_leaves_handle_witness :
  let el :=
    {| src_indices := column 1%nat 2 GDF_INT32;
       dest_indices := column 2%nat 2 GDF_INT32;
       edge_data := None |} in
  let s := holding_edge_list el [[0; 1]; [1; 0]] in
  let in_offsets := column 1%nat 2 GDF_INT32 in
  let in_indices := column 2%nat 2 GDF_INT32 in
  ~ (empty_handle (graph s) /\ adjacency_columns_ok in_offsets in_indices)
  /\ failed (fst (gdf_adj_list_view reference_kernels in_offsets in_indices None s))
  /\ snd (gdf_adj_list_view reference_kernels in_offsets in_indices None s) = s.
Proof.
  intros el s in_offsets in_indices.
  assert (~ (empty_handle (graph s)
             /\ adjacency_columns_ok in_offsets in_indices)) as Hno.
  { intros [(He & _) _]. discriminate He. }
  split; [exact Hno |].
  destruct (early_failure_leaves_handle reference_kernels s) as (H & _).
  exact (H in_offsets in_indices None Hno).
Defined.

(** C1 as stated does not hold: an adjacency-list view given weights that
    are not as many as the indices fails, and the Adjacency List it installed
    before the size check stays in the handle. *)
Lemma failed_view_keeps_installed_list :
  let s := fresh [[0; 1; 2]; [1; 0]; [5]] in
  let run :=
    gdf_adj_list_view reference_kernels (column 1%nat 3 GDF_INT32)
      (column 2%nat 2 GDF_INT32) (Some (column 3%nat 1 GDF_FLOAT32)) s in
  fst run = Raised "Column size mismatch"
  /\ failed (fst run)
  /\ adjList (graph s) = None
  /\ adjList (graph (snd run)) <> None
  /\ graph (snd run) <> graph s.
Proof.
  intros s run. split; [reflexivity |]. split; [discriminate |].
  split; [reflexivity |]. split; [discriminate |].
  vm_compute. discriminate.
Qed.

(** ** The weight kinds of the derivations *)

Lemma weight_ctype_floating (t : gdf_dtype) :
  weight_ctype t <> None <-> t = GDF_FLOAT32 \/ t = GDF_FLOAT64.
Proof.
  destruct t; cbn; split; intros H; try congruence;
    try (destruct H; congruence); auto.
Qed.

Lemma conversion_outcome_supported
    (install : option gdf_adj_list -> gdf_graph -> gdf_graph)
    (g : gdf_graph) (c : Z * gdf_adj_list * device_memory) :
  ~ UnsupportedType (fst (conversion_outcome install g c)).
Proof.
  destruct c as [[status adj] m']. unfold conversion_outcome.
  destruct (status =? 0); cbn [fst]; intros [H | H]; discriminate H.
Qed.

(** C2, as the code has it.  On a handle whose Edge List has int32 index
    columns and weights: with a weight kind of 32-bit or 64-bit floating
    point, neither derivation fails with UnsupportedType, and a derivation
    whose slot is empty goes to the weighted converter, instantiated at float
    or double, on (src, dest, weight) for the forward and on
    (dest, src, weight) for the transposed one; with any other weight kind,
    the four integer kinds among them, the transposed derivation, and the
    forward one when its slot is empty, return UnsupportedType and change
    nothing. *)
Theorem weight_kind_dispatch (K : kernels) (s : state) (el : gdf_edge_list)
    (w : gdf_column) :
  edgeList (graph s) = Some el ->
  edge_data el = Some w ->
  dtype (src_indices el) = GDF_INT32 ->
  dtype (dest_indices el) = GDF_INT32 ->
  (forall WT,
     weight_ctype (dtype w) = Some WT ->
     (adjList (graph s) = None ->
      gdf_add_adj_list K s
      = conversion_outcome set_adjList (graph s)
          (convert K WT (device s) (data (src_indices el))
             (data (dest_indices el)) (Some w) (size (src_indices el))
             GDF_INT32))
     /\ (transposedAdjList (graph s) = None ->
         gdf_add_transposed_adj_list K s
         = conversion_outcome set_transposedAdjList (graph s)
             (convert K WT (device s) (data (dest_indices el))
                (data (src_indices el)) (Some w) (size (src_indices el))
                GDF_INT32))
     /\ ~ UnsupportedType (fst (gdf_add_adj_list K s))
     /\ ~ UnsupportedType (fst (gdf_add_transposed_adj_list K s)))
  /\ (weight_ctype (dtype w) = None ->
      (adjList (graph s) = None ->
       gdf_add_adj_list K s = (Done GDF_UNSUPPORTED_DTYPE, s))
      /\ gdf_add_transposed_adj_list K s = (Done GDF_UNSUPPORTED_DTYPE, s))
  /\ (weight_ctype (dtype w) <> None
      <-> dtype w = GDF_FLOAT32 \/ dtype w = GDF_FLOAT64).
Proof.
  intros Hel Hw Hsrc Hdst.
  assert (forall WT,
            weight_ctype (dtype w) = Some WT ->
            adjList (graph s) = None ->
            gdf_add_adj_list K s
            = conversion_outcome set_adjList (graph s)
                (convert K WT (device s) (data (src_indices el))
                   (data (dest_indices el)) (Some w) (size (src_indices el))
                   GDF_INT32)) as Hforward.
  { intros WT HWT Hadj.
    rewrite (gdf_add_adj_list_with_edges K s el Hadj Hel).
    rewrite Hw, HWT, Hsrc, bool_decide_eq_true_2 by reflexivity.
    rewrite (gdf_add_adj_list_impl_converts K WT s el Hadj Hel).
    rewrite Hw, Hsrc. reflexivity. }
  assert (forall WT,
            weight_ctype (dtype w) = Some WT ->
            transposedAdjList (graph s) = None ->
            gdf_add_transposed_adj_list K s
            = conversion_outcome set_transposedAdjList (graph s)
                (convert K WT (device s) (data (dest_indices el))
                   (data (src_indices el)) (Some w) (size (src_indices el))
                   GDF_INT32)) as Htransposed.
  { intros WT HWT Ht.
    rewrite (gdf_add_transposed_adj_list_with_edges K s el Hel).
    rewrite Hw, HWT, Hsrc, Hdst, bool_decide_eq_true_2 by reflexivity.
    rewrite (gdf_add_transposed_adj_list_impl_converts K WT s el Ht Hel).
    rewrite Hw, Hsrc. reflexivity. }
  split; [| split; [| apply weight_ctype_floating]].
  - intros WT HWT.
    split; [apply Hforward, HWT |]. split; [apply Htransposed, HWT |].
    split.
    + destruct (adjList (graph s)) as [adj|] eqn:Hadj.
      * rewrite gdf_add_adj_list_present by congruence.
        intros [H | H]; discriminate H.
      * rewrite (Hforward WT HWT eq_refl).
        apply conversion_outcome_supported.
    + destruct (transposedAdjList (graph s)) as [t|] eqn:Ht.
      * rewrite (gdf_add_transposed_adj_list_with_edges K s el Hel).
        rewrite Hw, HWT, Hsrc, Hdst, bool_decide_eq_true_2 by reflexivity.
        rewrite gdf_add_transposed_adj_list_impl_present by congruence.
        intros [H | H]; discriminate H.
      * rewrite (Htransposed WT HWT eq_refl).
        apply conversion_outcome_supported.
  - intros HWT. split.
    + intros Hadj. rewrite (gdf_add_adj_list_with_edges K s el Hadj Hel).
      rewrite Hw, HWT, Hsrc, bool_decide_eq_true_2 by reflexivity.
      reflexivity.
    + rewrite (gdf_add_transposed_adj_list_with_edges K s el Hel).
      rewrite Hw, HWT, Hsrc, Hdst, bool_decide_eq_true_2 by reflexivity.
      reflexivity.
Qed.

(** Float weights go to the converter; here it reports success. *)
Lemma weight_kind_dispatch_witness :
  let w := column 3%nat 3 GDF_FLOAT32 in
  let el :=
    {| src_indices := column 1%nat 3 GDF_INT32;
       dest_indices := column 2%nat 3 GDF_INT32;
       edge_data := Some w |} in
  let s := holding_edge_list el [[0; 0; 1]; [1; 2; 2]; [7; 8; 9]] in
  weight_ctype (dtype w) = Some float
  /\ gdf_add_adj_list reference_kernels s
     = conversion_outcome set_adjList (graph s)
         (convert reference_kernels float (device s) 1%nat 2%nat (Some w) 3
            GDF_INT32)
  /\ gdf_add_transposed_adj_list reference_kernels s
     = conversion_outcome set_transposedAdjList (graph s)
         (convert reference_kernels float (device s) 2%nat 1%nat (Some w) 3
            GDF_INT32)
  /\ ~ UnsupportedType (fst (gdf_add_adj_list reference_kernels s))
  /\ ~ UnsupportedType (fst (gdf_add_transposed_adj_list reference_kernels s)).
Proof.
  intros w el s. split; [reflexivity |].
  destruct (weight_kind_dispatch reference_kernels s el w
              eq_refl eq_refl eq_refl eq_refl) as (H & _).
  destruct (H float eq_refl) as (Hf & Ht & Hnf & Hnt).
  exact (conj (Hf eq_refl) (conj (Ht eq_refl) (conj Hnf Hnt))).
Defined.

(** C2 as stated does not hold: 32-bit integer weights, one of the six kinds,
    make both derivations fail with UnsupportedType. *)
Lemma integer_weights_are_unsupported :
  let el :=
    {| src_indices := column 1%nat 3 GDF_INT32;
       dest_indices := column 2%nat 3 GDF_INT32;
       edge_data := Some (column 3%nat 3 GDF_INT32) |} in
  let s := holding_edge_list el [[0; 0; 1]; [1; 2; 2]; [7; 8; 9]] in
  supported_weight_kind GDF_INT32 = true
  /\ UnsupportedType (fst (gdf_add_adj_list reference_kernels s))
  /\ UnsupportedType (fst (gdf_add_transposed_adj_list reference_kernels s)).
Proof.
  intros el s. split; [reflexivity |]. split; right; reflexivity.
Qed.

(** ** Device memory under an allocation *)

Lemma load_some (m : device_memory) (p : addr) (cells : list Z) :
  load m p = cells -> cells <> [] ->
  exists k, p = S k /\ m !! k = Some cells.
Proof.
  destruct p as [| k]; unfold load; intros H Hne; [congruence |].
  exists k. split; [reflexivity |].
  destruct (m !! k); cbn in H; congruence.
Qed.

Lemma load_app_old (m : device_memory) (b : list Z) (p : addr)
    (cells : list Z) :
  load m p = cells -> cells <> [] -> load (m ++ [b]) p = cells.
Proof.
  intros H Hne. destruct (load_some m p cells H Hne) as (k & -> & Hk).
  unfold load. rewrite lookup_app_l by (eapply lookup_lt_Some; exact Hk).
  rewrite Hk. reflexivity.
Qed.

Lemma load_app_new (m : device_memory) (b : list Z) :
  load (m ++ [b]) (S (length m)) = b.
Proof.
  unfold load. rewrite lookup_app_r by lia. rewrite Nat.sub_diag.
  reflexivity.
Qed.

Lemma load_store_new (m : device_memory) (b x : list Z) :
  load (store (m ++ [b]) (S (length m)) x) (S (length m)) = x.
Proof.
  unfold load, store. rewrite list_lookup_insert_eq; [reflexivity |].
  rewrite length_app. cbn [length]. lia.
Qed.

Lemma load_store_old (m : device_memory) (b x : list Z) (p : addr)
    (cells : list Z) :
  load m p = cells -> cells <> [] ->
  load (store (m ++ [b]) (S (length m)) x) p = cells.
Proof.
  intros H Hne. destruct (load_some m p cells H Hne) as (k & -> & Hk).
  pose proof (lookup_lt_Some _ _ _ Hk) as Hlt.
  unfold load, store. rewrite list_lookup_insert_ne by lia.
  rewrite lookup_app_l by exact Hlt. rewrite Hk. reflexivity.
Qed.

(** ** The adjacency-list scenario *)

(** C7.  On a fresh handle, an adjacency-list view of offsets [0,1,1,2] and
    indices [2,0] without weights succeeds, sets the vertex count to 3 and
    records that no edge is negative.  Deriving the Edge List then succeeds:
    its source array is a new allocation that reads [0,2], and its
    destination column is a shallow view of the indices (the same pointer)
    that reads [2,0]. *)
Theorem adjacency_view_scenario (K : kernels) (m : device_memory)
    (p_offsets p_indices : addr) :
  load m p_offsets = [0; 1; 1; 2] ->
  load m p_indices = [2; 0] ->
  exists s1 s2 el,
    gdf_adj_list_view K (column p_offsets 4 GDF_INT32)
      (column p_indices 2 GDF_INT32) None (fresh m)
    = (Done GDF_SUCCESS, s1)
    /\ numberOfVertices (graph s1) = 3
    /\ negative_edges (graph s1) = GDF_PROP_FALSE
    /\ gdf_add_edge_list s1 = (Done GDF_SUCCESS, s2)
    /\ edgeList (graph s2) = Some el
    /\ load_n (device s2) (data (src_indices el)) (size (src_indices el))
       = [0; 2]
    /\ load_n (device s2) (data (dest_indices el)) (size (dest_indices el))
       = [2; 0]
    /\ data (dest_indices el) = p_indices
    /\ data (src_indices el) = S (length m)
    /\ edge_data el = None.
Proof.
  intros Hoff Hind.
  set (in_offsets := column p_offsets 4 GDF_INT32).
  set (in_indices := column p_indices 2 GDF_INT32).
  assert (adjacency_columns_ok in_offsets in_indices) as Hc
    by (unfold adjacency_columns_ok; cbn; repeat split; lia).
  assert (empty_handle (graph (fresh m))) as He by (repeat split).
  rewrite (gdf_adj_list_view_accepted K in_offsets in_indices None (fresh m)
             He Hc).
  set (s1 := adj_view_state (fresh m) in_offsets in_indices None GDF_PROP_FALSE).
  set (adj := {| offsets := cpy_column_view in_offsets;
                 indices := cpy_column_view in_indices;
                 adj_edge_data := None |}).
  assert (expansion s1 adj = ([0; 2], true)) as Hexp.
  { unfold expansion. cbn [device s1 adj_view_state fresh].
    cbn [adj offsets indices in_offsets in_indices column cpy_column_view
         gdf_column_view data size].
    change (Z.to_nat 2) with 2%nat. cbn [replicate].
    rewrite load_app_new.
    rewrite (load_app_old m [0; 0] p_offsets [0; 1; 1; 2] Hoff)
      by discriminate.
    reflexivity. }
  exists s1, (after_add_edge_list s1 adj), (derived_edge_list (S (length m)) adj).
  split; [reflexivity |]. split; [reflexivity |]. split; [reflexivity |].
  split.
  { rewrite (gdf_add_edge_list_derive s1 adj eq_refl eq_refl), Hexp.
    reflexivity. }
  split; [reflexivity |].
  unfold after_add_edge_list. rewrite Hexp. cbn [fst].
  cbn [device s1 adj_view_state fresh].
  cbn [adj offsets indices derived_edge_list src_indices dest_indices
       edge_data adj_edge_data in_offsets in_indices column cpy_column_view
       gdf_column_view data size].
  change (Z.to_nat 2) with 2%nat. cbn [replicate].
  unfold load_n.
  rewrite load_store_new.
  rewrite (load_store_old m [0; 0] _ p_indices [2; 0] Hind) by discriminate.
  repeat split.
Qed.

Lemma adjacency_view_scenario_witness :
  let m := [[0; 1; 1; 2]; [2; 0]] in
  load m 1%nat = [0; 1; 1; 2]
  /\ load m 2%nat = [2; 0]
  /\ exists s1 s2 el,
       gdf_adj_list_view reference_kernels (column 1%nat 4 GDF_INT32)
         (column 2%nat 2 GDF_INT32) None (fresh m)
       = (Done GDF_SUCCESS, s1)
       /\ numberOfVertices (graph s1) = 3
       /\ negative_edges (graph s1) = GDF_PROP_FALSE
       /\ gdf_add_edge_list s1 = (Done GDF_SUCCESS, s2)
       /\ edgeList (graph s2) = Some el
       /\ load_n (device s2) (data (src_indices el)) (size (src_indices el))
          = [0; 2]
       /\ load_n (device s2) (data (dest_indices el)) (size (dest_indices el))
          = [2; 0]
       /\ data (dest_indices el) = 2%nat
       /\ data (src_indices el) = S (length m)
       /\ edge_data el = None.
Proof.
  intros m. split; [reflexivity |]. split; [reflexivity |].
  exact (adjacency_view_scenario reference_kernels m 1%nat 2%nat
           eq_refl eq_refl).
Defined.

(** ** The transposed derivation *)

(** The state the transposed derivation converts in has an Edge List as soon
    as the handle has an Edge List or an Adjacency List. *)
Lemma conversion_source_edges (s : state) :
  (exists el, edgeList (graph s) = Some el /\ conversion_source s = s)
  \/ (exists adj,
        edgeList (graph s) = None /\ adjList (graph s) = Some adj
        /\ conversion_source s = after_add_edge_list s adj)
  \/ (edgeList (graph s) = None /\ adjList (graph s) = None).
Proof.
  unfold conversion_source.
  destruct (edgeList (graph s)) as [el|]; [left; eauto |].
  destruct (adjList (graph s)) as [adj|]; [right; left; eauto | right; right; auto].
Qed.

(** The derivation of the Edge List leaves the transposed slot alone. *)
Lemma conversion_source_transposed (s : state) :
  transposedAdjList (graph (conversion_source s))
  = transposedAdjList (graph s).
Proof.
  destruct (conversion_source_edges s)
    as [(el & _ & ->) | [(adj & _ & _ & ->) | (Hel & Hadj)]];
    [reflexivity | reflexivity |].
  unfold conversion_source. rewrite Hel, Hadj. reflexivity.
Qed.

(** A successful transposed derivation is one of the state it converts in. *)
Lemma gdf_add_transposed_adj_list_from_source (K : kernels) (s s' : state) :
  gdf_add_transposed_adj_list K s = (Done GDF_SUCCESS, s') ->
  gdf_add_transposed_adj_list K (conversion_source s) = (Done GDF_SUCCESS, s')
  /\ exists el,
       edgeList (graph (conversion_source s)) = Some el
       /\ (edgeList (graph s) = None ->
           exists adj,
             adjList (graph s) = Some adj
             /\ el = derived_edge_list (S (length (device s))) adj
             /\ conversion_source s = after_add_edge_list s adj).
Proof.
  intros Hrun.
  destruct (conversion_source_edges s)
    as [(el & Hel & E) | [(adj & Hel & Hadj & E) | (Hel & Hadj)]].
  - rewrite E. split; [exact Hrun |]. exists el.
    split; [exact Hel | congruence].
  - rewrite (gdf_add_transposed_adj_list_derives K s adj Hel Hadj) in Hrun.
    destruct (snd (expansion s adj)); [| discriminate Hrun].
    rewrite E. split; [exact Hrun |].
    exists (derived_edge_list (S (length (device s))) adj).
    split; [reflexivity |]. intros _. exists adj. auto.
  - rewrite gdf_add_transposed_adj_list_no_source in Hrun by assumption.
    discriminate Hrun.
Qed.

(** The weight kinds that have an instantiation of the converter. *)
Lemma weight_ctype_some (t : gdf_dtype) (WT : ctype) :
  weight_ctype t = Some WT ->
  t = GDF_FLOAT32 /\ WT = float \/ t = GDF_FLOAT64 /\ WT = double.
Proof.
  destruct t; cbn; intros H; try discriminate H; injection H as <-; auto.
Qed.

(** C8, as the code has it.  Whenever the transposed derivation succeeds,
    the state it converts in has an Edge List, which stays in the handle; if
    the handle had none, it is the one derived from the Adjacency List.  If
    the transposed slot was empty, the format converter returned status zero
    on the destination array as rows and the source array as columns (and on
    the weights, when there are any, instantiated at their type), and the
    slot holds 32-bit integer columns over the arrays it returned: the row
    offsets, one more than the vertices, the column indices, one per edge,
    and the weights under their own type tag; the vertex count is the
    converter's.  If the slot was filled, nothing is converted and the slot
    stays as it was, whatever it holds. *)
Theorem transposed_is_conversion_of_swapped (K : kernels) (s s' : state) :
  gdf_add_transposed_adj_list K s = (Done GDF_SUCCESS, s') ->
  exists el,
    edgeList (graph (conversion_source s)) = Some el
    /\ edgeList (graph s') = Some el
    /\ (edgeList (graph s) = None ->
        exists adj,
          adjList (graph s) = Some adj
          /\ el = derived_edge_list (S (length (device s))) adj
          /\ conversion_source s = after_add_edge_list s adj)
    /\ (transposedAdjList (graph s) <> None ->
        s' = conversion_source s
        /\ transposedAdjList (graph s') = transposedAdjList (graph s))
    /\ (transposedAdjList (graph s) = None ->
        match edge_data el with
        | None =>
            exists r,
              ConvertCOOtoCSR K (device (conversion_source s))
                (data (dest_indices el)) (data (src_indices el))
                (size (src_indices el))
              = (0, r, device s')
              /\ transposedAdjList (graph s')
                 = Some {| offsets :=
                             {| data := rowOffsets r; valid := nullptr;
                                size := csr_size r + 1; dtype := GDF_INT32;
                                null_count := 0 |};
                           indices :=
                             {| data := colIndices r; valid := nullptr;
                                size := csr_nnz r; dtype := GDF_INT32;
                                null_count := 0 |};
                           adj_edge_data := None |}
              /\ numberOfVertices (graph s') = csr_size r
        | Some w =>
            exists WT r,
              (dtype w = GDF_FLOAT32 /\ WT = float
               \/ dtype w = GDF_FLOAT64 /\ WT = double)
              /\ ConvertCOOtoCSR_weighted K WT (device (conversion_source s))
                   (data (dest_indices el)) (data (src_indices el)) (data w)
                   (size (src_indices el))
                 = (0, r, device s')
              /\ transposedAdjList (graph s')
                 = Some {| offsets :=
                             {| data := w_rowOffsets r; valid := nullptr;
                                size := csrw_size r + 1; dtype := GDF_INT32;
                                null_count := 0 |};
                           indices :=
                             {| data := w_colIndices r; valid := nullptr;
                                size := csrw_nnz r; dtype := GDF_INT32;
                                null_count := 0 |};
                           adj_edge_data :=
                             Some {| data := edgeWeights r; valid := nullptr;
                                     size := csrw_nnz r; dtype := dtype w;
                                     null_count := 0 |} |}
              /\ numberOfVertices (graph s') = csrw_size r
        end).
Proof.
  intros Hrun.
  destruct (gdf_add_transposed_adj_list_from_source K s s' Hrun)
    as (Hrun1 & el & Hel1 & Hderived).
  pose proof (conversion_source_transposed s) as Ht1.
  set (s1 := conversion_source s) in *.
  rewrite (gdf_add_transposed_adj_list_with_edges K s1 el Hel1) in Hrun1.
  destruct (bool_decide (dtype (src_indices el) = GDF_INT32)) eqn:Hsrc;
    [| discriminate Hrun1].
  destruct (bool_decide (dtype (dest_indices el) = GDF_INT32)) eqn:Hdst;
    [| discriminate Hrun1].
  apply bool_decide_eq_true in Hsrc.
  assert (exists WT,
            gdf_add_transposed_adj_list_impl K WT s1 = (Done GDF_SUCCESS, s')
            /\ forall w, edge_data el = Some w ->
                         dtype w = GDF_FLOAT32 /\ WT = float
                         \/ dtype w = GDF_FLOAT64 /\ WT = double)
    as (WT & Himpl & HWT).
  { destruct (edge_data el) as [w|].
    - destruct (weight_ctype (dtype w)) as [WT|] eqn:E;
        [| discriminate Hrun1].
      exists WT. split; [exact Hrun1 |].
      intros w' [= <-]. apply weight_ctype_some, E.
    - exists float. split; [exact Hrun1 |]. intros w' Hw'. discriminate Hw'. }
  exists el. split; [exact Hel1 |].
  assert (edgeList (graph s') = Some el
          /\ (transposedAdjList (graph s) <> None ->
              s' = s1 /\ transposedAdjList (graph s') = transposedAdjList (graph s)))
    as [Hkeep Hfilled].
  { destruct (transposedAdjList (graph s1)) as [t|] eqn:Hslot.
    - rewrite gdf_add_transposed_adj_list_impl_present in Himpl
        by (rewrite Hslot; discriminate).
      injection Himpl as <-. split; [exact Hel1 |].
      intros _. split; [reflexivity | congruence].
    - split; [| intros Hne; congruence].
      rewrite (gdf_add_transposed_adj_list_impl_converts K WT s1 el Hslot Hel1)
        in Himpl.
      unfold conversion_outcome in Himpl.
      destruct (convert K WT (device s1) (data (dest_indices el))
                  (data (src_indices el)) (edge_data el)
                  (size (src_indices el)) (dtype (src_indices el)))
        as [[status transposed] m'].
      destruct (status =? 0); [| discriminate Himpl].
      injection Himpl as <-. cbn. exact Hel1. }
  split; [exact Hkeep |]. split; [exact Hderived |].
  split; [exact Hfilled |].
  intros Ht. rewrite Ht in Ht1.
  rewrite (gdf_add_transposed_adj_list_impl_converts K WT s1 el Ht1 Hel1)
    in Himpl.
  rewrite Hsrc in Himpl. unfold conversion_outcome, convert in Himpl.
  destruct (edge_data el) as [w|].
  - destruct (ConvertCOOtoCSR_weighted K WT (device s1)
                (data (dest_indices el)) (data (src_indices el)) (data w)
                (size (src_indices el))) as [[status r] m'] eqn:Hconv.
    destruct (Z.eqb_spec status 0) as [-> |]; [| discriminate Himpl].
    injection Himpl as <-. exists WT, r.
    split; [exact (HWT w eq_refl) |]. split; [exact Hconv |].
    split; [reflexivity |]. cbn. lia.
  - destruct (ConvertCOOtoCSR K (device s1) (data (dest_indices el))
                (data (src_indices el)) (size (src_indices el)))
      as [[status r] m'].
    destruct (Z.eqb_spec status 0) as [-> |]; [| discriminate Himpl].
    injection Himpl as <-. exists r.
    split; [reflexivity |]. split; [reflexivity |]. cbn. lia.
Qed.

(** From an Adjacency List alone: the Edge List is derived, source array
    [0,2] in a new allocation, then converted with the destinations as
    rows. *)
Lemma transposed_is_conversion_of_swapped_witness :
  let adj :=
    {| offsets := column 1%nat 4 GDF_INT32;
       indices := column 2%nat 2 GDF_INT32;
       adj_edge_data := None |} in
  let s := holding_adj_list adj [[0; 1; 1; 2]; [2; 0]] in
  let s' := snd (gdf_add_transposed_adj_list reference_kernels s) in
  gdf_add_transposed_adj_list reference_kernels s = (Done GDF_SUCCESS, s')
  /\ transposedAdjList (graph s')
     = Some {| offsets := column 4%nat 4 GDF_INT32;
               indices := column 5%nat 2 GDF_INT32;
               adj_edge_data := None |}
  /\ device s' = [[0; 1; 1; 2]; [2; 0]; [0; 2]; [0; 1; 1; 2]; [2; 0]]
  /\ exists el,
       edgeList (graph (conversion_source s)) = Some el
       /\ edgeList (graph s') = Some el
       /\ (edgeList (graph s) = None ->
           exists a,
             adjList (graph s) = Some a
             /\ el = derived_edge_list (S (length (device s))) a
             /\ conversion_source s = after_add_edge_list s a)
       /\ (transposedAdjList (graph s) <> None ->
           s' = conversion_source s
           /\ transposedAdjList (graph s') = transposedAdjList (graph s))
       /\ (transposedAdjList (graph s) = None ->
           match edge_data el with
           | None =>
               exists r,
                 ConvertCOOtoCSR reference_kernels
                   (device (conversion_source s)) (data (dest_indices el))
                   (data (src_indices el)) (size (src_indices el))
                 = (0, r, device s')
                 /\ transposedAdjList (graph s')
                    = Some {| offsets :=
                                {| data := rowOffsets r; valid := nullptr;
                                   size := csr_size r + 1; dtype := GDF_INT32;
                                   null_count := 0 |};
                              indices :=
                                {| data := colIndices r; valid := nullptr;
                                   size := csr_nnz r; dtype := GDF_INT32;
                                   null_count := 0 |};
                              adj_edge_data := None |}
                 /\ numberOfVertices (graph s') = csr_size r
           | Some w =>
               exists WT r,
                 (dtype w = GDF_FLOAT32 /\ WT = float
                  \/ dtype w = GDF_FLOAT64 /\ WT = double)
                 /\ ConvertCOOtoCSR_weighted reference_kernels WT
                      (device (conversion_source s)) (data (dest_indices el))
                      (data (src_indices el)) (data w) (size (src_indices el))
                    = (0, r, device s')
                 /\ transposedAdjList (graph s')
                    = Some {| offsets :=
                                {| data := w_rowOffsets r; valid := nullptr;
                                   size := csrw_size r + 1;
                                   dtype := GDF_INT32; null_count := 0 |};
                              indices :=
                                {| data := w_colIndices r; valid := nullptr;
                                   size := csrw_nnz r; dtype := GDF_INT32;
                                   null_count := 0 |};
                              adj_edge_data :=
                                Some {| data := edgeWeights r;
                                        valid := nullptr; size := csrw_nnz r;
                                        dtype := dtype w; null_count := 0 |} |}
                 /\ numberOfVertices (graph s') = csrw_size r
           end).
Proof.
  intros adj s s'.
  assert (gdf_add_transposed_adj_list reference_kernels s
          = (Done GDF_SUCCESS, s')) as Hrun by reflexivity.
  split; [exact Hrun |]. split; [reflexivity |]. split; [reflexivity |].
  exact (transposed_is_conversion_of_swapped reference_kernels s s' Hrun).
Defined.

(** A success of the transposed derivation that follows no conversion.  The
    converter reports a failure and hands back nothing; the first call
    answers with the conversion failure and leaves that result in the slot.
    The second call, on the handle the first one left, succeeds without
    calling the converter: the slot still holds the null arrays of the
    failed run, and the converter on the destination and source arrays of
    the Edge List does not return status zero. *)
Lemma transposed_success_without_conversion :
  let failing :=
    {| has_negative_val := reference_has_negative_val;
       indexing_check := reference_indexing_check;
       ConvertCOOtoCSR :=
         fun m _ _ _ =>
           (1, {| csr_size := 0; csr_nnz := 0; rowOffsets := nullptr;
                  colIndices := nullptr |}, m);
       ConvertCOOtoCSR_weighted := reference_ConvertCOOtoCSR_weighted |} in
  let el :=
    {| src_indices := column 1%nat 3 GDF_INT32;
       dest_indices := column 2%nat 3 GDF_INT32;
       edge_data := None |} in
  let s := holding_edge_list el [[0; 0; 1]; [1; 2; 2]] in
  let s1 := snd (gdf_add_transposed_adj_list failing s) in
  fst (gdf_add_transposed_adj_list failing s) = Done GDF_CUDA_ERROR
  /\ gdf_add_transposed_adj_list failing s1 = (Done GDF_SUCCESS, s1)
  /\ edgeList (graph s1) = Some el
  /\ transposedAdjList (graph s1)
     = Some {| offsets := column nullptr 1 GDF_INT32;
               indices := column nullptr 0 GDF_INT32;
               adj_edge_data := None |}
  /\ fst (fst (ConvertCOOtoCSR failing (device s1) (data (dest_indices el))
                 (data (src_indices el)) (size (src_indices el)))) <> 0.
Proof.
  intros failing el s s1.
  split; [reflexivity |]. split; [reflexivity |]. split; [reflexivity |].
  split; [reflexivity |]. cbn. discriminate.
Qed.

(** ** The reference kernels on the scenarios of the interface *)

(** Edges (0,1), (0,2), (1,2) without weights: the forward derivation yields
    offsets [0,2,3,3], indices [1,2,2] and three vertices. *)
Example forward_scenario :
  let s := fresh [[0; 0; 1]; [1; 2; 2]] in
  let viewed :=
    gdf_edge_list_view reference_kernels (column 1%nat 3 GDF_INT32)
      (column 2%nat 3 GDF_INT32) None s in
  let derived := gdf_add_adj_list reference_kernels (snd viewed) in
  fst viewed = Done GDF_SUCCESS
  /\ fst derived = Done GDF_SUCCESS
  /\ numberOfVertices (graph (snd derived)) = 3
  /\ (adj ← adjList (graph (snd derived));
      Some (load_n (device (snd derived)) (data (offsets adj)) (size (offsets adj)),
            load_n (device (snd derived)) (data (indices adj)) (size (indices adj))))
     = Some ([0; 2; 3; 3], [1; 2; 2]).
Proof. repeat split. Qed.

(** The adjacency list of offsets [0,2,3,3] and indices [1,2,2] holds the
    edges (0,1), (0,2) and (1,2); transposed, vertex 1 is entered from 0 and
    vertex 2 from 0 and 1. *)
Example transposed_scenario :
  let adj :=
    {| offsets := column 1%nat 4 GDF_INT32;
       indices := column 2%nat 3 GDF_INT32;
       adj_edge_data := None |} in
  let derived :=
    gdf_add_transposed_adj_list reference_kernels
      (holding_adj_list adj [[0; 2; 3; 3]; [1; 2; 2]]) in
  fst derived = Done GDF_SUCCESS
  /\ (t ← transposedAdjList (graph (snd derived));
      Some (load_n (device (snd derived)) (data (offsets t)) (size (offsets t)),
            load_n (device (snd derived)) (data (indices t)) (size (indices t))))
     = Some ([0; 0; 1; 3], [0; 0; 1]).
Proof. repeat split. Qed.

(** * Further properties of the operations *)

(** ** The delete operations, as equations *)

Section Deletes.

Variable D : destructors.

Lemma gdf_delete_adj_list_run (s : state) :
  gdf_delete_adj_list D s =
  (Done GDF_SUCCESS,
   {| graph := set_adjList None (graph s);
      device :=
        match adjList (graph s) with
        | Some adj => destroy_adj_list D adj (device s)
        | None => device s
        end |}).
Proof.
  unfold gdf_delete_adj_list. steps. rewrite run_bind.
  destruct (adjList (graph s)) as [adj|]; steps; reflexivity.
Qed.

Lemma gdf_delete_edge_list_run (s : state) :
  gdf_delete_edge_list D s =
  (Done GDF_SUCCESS,
   {| graph := set_edgeList None (graph s);
      device :=
        match edgeList (graph s) with
        | Some el => destroy_edge_list D el (device s)
        | None => device s
        end |}).
Proof.
  unfold gdf_delete_edge_list. steps. rewrite run_bind.
  destruct (edgeList (graph s)) as [el|]; steps; reflexivity.
Qed.

Lemma gdf_delete_transposed_adj_list_run (s : state) :
  gdf_delete_transposed_adj_list D s =
  (Done GDF_SUCCESS,
   {| graph := set_transposedAdjList None (graph s);
      device :=
        match transposedAdjList (graph s) with
        | Some adj => destroy_adj_list D adj (device s)
        | None => device s
        end |}).
Proof.
  unfold gdf_delete_transposed_adj_list. steps. rewrite run_bind.
  destruct (transposedAdjList (graph s)) as [adj|]; steps; reflexivity.
Qed.

End Deletes.

(** ** Releasing *)

(** X1.  Each delete operation returns success on every handle, empties its
    own slot, and leaves the two other slots, the property block and the
    cached vertex count as they were: the count and the negative-edge flag
    outlive the representation they were read from. *)
Theorem delete_clears_only_its_slot (D : destructors) (s : state) :
  let a := gdf_delete_adj_list D s in
  let e := gdf_delete_edge_list D s in
  let t := gdf_delete_transposed_adj_list D s in
  (fst a = Done GDF_SUCCESS /\ fst e = Done GDF_SUCCESS
   /\ fst t = Done GDF_SUCCESS)
  /\ (adjList (graph (snd a)) = None
      /\ edgeList (graph (snd a)) = edgeList (graph s)
      /\ transposedAdjList (graph (snd a)) = transposedAdjList (graph s))
  /\ (edgeList (graph (snd e)) = None
      /\ adjList (graph (snd e)) = adjList (graph s)
      /\ transposedAdjList (graph (snd e)) = transposedAdjList (graph s))
  /\ (transposedAdjList (graph (snd t)) = None
      /\ edgeList (graph (snd t)) = edgeList (graph s)
      /\ adjList (graph (snd t)) = adjList (graph s))
  /\ (prop (graph (snd a)) = prop (graph s)
      /\ prop (graph (snd e)) = prop (graph s)
      /\ prop (graph (snd t)) = prop (graph s))
  /\ (numberOfVertices (graph (snd a)) = numberOfVertices (graph s)
      /\ numberOfVertices (graph (snd e)) = numberOfVertices (graph s)
      /\ numberOfVertices (graph (snd t)) = numberOfVertices (graph s)).
Proof.
  cbv zeta.
  rewrite gdf_delete_adj_list_run, gdf_delete_edge_list_run,
    gdf_delete_transposed_adj_list_run.
  repeat split.
Qed.

(** X2.  Deleting a representation twice is deleting it once: the second
    call finds the slot empty, runs no destructor and leaves the handle and
    the device memory exactly as the first call left them. *)
Theorem delete_twice_is_delete_once (D : destructors) (s : state) :
  gdf_delete_adj_list D (snd (gdf_delete_adj_list D s))
  = (Done GDF_SUCCESS, snd (gdf_delete_adj_list D s))
  /\ gdf_delete_edge_list D (snd (gdf_delete_edge_list D s))
     = (Done GDF_SUCCESS, snd (gdf_delete_edge_list D s))
  /\ gdf_delete_transposed_adj_list D
       (snd (gdf_delete_transposed_adj_list D s))
     = (Done GDF_SUCCESS, snd (gdf_delete_transposed_adj_list D s)).
Proof.
  rewrite !gdf_delete_adj_list_run, !gdf_delete_edge_list_run,
    !gdf_delete_transposed_adj_list_run.
  repeat split.
Qed.

(** The three deletes, one after the other, leave an empty handle. *)
Lemma delete_all_empty (K : kernels) (D : destructors) (s : state) :
  let s3 :=
    run_calls K D
      [call_delete_adj_list; call_delete_edge_list;
       call_delete_transposed_adj_list] s in
  empty_handle (graph s3)
  /\ numberOfVertices (graph s3) = numberOfVertices (graph s)
  /\ prop (graph s3) = prop (graph s).
Proof.
  cbv zeta. unfold run_calls. cbn [foldl run_call].
  rewrite gdf_delete_transposed_adj_list_run, gdf_delete_edge_list_run,
    gdf_delete_adj_list_run.
  repeat split.
Qed.

(** X3.  Once the three representations are deleted the handle takes a view
    again, whatever it held before: with columns that pass the checks, the
    adjacency-list view succeeds and the edge-list view answers with the
    status of the indexing check. *)
Theorem views_accepted_after_deleting_all (K : kernels) (D : destructors)
    (s : state) (first second : gdf_column) (in_edge_data : option gdf_column) :
  let s3 :=
    run_calls K D
      [call_delete_adj_list; call_delete_edge_list;
       call_delete_transposed_adj_list] s in
  (adjacency_columns_ok first second ->
   weights_fit (size second) in_edge_data ->
   succeeded (fst (gdf_adj_list_view K first second in_edge_data s3)))
  /\ (edge_columns_ok first second ->
      weights_fit (size first) in_edge_data ->
      fst (gdf_edge_list_view K first second in_edge_data s3)
      = Done (indexing_check K (device s3) (data first) (data second)
                (size second))).
Proof.
  intros s3. destruct (delete_all_empty K D s) as (He & _).
  fold s3 in He. split; intros Hc Hw.
  - rewrite (gdf_adj_list_view_accepted K _ _ _ s3 He Hc).
    destruct in_edge_data as [w|]; [| reflexivity].
    rewrite (Hw w eq_refl), Z.eqb_refl. reflexivity.
  - rewrite (gdf_edge_list_view_accepted K _ _ _ s3 He Hc).
    destruct in_edge_data as [w|]; [| reflexivity].
    rewrite (Hw w eq_refl), Z.eqb_refl. reflexivity.
Qed.

(** A handle holding an Edge List rejects a view; after the deletes it takes
    one. *)
Lemma views_accepted_after_deleting_all_witness :
  let el :=
    {| src_indices := column 1%nat 2 GDF_INT32;
       dest_indices := column 2%nat 2 GDF_INT32;
       edge_data := None |} in
  let s := holding_edge_list el [[0; 1]; [1; 0]] in
  let in_offsets := column 1%nat 2 GDF_INT32 in
  let in_indices := column 2%nat 2 GDF_INT32 in
  let s3 :=
    run_calls reference_kernels keep_memory
      [call_delete_adj_list; call_delete_edge_list;
       call_delete_transposed_adj_list] s in
  adjacency_columns_ok in_offsets in_indices
  /\ weights_fit (size in_indices) None
  /\ InvalidState (fst (gdf_adj_list_view reference_kernels in_offsets in_indices None s))
  /\ succeeded (fst (gdf_adj_list_view reference_kernels in_offsets in_indices None s3)).
Proof.
  intros el s in_offsets in_indices s3.
  assert (adjacency_columns_ok in_offsets in_indices) as Hc
    by (unfold adjacency_columns_ok; cbn; repeat split; lia).
  assert (weights_fit (size in_indices) None) as Hw
    by (intros w Hw; discriminate Hw).
  split; [exact Hc |]. split; [exact Hw |]. split; [reflexivity |].
  destruct (views_accepted_after_deleting_all reference_kernels keep_memory s
              in_offsets in_indices None) as [H _].
  exact (H Hc Hw).
Defined.

(** ** The cached vertex count *)

(** An edge-list view that gets past its leading checks leaves the vertex
    count as it found it. *)
Lemma gdf_edge_list_view_keeps_count (K : kernels) (src dst : gdf_column)
    (ed : option gdf_column) (s : state) :
  numberOfVertices (graph (snd (gdf_edge_list_view K src dst ed s)))
  = numberOfVertices (graph s).
Proof.
  destruct (edgeList (graph s)) as [el|] eqn:E1.
  { rewrite gdf_edge_list_view_populated by (left; congruence). reflexivity. }
  destruct (adjList (graph s)) as [adj|] eqn:E2.
  { rewrite gdf_edge_list_view_populated by (right; left; congruence).
    reflexivity. }
  destruct (transposedAdjList (graph s)) as [t|] eqn:E3.
  { rewrite gdf_edge_list_view_populated by (right; right; congruence).
    reflexivity. }
  unfold gdf_edge_list_view. steps. rewrite E1, E2, E3. cbn [is_nullptr andb].
  steps.
  destruct (size src =? size dst) eqn:C1; steps; [| reflexivity].
  destruct (bool_decide (dtype src = dtype dst)) eqn:C2; steps;
    [| reflexivity].
  destruct (bool_decide (dtype src = GDF_INT32)) eqn:C3; steps;
    [| reflexivity].
  destruct (0 <? size src) eqn:C4; steps; [| reflexivity].
  destruct (null_count src =? 0) eqn:C5; steps; [| reflexivity].
  destruct (null_count dst =? 0) eqn:C6; steps; [| reflexivity].
  rewrite ensure_prop_run.
  destruct ed as [w|].
  - rewrite run_bind. steps.
    destruct (size src =? size w); steps; [| reflexivity].
    unfold scan_negative, assign_has_negative_edges.
    rewrite !run_bind. steps. reflexivity.
  - rewrite run_bind. steps. unfold assign_has_negative_edges.
    rewrite !run_bind. steps. reflexivity.
Qed.

(** X4.  The edge-list view never writes the vertex count.  On a handle
    whose count is not zero, the count survives the view, and the vertex
    count operation then returns it as cached, with success and without
    reading the arrays just installed. *)
Theorem edge_list_view_keeps_stale_count (K : kernels) (s : state)
    (in_src in_dest : gdf_column) (in_edge_data : option gdf_column) :
  numberOfVertices (graph s) <> 0 ->
  let s1 := snd (gdf_edge_list_view K in_src in_dest in_edge_data s) in
  numberOfVertices (graph s1) = numberOfVertices (graph s)
  /\ gdf_number_of_vertices s1 = (Done GDF_SUCCESS, s1).
Proof.
  intros Hn s1.
  assert (numberOfVertices (graph s1) = numberOfVertices (graph s)) as E
    by apply gdf_edge_list_view_keeps_count.
  split; [exact E |].
  apply gdf_number_of_vertices_cached. rewrite E. exact Hn.
Qed.

(** An adjacency list of three vertices is viewed and deleted; an edge list
    that names vertex 9 is viewed next, and the count is still 3. *)
Lemma edge_list_view_keeps_stale_count_witness :
  let s :=
    run_calls reference_kernels keep_memory
      [call_adj_list_view (column 1%nat 4 GDF_INT32)
         (column 2%nat 2 GDF_INT32) None;
       call_delete_adj_list]
      (fresh [[0; 1; 1; 2]; [2; 0]; [0; 9]; [9; 0]]) in
  let in_src := column 3%nat 2 GDF_INT32 in
  let in_dest := column 4%nat 2 GDF_INT32 in
  let s1 := snd (gdf_edge_list_view reference_kernels in_src in_dest None s) in
  numberOfVertices (graph s) <> 0
  /\ fst (gdf_edge_list_view reference_kernels in_src in_dest None s)
     = Done GDF_SUCCESS
  /\ numberOfVertices (graph s1) = 3
  /\ gdf_number_of_vertices s1 = (Done GDF_SUCCESS, s1).
Proof.
  intros s in_src in_dest s1.
  assert (numberOfVertices (graph s) <> 0) as Hn by (vm_compute; discriminate).
  split; [exact Hn |]. split; [reflexivity |].
  exact (edge_list_view_keeps_stale_count reference_kernels s in_src in_dest
           None Hn).
Defined.

(** X5.  After an adjacency-list view that succeeds on offsets of more than
    one element, the vertex count operation needs no Edge List: it returns
    success, changes nothing, and the count is the number of offsets less
    one. *)
Theorem adjacency_view_count_needs_no_edges (K : kernels) (s : state)
    (in_offsets in_indices : gdf_column) (in_edge_data : option gdf_column) :
  empty_handle (graph s) ->
  adjacency_columns_ok in_offsets in_indices ->
  weights_fit (size in_indices) in_edge_data ->
  size in_offsets <> 1 ->
  let s1 := snd (gdf_adj_list_view K in_offsets in_indices in_edge_data s) in
  edgeList (graph s1) = None
  /\ numberOfVertices (graph s1) = size in_offsets - 1
  /\ gdf_number_of_vertices s1 = (Done GDF_SUCCESS, s1).
Proof.
  intros He Hc Hw Hsz s1. subst s1.
  rewrite (gdf_adj_list_view_accepted K _ _ _ s He Hc).
  destruct He as (E1 & _).
  assert (forall weights flag,
            let s1 := adj_view_state s in_offsets in_indices weights flag in
            edgeList (graph s1) = None
            /\ numberOfVertices (graph s1) = size in_offsets - 1
            /\ gdf_number_of_vertices s1 = (Done GDF_SUCCESS, s1)) as H.
  { intros weights flag s1. split; [exact E1 |]. split; [reflexivity |].
    apply gdf_number_of_vertices_cached. cbn. lia. }
  destruct in_edge_data as [w|]; [| apply H].
  rewrite (Hw w eq_refl), Z.eqb_refl. apply H.
Qed.

Lemma adjacency_view_count_needs_no_edges_witness :
  let s := fresh [[0; 1; 1; 2]; [2; 0]] in
  let in_offsets := column 1%nat 4 GDF_INT32 in
  let in_indices := column 2%nat 2 GDF_INT32 in
  let s1 := snd (gdf_adj_list_view reference_kernels in_offsets in_indices None s) in
  empty_handle (graph s)
  /\ adjacency_columns_ok in_offsets in_indices
  /\ weights_fit (size in_indices) None
  /\ size in_offsets <> 1
  /\ edgeList (graph s1) = None
  /\ numberOfVertices (graph s1) = size in_offsets - 1
  /\ gdf_number_of_vertices s1 = (Done GDF_SUCCESS, s1).
Proof.
  intros s in_offsets in_indices s1.
  assert (empty_handle (graph s)) as He by (repeat split).
  assert (adjacency_columns_ok in_offsets in_indices) as Hc
    by (unfold adjacency_columns_ok; cbn; repeat split; lia).
  assert (weights_fit (size in_indices) None) as Hw
    by (intros w Hw; discriminate Hw).
  assert (size in_offsets <> 1) as Hsz by (cbn; lia).
  split; [exact He |]. split; [exact Hc |]. split; [exact Hw |].
  split; [exact Hsz |].
  exact (adjacency_view_count_needs_no_edges reference_kernels s in_offsets
           in_indices None He Hc Hw Hsz).
Defined.

(** ** A view and the calls after it *)

(** X6.  A view that gets past its checks on the handle and the index
    columns populates the handle whatever it then answers: success, weights
    that do not fit, or an indexing check that fails.  Every later view on
    that handle, whatever its arguments, fails with InvalidState and leaves
    the handle as it is; a view that failed late cannot be tried again. *)
Theorem view_past_checks_blocks_later_views (K : kernels) (s : state)
    (first second : gdf_column) (in_edge_data : option gdf_column) :
  empty_handle (graph s) ->
  (adjacency_columns_ok first second ->
   let s1 := snd (gdf_adj_list_view K first second in_edge_data s) in
   adjList (graph s1) <> None
   /\ forall a b e,
        gdf_adj_list_view K a b e s1 = (Raised "Invalid API parameter", s1)
        /\ gdf_edge_list_view K a b e s1
           = (Raised "Invalid API parameter", s1))
  /\ (edge_columns_ok first second ->
      let s1 := snd (gdf_edge_list_view K first second in_edge_data s) in
      edgeList (graph s1) <> None
      /\ forall a b e,
           gdf_adj_list_view K a b e s1 = (Raised "Invalid API parameter", s1)
           /\ gdf_edge_list_view K a b e s1
              = (Raised "Invalid API parameter", s1)).
Proof.
  intros He. split; intros Hc s1.
  - assert (adjList (graph s1) <> None) as Hp.
    { subst s1. rewrite (gdf_adj_list_view_accepted K _ _ _ s He Hc).
      destruct in_edge_data as [w|]; [destruct (size second =? size w) |];
        discriminate. }
    split; [exact Hp |]. intros a b e.
    rewrite gdf_adj_list_view_populated, gdf_edge_list_view_populated
      by (right; left; exact Hp).
    split; reflexivity.
  - assert (edgeList (graph s1) <> None) as Hp.
    { subst s1. rewrite (gdf_edge_list_view_accepted K _ _ _ s He Hc).
      destruct in_edge_data as [w|]; [destruct (size first =? size w) |];
        discriminate. }
    split; [exact Hp |]. intros a b e.
    rewrite gdf_adj_list_view_populated, gdf_edge_list_view_populated
      by (left; exact Hp).
    split; reflexivity.
Qed.

(** A view with one weight for two indices fails; the same view with two
    weights, tried next, is refused. *)
Lemma view_past_checks_blocks_later_views_witness :
  let s := fresh [[0; 1; 2]; [1; 0]; [5; 6]] in
  let in_offsets := column 1%nat 3 GDF_INT32 in
  let in_indices := column 2%nat 2 GDF_INT32 in
  let short := Some (column 3%nat 1 GDF_FLOAT32) in
  let fitting := Some (column 3%nat 2 GDF_FLOAT32) in
  let s1 := snd (gdf_adj_list_view reference_kernels in_offsets in_indices short s) in
  empty_handle (graph s)
  /\ adjacency_columns_ok in_offsets in_indices
  /\ fst (gdf_adj_list_view reference_kernels in_offsets in_indices short s)
     = Raised "Column size mismatch"
  /\ gdf_adj_list_view reference_kernels in_offsets in_indices fitting s1
     = (Raised "Invalid API parameter", s1).
Proof.
  intros s in_offsets in_indices short fitting s1.
  assert (empty_handle (graph s)) as He by (repeat split).
  assert (adjacency_columns_ok in_offsets in_indices) as Hc
    by (unfold adjacency_columns_ok; cbn; repeat split; lia).
  split; [exact He |]. split; [exact Hc |]. split; [reflexivity |].
  destruct (view_past_checks_blocks_later_views reference_kernels s
              in_offsets in_indices short He) as [H _].
  destruct (H Hc) as [_ Hlater].
  exact (proj1 (Hlater in_offsets in_indices fitting)).
Defined.

(** ** The negative-edge flag *)

Lemma has_neg_val_of_scanned (K : kernels) (m : device_memory)
    (w : gdf_column) (ct : ctype) :
  scanned_as (dtype w) = Some ct ->
  has_neg_val_of K m (cpy_column_view w)
  = has_negative_val K ct m (data w) (size w).
Proof.
  unfold has_neg_val_of. cbn [cpy_column_view gdf_column_view dtype data size].
  destruct (dtype w); cbn; intros [= <-]; reflexivity.
Qed.

(** X7.  When a view is given weights of one of the six kinds, the flag it
    records is the answer of the scan kernel, run at the element type of that
    kind (8, 16, 32 or 64-bit integer, float, double) over the given weight
    buffer and its size: true when the kernel reports a negative value,
    false otherwise, never left undefined. *)
Theorem negative_flag_records_scan (K : kernels) (s : state)
    (first second w : gdf_column) (ct : ctype) :
  empty_handle (graph s) ->
  scanned_as (dtype w) = Some ct ->
  (adjacency_columns_ok first second -> size w = size second ->
   negative_edges (graph (snd (gdf_adj_list_view K first second (Some w) s)))
   = flag_of (has_negative_val K ct (device s) (data w) (size w)))
  /\ (edge_columns_ok first second -> size w = size first ->
      negative_edges
        (graph (snd (gdf_edge_list_view K first second (Some w) s)))
      = flag_of (has_negative_val K ct (device s) (data w) (size w))).
Proof.
  intros He Hct. split; intros Hc Hsz.
  - rewrite (gdf_adj_list_view_accepted K _ _ _ s He Hc).
    rewrite <- Hsz, Z.eqb_refl, (has_neg_val_of_scanned K _ w ct Hct).
    reflexivity.
  - rewrite (gdf_edge_list_view_accepted K _ _ _ s He Hc).
    rewrite <- Hsz, Z.eqb_refl, (has_neg_val_of_scanned K _ w ct Hct).
    reflexivity.
Qed.

(** Two edges with the weights -1 and 2, given as 64-bit floats: the flag is
    true. *)
Lemma negative_flag_records_scan_witness :
  let s := fresh [[0; 1]; [1; 0]; [-1; 2]] in
  let in_src := column 1%nat 2 GDF_INT32 in
  let in_dest := column 2%nat 2 GDF_INT32 in
  let w := column 3%nat 2 GDF_FLOAT64 in
  empty_handle (graph s)
  /\ scanned_as (dtype w) = Some double
  /\ edge_columns_ok in_src in_dest
  /\ size w = size in_src
  /\ negative_edges
       (graph (snd (gdf_edge_list_view reference_kernels in_src in_dest (Some w) s)))
     = GDF_PROP_TRUE.
Proof.
  intros s in_src in_dest w.
  assert (empty_handle (graph s)) as He by (repeat split).
  assert (edge_columns_ok in_src in_dest) as Hc
    by (unfold edge_columns_ok; cbn; repeat split; lia).
  split; [exact He |]. split; [reflexivity |]. split; [exact Hc |].
  split; [reflexivity |].
  destruct (negative_flag_records_scan reference_kernels s in_src in_dest w
              double He eq_refl) as [_ H].
  exact (H Hc eq_refl).
Defined.

(** ** What a derivation leaves of the handle *)

Lemma conversion_outcome_forward (g : gdf_graph)
    (c : Z * gdf_adj_list * device_memory) :
  let out := conversion_outcome set_adjList g c in
  (fst out = Done GDF_SUCCESS \/ fst out = Done GDF_CUDA_ERROR)
  /\ adjList (graph (snd out)) = Some (snd (fst c))
  /\ edgeList (graph (snd out)) = edgeList g
  /\ transposedAdjList (graph (snd out)) = transposedAdjList g
  /\ prop (graph (snd out)) = prop g.
Proof.
  destruct c as [[status adj] m']. unfold conversion_outcome.
  destruct (status =? 0); cbn; auto 10.
Qed.

Lemma conversion_outcome_transposed (g : gdf_graph)
    (c : Z * gdf_adj_list * device_memory) :
  let out := conversion_outcome set_transposedAdjList g c in
  (fst out = Done GDF_SUCCESS \/ fst out = Done GDF_CUDA_ERROR)
  /\ transposedAdjList (graph (snd out)) = Some (snd (fst c))
  /\ edgeList (graph (snd out)) = edgeList g
  /\ adjList (graph (snd out)) = adjList g
  /\ prop (graph (snd out)) = prop g.
Proof.
  destruct c as [[status adj] m']. unfold conversion_outcome.
  destruct (status =? 0); cbn; auto 10.
Qed.

(** The ways a forward derivation can go on a handle with an Edge List and
    no Adjacency List. *)
Lemma gdf_add_adj_list_cases (K : kernels) (s : state) (el : gdf_edge_list) :
  adjList (graph s) = None ->
  edgeList (graph s) = Some el ->
  gdf_add_adj_list K s = (Raised "Unsupported data type", s)
  \/ gdf_add_adj_list K s = (Done GDF_UNSUPPORTED_DTYPE, s)
  \/ exists WT,
       gdf_add_adj_list K s
       = conversion_outcome set_adjList (graph s)
           (convert K WT (device s) (data (src_indices el))
              (data (dest_indices el)) (edge_data el)
              (size (src_indices el)) (dtype (src_indices el))).
Proof.
  intros Hadj Hel. rewrite (gdf_add_adj_list_with_edges K s el Hadj Hel).
  destruct (bool_decide (dtype (src_indices el) = GDF_INT32)); [| auto].
  destruct (edge_data el) as [w|] eqn:Hw.
  - destruct (weight_ctype (dtype w)) as [WT|]; [| auto].
    right; right. exists WT.
    rewrite (gdf_add_adj_list_impl_converts K WT s el Hadj Hel), Hw.
    reflexivity.
  - right; right. exists float.
    rewrite (gdf_add_adj_list_impl_converts K float s el Hadj Hel), Hw.
    reflexivity.
Qed.

(** The ways a transposed derivation can go on a handle with an Edge
    List. *)
Lemma gdf_add_transposed_adj_list_cases (K : kernels) (s : state)
    (el : gdf_edge_list) :
  edgeList (graph s) = Some el ->
  gdf_add_transposed_adj_list K s = (Raised "Unsupported data type", s)
  \/ gdf_add_transposed_adj_list K s = (Done GDF_UNSUPPORTED_DTYPE, s)
  \/ (transposedAdjList (graph s) <> None
      /\ gdf_add_transposed_adj_list K s = (Done GDF_SUCCESS, s))
  \/ (transposedAdjList (graph s) = None
      /\ exists WT,
           gdf_add_transposed_adj_list K s
           = conversion_outcome set_transposedAdjList (graph s)
               (convert K WT (device s) (data (dest_indices el))
                  (data (src_indices el)) (edge_data el)
                  (size (src_indices el)) (dtype (src_indices el)))).
Proof.
  intros Hel. rewrite (gdf_add_transposed_adj_list_with_edges K s el Hel).
  destruct (bool_decide (dtype (src_indices el) = GDF_INT32)); [| auto].
  destruct (bool_decide (dtype (dest_indices el) = GDF_INT32)); [| auto].
  assert (forall WT,
            (transposedAdjList (graph s) <> None
             /\ gdf_add_transposed_adj_list_impl K WT s = (Done GDF_SUCCESS, s))
            \/ (transposedAdjList (graph s) = None
                /\ gdf_add_transposed_adj_list_impl K WT s
                   = conversion_outcome set_transposedAdjList (graph s)
                       (convert K WT (device s) (data (dest_indices el))
                          (data (src_indices el)) (edge_data el)
                          (size (src_indices el)) (dtype (src_indices el)))))
    as Himpl.
  { intros WT. destruct (transposedAdjList (graph s)) as [t|] eqn:Ht.
    - left. split; [discriminate |].
      apply gdf_add_transposed_adj_list_impl_present. congruence.
    - right. split; [reflexivity |].
      apply gdf_add_transposed_adj_list_impl_converts; assumption. }
  destruct (edge_data el) as [w|] eqn:Hw.
  - destruct (weight_ctype (dtype w)) as [WT|]; [| auto].
    destruct (Himpl WT) as [[Hp E] | [Hn E]]; rewrite E; eauto 10.
  - destruct (Himpl float) as [[Hp E] | [Hn E]]; rewrite E; eauto 10.
Qed.

(** A transposed derivation leaves the Edge List it found, the Adjacency
    List and the property block. *)
Lemma gdf_add_transposed_adj_list_keeps (K : kernels) (s : state)
    (el : gdf_edge_list) :
  edgeList (graph s) = Some el ->
  let s' := snd (gdf_add_transposed_adj_list K s) in
  edgeList (graph s') = Some el
  /\ adjList (graph s') = adjList (graph s)
  /\ prop (graph s') = prop (graph s).
Proof.
  intros Hel.
  destruct (gdf_add_transposed_adj_list_cases K s el Hel)
    as [E | [E | [[_ E] | [_ [WT E]]]]]; rewrite E; cbn [snd]; auto.
  destruct (conversion_outcome_transposed (graph s)
              (convert K WT (device s) (data (dest_indices el))
                 (data (src_indices el)) (edge_data el)
                 (size (src_indices el)) (dtype (src_indices el))))
    as (_ & _ & H1 & H2 & H3).
  rewrite H1, H2, H3. auto.
Qed.

(** X8.  When the forward derivation succeeds on a handle without an
    Adjacency List, the format converter returned status zero on the source
    array as rows and the destination array as columns of the handle's Edge
    List (and on the weights, when there are any, instantiated at their
    type), and the Adjacency List holds 32-bit integer columns over the
    arrays it returned: the row offsets, one more than the vertices, the
    column indices, one per edge, and the weights under their own type tag.
    The vertex count is the converter's, and the Edge List and the
    transposed slot are left as they were.  When it succeeds on a handle
    that has an Adjacency List, nothing at all is changed. *)
Theorem forward_is_conversion_of_edges (K : kernels) (s s' : state) :
  gdf_add_adj_list K s = (Done GDF_SUCCESS, s') ->
  (adjList (graph s) <> None -> s' = s)
  /\ (adjList (graph s) = None ->
      exists el,
        edgeList (graph s) = Some el
        /\ edgeList (graph s') = Some el
        /\ transposedAdjList (graph s') = transposedAdjList (graph s)
        /\ match edge_data el with
           | None =>
               exists r,
                 ConvertCOOtoCSR K (device s) (data (src_indices el))
                   (data (dest_indices el)) (size (src_indices el))
                 = (0, r, device s')
                 /\ adjList (graph s')
                    = Some {| offsets :=
                                {| data := rowOffsets r; valid := nullptr;
                                   size := csr_size r + 1; dtype := GDF_INT32;
                                   null_count := 0 |};
                              indices :=
                                {| data := colIndices r; valid := nullptr;
                                   size := csr_nnz r; dtype := GDF_INT32;
                                   null_count := 0 |};
                              adj_edge_data := None |}
                 /\ numberOfVertices (graph s') = csr_size r
           | Some w =>
               exists WT r,
                 (dtype w = GDF_FLOAT32 /\ WT = float
                  \/ dtype w = GDF_FLOAT64 /\ WT = double)
                 /\ ConvertCOOtoCSR_weighted K WT (device s)
                      (data (src_indices el)) (data (dest_indices el))
                      (data w) (size (src_indices el))
                    = (0, r, device s')
                 /\ adjList (graph s')
                    = Some {| offsets :=
                                {| data := w_rowOffsets r; valid := nullptr;
                                   size := csrw_size r + 1;
                                   dtype := GDF_INT32; null_count := 0 |};
                              indices :=
                                {| data := w_colIndices r; valid := nullptr;
                                   size := csrw_nnz r; dtype := GDF_INT32;
                                   null_count := 0 |};
                              adj_edge_data :=
                                Some {| data := edgeWeights r;
                                        valid := nullptr; size := csrw_nnz r;
                                        dtype := dtype w; null_count := 0 |} |}
                 /\ numberOfVertices (graph s') = csrw_size r
           end).
Proof.
  intros Hrun. split.
  { intros Hp. rewrite gdf_add_adj_list_present in Hrun by exact Hp.
    injection Hrun as <-. reflexivity. }
  intros Hadj.
  destruct (edgeList (graph s)) as [el|] eqn:Hel.
  2: { rewrite gdf_add_adj_list_no_source in Hrun by assumption.
       discriminate Hrun. }
  rewrite (gdf_add_adj_list_with_edges K s el Hadj Hel) in Hrun.
  destruct (bool_decide (dtype (src_indices el) = GDF_INT32)) eqn:Hsrc;
    [| discriminate Hrun].
  apply bool_decide_eq_true in Hsrc.
  assert (exists WT,
            gdf_add_adj_list_impl K WT s = (Done GDF_SUCCESS, s')
            /\ forall w, edge_data el = Some w ->
                         dtype w = GDF_FLOAT32 /\ WT = float
                         \/ dtype w = GDF_FLOAT64 /\ WT = double)
    as (WT & Himpl & HWT).
  { destruct (edge_data el) as [w|].
    - destruct (weight_ctype (dtype w)) as [WT|] eqn:E;
        [| discriminate Hrun].
      exists WT. split; [exact Hrun |].
      intros w' [= <-]. apply weight_ctype_some, E.
    - exists float. split; [exact Hrun |]. intros w' Hw'. discriminate Hw'. }
  rewrite (gdf_add_adj_list_impl_converts K WT s el Hadj Hel) in Himpl.
  rewrite Hsrc in Himpl. unfold conversion_outcome, convert in Himpl.
  exists el. split; [reflexivity |].
  destruct (edge_data el) as [w|].
  - destruct (ConvertCOOtoCSR_weighted K WT (device s)
                (data (src_indices el)) (data (dest_indices el)) (data w)
                (size (src_indices el))) as [[status r] m'] eqn:Hconv.
    destruct (Z.eqb_spec status 0) as [-> |]; [| discriminate Himpl].
    injection Himpl as <-.
    split; [exact Hel |]. split; [reflexivity |]. exists WT, r.
    split; [exact (HWT w eq_refl) |]. split; [exact Hconv |].
    split; [reflexivity |]. cbn. lia.
  - destruct (ConvertCOOtoCSR K (device s) (data (src_indices el))
                (data (dest_indices el)) (size (src_indices el)))
      as [[status r] m'].
    destruct (Z.eqb_spec status 0) as [-> |]; [| discriminate Himpl].
    injection Himpl as <-.
    split; [exact Hel |]. split; [reflexivity |]. exists r.
    split; [reflexivity |]. split; [reflexivity |]. cbn. lia.
Qed.

(** Edges (0,1), (0,2), (1,2) without weights: the offsets [0,2,3,3] and the
    indices [1,2,2] are the two allocations the converter made. *)
Lemma forward_is_conversion_of_edges_witness :
  let el :=
    {| src_indices := column 1%nat 3 GDF_INT32;
       dest_indices := column 2%nat 3 GDF_INT32;
       edge_data := None |} in
  let s := holding_edge_list el [[0; 0; 1]; [1; 2; 2]] in
  let s' := snd (gdf_add_adj_list reference_kernels s) in
  gdf_add_adj_list reference_kernels s = (Done GDF_SUCCESS, s')
  /\ adjList (graph s')
     = Some {| offsets := column 3%nat 4 GDF_INT32;
               indices := column 4%nat 3 GDF_INT32;
               adj_edge_data := None |}
  /\ device s' = [[0; 0; 1]; [1; 2; 2]; [0; 2; 3; 3]; [1; 2; 2]]
  /\ (adjList (graph s) <> None -> s' = s)
  /\ (adjList (graph s) = None ->
      exists el,
        edgeList (graph s) = Some el
        /\ edgeList (graph s') = Some el
        /\ transposedAdjList (graph s') = transposedAdjList (graph s)
        /\ match edge_data el with
           | None =>
               exists r,
                 ConvertCOOtoCSR reference_kernels (device s) (data (src_indices el))
                   (data (dest_indices el)) (size (src_indices el))
                 = (0, r, device s')
                 /\ adjList (graph s')
                    = Some {| offsets :=
                                {| data := rowOffsets r; valid := nullptr;
                                   size := csr_size r + 1; dtype := GDF_INT32;
                                   null_count := 0 |};
                              indices :=
                                {| data := colIndices r; valid := nullptr;
                                   size := csr_nnz r; dtype := GDF_INT32;
                                   null_count := 0 |};
                              adj_edge_data := None |}
                 /\ numberOfVertices (graph s') = csr_size r
           | Some w =>
               exists WT r,
                 (dtype w = GDF_FLOAT32 /\ WT = float
                  \/ dtype w = GDF_FLOAT64 /\ WT = double)
                 /\ ConvertCOOtoCSR_weighted reference_kernels WT (device s)
                      (data (src_indices el)) (data (dest_indices el))
                      (data w) (size (src_indices el))
                    = (0, r, device s')
                 /\ adjList (graph s')
                    = Some {| offsets :=
                                {| data := w_rowOffsets r; valid := nullptr;
                                   size := csrw_size r + 1;
                                   dtype := GDF_INT32; null_count := 0 |};
                              indices :=
                                {| data := w_colIndices r; valid := nullptr;
                                   size := csrw_nnz r; dtype := GDF_INT32;
                                   null_count := 0 |};
                              adj_edge_data :=
                                Some {| data := edgeWeights r;
                                        valid := nullptr; size := csrw_nnz r;
                                        dtype := dtype w; null_count := 0 |} |}
                 /\ numberOfVertices (graph s') = csrw_size r
           end).
Proof.
  intros el s s'.
  assert (gdf_add_adj_list reference_kernels s = (Done GDF_SUCCESS, s'))
    as Hrun by reflexivity.
  split; [exact Hrun |]. split; [reflexivity |]. split; [reflexivity |].
  exact (forward_is_conversion_of_edges reference_kernels s s' Hrun).
Defined.

(** ** Calling a derivation again *)

(** X9.  Once the forward derivation has returned success or the conversion
    failure, the adjacency slot is filled, and every further call returns
    success and changes neither the handle nor the device memory: a
    successful derivation is not computed again, and a failed conversion is
    not retried, its result staying in the slot. *)
Theorem forward_derivation_not_repeated (K : kernels) (s : state) :
  fst (gdf_add_adj_list K s) = Done GDF_SUCCESS
  \/ fst (gdf_add_adj_list K s) = Done GDF_CUDA_ERROR ->
  let s1 := snd (gdf_add_adj_list K s) in
  adjList (graph s1) <> None
  /\ gdf_add_adj_list K s1 = (Done GDF_SUCCESS, s1).
Proof.
  intros Hr s1.
  assert (adjList (graph s1) <> None) as Hp.
  { subst s1. destruct (adjList (graph s)) as [adj|] eqn:Hadj.
    { rewrite gdf_add_adj_list_present by congruence. cbn. congruence. }
    destruct (edgeList (graph s)) as [el|] eqn:Hel.
    2: { rewrite gdf_add_adj_list_no_source in Hr by assumption.
         destruct Hr as [Hr | Hr]; discriminate Hr. }
    destruct (gdf_add_adj_list_cases K s el Hadj Hel) as [E | [E | [WT E]]];
      rewrite E in *; try (destruct Hr as [Hr | Hr]; discriminate Hr).
    destruct (conversion_outcome_forward (graph s)
                (convert K WT (device s) (data (src_indices el))
                   (data (dest_indices el)) (edge_data el)
                   (size (src_indices el)) (dtype (src_indices el))))
      as (_ & H & _).
    rewrite H. discriminate. }
  split; [exact Hp |]. apply gdf_add_adj_list_present, Hp.
Qed.

(** A converter that reports failure; its result is kept all the same. *)
Lemma forward_derivation_not_repeated_witness :
  let failing :=
    {| has_negative_val := reference_has_negative_val;
       indexing_check := reference_indexing_check;
       ConvertCOOtoCSR :=
         fun m _ _ _ =>
           (1, {| csr_size := 0; csr_nnz := 0; rowOffsets := nullptr;
                  colIndices := nullptr |}, m);
       ConvertCOOtoCSR_weighted := reference_ConvertCOOtoCSR_weighted |} in
  let el :=
    {| src_indices := column 1%nat 3 GDF_INT32;
       dest_indices := column 2%nat 3 GDF_INT32;
       edge_data := None |} in
  let s := holding_edge_list el [[0; 0; 1]; [1; 2; 2]] in
  let s1 := snd (gdf_add_adj_list failing s) in
  fst (gdf_add_adj_list failing s) = Done GDF_CUDA_ERROR
  /\ adjList (graph s1) <> None
  /\ gdf_add_adj_list failing s1 = (Done GDF_SUCCESS, s1).
Proof.
  intros failing el s s1. split; [reflexivity |].
  exact (forward_derivation_not_repeated failing s (or_intror eq_refl)).
Defined.

(** A transposed derivation that went into the converter or found its slot
    filled answers success on the state it left. *)
Lemma gdf_add_transposed_adj_list_again (K : kernels) (s : state)
    (el : gdf_edge_list) :
  edgeList (graph s) = Some el ->
  fst (gdf_add_transposed_adj_list K s) = Done GDF_SUCCESS
  \/ fst (gdf_add_transposed_adj_list K s) = Done GDF_CUDA_ERROR ->
  let s1 := snd (gdf_add_transposed_adj_list K s) in
  transposedAdjList (graph s1) <> None
  /\ gdf_add_transposed_adj_list K s1 = (Done GDF_SUCCESS, s1).
Proof.
  intros Hel Hr s1.
  assert (edgeList (graph s1) = Some el) as Hel1
    by apply (gdf_add_transposed_adj_list_keeps K s el Hel).
  assert (transposedAdjList (graph s1) <> None) as Hp.
  { subst s1.
    destruct (gdf_add_transposed_adj_list_cases K s el Hel)
      as [E | [E | [[Hp E] | [_ [WT E]]]]];
      rewrite E in *; try (destruct Hr as [Hr | Hr]; discriminate Hr).
    - exact Hp.
    - destruct (conversion_outcome_transposed (graph s)
                  (convert K WT (device s) (data (dest_indices el))
                     (data (src_indices el)) (edge_data el)
                     (size (src_indices el)) (dtype (src_indices el))))
        as (_ & H & _).
      rewrite H. discriminate. }
  split; [exact Hp |].
  (* the checks the first call passed are passed again *)
  assert (bool_decide (dtype (src_indices el) = GDF_INT32) = true
          /\ bool_decide (dtype (dest_indices el) = GDF_INT32) = true
          /\ forall w, edge_data el = Some w -> weight_ctype (dtype w) <> None)
    as (Hsrc & Hdst & Hw).
  { rewrite (gdf_add_transposed_adj_list_with_edges K s el Hel) in Hr.
    destruct (bool_decide (dtype (src_indices el) = GDF_INT32));
      [| destruct Hr as [Hr | Hr]; discriminate Hr].
    destruct (bool_decide (dtype (dest_indices el) = GDF_INT32));
      [| destruct Hr as [Hr | Hr]; discriminate Hr].
    split; [reflexivity |]. split; [reflexivity |].
    intros w Hw. rewrite Hw in Hr.
    destruct (weight_ctype (dtype w)); [discriminate |].
    destruct Hr as [Hr | Hr]; discriminate Hr. }
  rewrite (gdf_add_transposed_adj_list_with_edges K s1 el Hel1), Hsrc, Hdst.
  destruct (edge_data el) as [w|].
  - destruct (weight_ctype (dtype w)) as [WT|] eqn:HWT.
    + apply gdf_add_transposed_adj_list_impl_present, Hp.
    + exfalso. apply (Hw w eq_refl), HWT.
  - apply gdf_add_transposed_adj_list_impl_present, Hp.
Qed.

(** X10.  Once the transposed derivation has returned success or the
    conversion failure, the transposed slot is filled, and every further
    call returns success and changes neither the handle nor the device
    memory; the Edge List it may have derived on the way is not derived
    again. *)
Theorem transposed_derivation_not_repeated (K : kernels) (s : state) :
  fst (gdf_add_transposed_adj_list K s) = Done GDF_SUCCESS
  \/ fst (gdf_add_transposed_adj_list K s) = Done GDF_CUDA_ERROR ->
  let s1 := snd (gdf_add_transposed_adj_list K s) in
  transposedAdjList (graph s1) <> None
  /\ gdf_add_transposed_adj_list K s1 = (Done GDF_SUCCESS, s1).
Proof.
  intros Hr.
  destruct (edgeList (graph s)) as [el|] eqn:Hel.
  { apply (gdf_add_transposed_adj_list_again K s el Hel Hr). }
  destruct (adjList (graph s)) as [adj|] eqn:Hadj.
  2: { rewrite gdf_add_transposed_adj_list_no_source in Hr by assumption.
       destruct Hr as [Hr | Hr]; discriminate Hr. }
  rewrite (gdf_add_transposed_adj_list_derives K s adj Hel Hadj) in *.
  destruct (snd (expansion s adj));
    [| destruct Hr as [Hr | Hr]; discriminate Hr].
  apply (gdf_add_transposed_adj_list_again K (after_add_edge_list s adj)
           (derived_edge_list (S (length (device s))) adj) eq_refl Hr).
Qed.

Lemma transposed_derivation_not_repeated_witness :
  let adj :=
    {| offsets := column 1%nat 4 GDF_INT32;
       indices := column 2%nat 3 GDF_INT32;
       adj_edge_data := None |} in
  let s := holding_adj_list adj [[0; 2; 3; 3]; [1; 2; 2]] in
  let s1 := snd (gdf_add_transposed_adj_list reference_kernels s) in
  fst (gdf_add_transposed_adj_list reference_kernels s) = Done GDF_SUCCESS
  /\ transposedAdjList (graph s1) <> None
  /\ gdf_add_transposed_adj_list reference_kernels s1 = (Done GDF_SUCCESS, s1).
Proof.
  intros adj s s1. split; [reflexivity |].
  exact (transposed_derivation_not_repeated reference_kernels s
           (or_introl eq_refl)).
Defined.

(** X11.  On a handle that has an Adjacency List and no Edge List, the
    transposed derivation leaves an Edge List in the handle whatever it
    answers, be it success, UnsupportedType or the conversion failure: the
    one derived from the Adjacency List, with a newly allocated source array.
    The Adjacency List itself is left as it was. *)
Theorem transposed_derivation_leaves_edge_list (K : kernels) (s : state)
    (adj : gdf_adj_list) :
  edgeList (graph s) = None ->
  adjList (graph s) = Some adj ->
  let s' := snd (gdf_add_transposed_adj_list K s) in
  edgeList (graph s')
  = Some (derived_edge_list (S (length (device s))) adj)
  /\ adjList (graph s') = Some adj.
Proof.
  intros Hel Hadj.
  rewrite (gdf_add_transposed_adj_list_derives K s adj Hel Hadj).
  destruct (snd (expansion s adj)); [| split; [reflexivity | exact Hadj]].
  destruct (gdf_add_transposed_adj_list_keeps K (after_add_edge_list s adj)
              (derived_edge_list (S (length (device s))) adj) eq_refl)
    as (H1 & H2 & _).
  split; [exact H1 |]. rewrite H2. cbn. exact Hadj.
Qed.

(** An Adjacency List with 32-bit integer weights: the transposed derivation
    fails with UnsupportedType, and the handle has gained an Edge List. *)
Lemma transposed_derivation_leaves_edge_list_witness :
  let adj :=
    {| offsets := column 1%nat 4 GDF_INT32;
       indices := column 2%nat 3 GDF_INT32;
       adj_edge_data := Some (column 3%nat 3 GDF_INT32) |} in
  let s := holding_adj_list adj [[0; 2; 3; 3]; [1; 2; 2]; [7; 8; 9]] in
  let s' := snd (gdf_add_transposed_adj_list reference_kernels s) in
  edgeList (graph s) = None
  /\ adjList (graph s) = Some adj
  /\ fst (gdf_add_transposed_adj_list reference_kernels s)
     = Done GDF_UNSUPPORTED_DTYPE
  /\ edgeList (graph s')
     = Some (derived_edge_list (S (length (device s))) adj)
  /\ adjList (graph s') = Some adj.
Proof.
  intros adj s s'.
  split; [reflexivity |]. split; [reflexivity |]. split; [reflexivity |].
  exact (transposed_derivation_leaves_edge_list reference_kernels s adj
           eq_refl eq_refl).
Defined.

(** ** What an operation leaves alone *)

Lemma gdf_add_adj_list_keeps (K : kernels) (s : state) :
  let s' := snd (gdf_add_adj_list K s) in
  edgeList (graph s') = edgeList (graph s)
  /\ transposedAdjList (graph s') = transposedAdjList (graph s)
  /\ prop (graph s') = prop (graph s).
Proof.
  destruct (adjList (graph s)) as [adj|] eqn:Hadj.
  { rewrite gdf_add_adj_list_present by congruence. cbn. auto. }
  destruct (edgeList (graph s)) as [el|] eqn:Hel.
  2: { rewrite gdf_add_adj_list_no_source by assumption. cbn. auto. }
  destruct (gdf_add_adj_list_cases K s el Hadj Hel) as [E | [E | [WT E]]];
    rewrite E; cbn [snd]; auto.
  destruct (conversion_outcome_forward (graph s)
              (convert K WT (device s) (data (src_indices el))
                 (data (dest_indices el)) (edge_data el)
                 (size (src_indices el)) (dtype (src_indices el))))
    as (_ & _ & H1 & H2 & H3).
  rewrite H1, H2, H3. auto.
Qed.

Lemma gdf_add_transposed_adj_list_keeps_adj (K : kernels) (s : state) :
  let s' := snd (gdf_add_transposed_adj_list K s) in
  adjList (graph s') = adjList (graph s)
  /\ prop (graph s') = prop (graph s).
Proof.
  destruct (edgeList (graph s)) as [el|] eqn:Hel.
  { destruct (gdf_add_transposed_adj_list_keeps K s el Hel) as (_ & H).
    exact H. }
  destruct (adjList (graph s)) as [adj|] eqn:Hadj.
  2: { rewrite gdf_add_transposed_adj_list_no_source by assumption.
       cbn. auto. }
  rewrite (gdf_add_transposed_adj_list_derives K s adj Hel Hadj).
  destruct (snd (expansion s adj)); [| cbn; rewrite Hadj; auto].
  destruct (gdf_add_transposed_adj_list_keeps K (after_add_edge_list s adj)
              (derived_edge_list (S (length (device s))) adj) eq_refl)
    as (_ & H1 & H2).
  cbv zeta in *. rewrite H1, H2. cbn. rewrite Hadj. auto.
Qed.

Lemma gdf_add_edge_list_run (s : state) :
  gdf_add_edge_list s = (Done GDF_SUCCESS, s)
  \/ gdf_add_edge_list s = (Raised "Invalid API parameter", s)
  \/ exists adj,
       edgeList (graph s) = None /\ adjList (graph s) = Some adj
       /\ gdf_add_edge_list s
          = (if snd (expansion s adj) then Done GDF_SUCCESS else Overrun,
             after_add_edge_list s adj).
Proof.
  destruct (edgeList (graph s)) as [el|] eqn:Hel.
  { left. apply (gdf_add_edge_list_present s el Hel). }
  destruct (adjList (graph s)) as [adj|] eqn:Hadj.
  - right; right. exists adj. split; [reflexivity |]. split; [reflexivity |].
    apply gdf_add_edge_list_derive; assumption.
  - right; left. apply gdf_add_edge_list_no_source; assumption.
Qed.

Lemma gdf_number_of_vertices_run (s : state) :
  exists r n,
    gdf_number_of_vertices s
    = (r, {| graph := set_numberOfVertices n (graph s); device := device s |}).
Proof.
  destruct (Z.eq_dec (numberOfVertices (graph s)) 0) as [H0 | Hn].
  - destruct (edgeList (graph s)) as [el|] eqn:Hel.
    + rewrite (gdf_number_of_vertices_computes s el H0 Hel).
      destruct (bool_decide (dtype (src_indices el) = GDF_INT32)).
      * eexists _, _. reflexivity.
      * exists (Raised "Unsupported data type"), (numberOfVertices (graph s)).
        destruct s as [[? ? ? ? ?] ?]. reflexivity.
    + rewrite gdf_number_of_vertices_no_edges by assumption.
      exists (Raised "Invalid API parameter"), (numberOfVertices (graph s)).
      destruct s as [[? ? ? ? ?] ?]. reflexivity.
  - rewrite gdf_number_of_vertices_cached by assumption.
    exists (Done GDF_SUCCESS), (numberOfVertices (graph s)).
    destruct s as [[? ? ? ? ?] ?]. reflexivity.
Qed.

(** X12.  Each derivation writes its own slot and the vertex count, nothing
    else of the handle.  The forward derivation never changes the Edge List,
    the transposed slot or the property block; the transposed derivation
    never changes the Adjacency List or the property block; the edge-list
    derivation never changes the two adjacency slots, the property block or
    the vertex count; the vertex count operation changes no slot, not the
    property block and not the device memory. *)
Theorem derivations_write_only_their_slot (K : kernels) (s : state) :
  (let s' := snd (gdf_add_adj_list K s) in
   edgeList (graph s') = edgeList (graph s)
   /\ transposedAdjList (graph s') = transposedAdjList (graph s)
   /\ prop (graph s') = prop (graph s))
  /\ (let s' := snd (gdf_add_transposed_adj_list K s) in
      adjList (graph s') = adjList (graph s)
      /\ prop (graph s') = prop (graph s))
  /\ (let s' := snd (gdf_add_edge_list s) in
      adjList (graph s') = adjList (graph s)
      /\ transposedAdjList (graph s') = transposedAdjList (graph s)
      /\ prop (graph s') = prop (graph s)
      /\ numberOfVertices (graph s') = numberOfVertices (graph s))
  /\ (let s' := snd (gdf_number_of_vertices s) in
      edgeList (graph s') = edgeList (graph s)
      /\ adjList (graph s') = adjList (graph s)
      /\ transposedAdjList (graph s') = transposedAdjList (graph s)
      /\ prop (graph s') = prop (graph s)
      /\ device s' = device s).
Proof.
  split; [apply gdf_add_adj_list_keeps |].
  split; [apply gdf_add_transposed_adj_list_keeps_adj |].
  split.
  - destruct (gdf_add_edge_list_run s) as [E | [E | (adj & _ & _ & E)]];
      rewrite E; cbn; auto.
  - destruct (gdf_number_of_vertices_run s) as (r & n & E).
    rewrite E. cbn. auto 10.
Qed.

(** ** The edge-list derivation and the device memory *)

Lemma load_after_add_edge_list (s : state) (adj : gdf_adj_list) (p : addr) :
  (p <= length (device s))%nat ->
  load (device (after_add_edge_list s adj)) p = load (device s) p.
Proof.
  intros Hp. unfold after_add_edge_list. cbn [device].
  destruct p as [| k]; [reflexivity |].
  unfold load, store. rewrite list_lookup_insert_ne by lia.
  rewrite lookup_app_l by lia. reflexivity.
Qed.

(** A range fill keeps the length of the buffer, and stays inside when the
    range does. *)
Lemma fill_range_length (count : nat) :
  forall (buf : list Z) (start x : Z),
    length (fst (fill_range buf start count x)) = length buf.
Proof.
  induction count as [| c IH]; intros buf start x; [reflexivity |].
  cbn [fill_range].
  set (inside := (0 <=? start) && (start <? Z.of_nat (length buf))).
  set (written := if inside then <[Z.to_nat start := x]> buf else buf).
  specialize (IH written (start + 1) x).
  destruct (fill_range written (start + 1) c x) as [filled rest].
  cbn [fst] in *. rewrite IH. subst written.
  destruct inside; [apply length_insert | reflexivity].
Qed.

Lemma fill_range_inside (count : nat) :
  forall (buf : list Z) (start x : Z),
    0 <= start -> start + Z.of_nat count <= Z.of_nat (length buf) ->
    snd (fill_range buf start count x) = true.
Proof.
  induction count as [| c IH]; intros buf start x H0 Hend; [reflexivity |].
  cbn [fill_range].
  assert ((0 <=? start) && (start <? Z.of_nat (length buf)) = true) as ->
    by (apply andb_true_iff; split; [apply Z.leb_le | apply Z.ltb_lt]; lia).
  specialize (IH (<[Z.to_nat start := x]> buf) (start + 1) x).
  rewrite length_insert in IH.
  destruct (fill_range (<[Z.to_nat start := x]> buf) (start + 1) c x)
    as [filled rest].
  cbn [snd] in *. rewrite IH by lia. reflexivity.
Qed.

(** The expansion keeps the length of its output buffer. *)
Lemma offsets_to_indices_length (offs : list Z) (v : Z) (out : list Z) :
  length (fst (offsets_to_indices offs v out)) = length out.
Proof.
  unfold offsets_to_indices.
  change (length out) with (length (fst (out, true))).
  generalize (out, true). generalize (seq 0 (Z.to_nat v)).
  intros l. induction l as [| j l IH]; intros [buf inside]; [reflexivity |].
  cbn [foldl]. rewrite IH.
  destruct (offs !! j) as [colStart|]; [| reflexivity].
  destruct (offs !! S j) as [colEnd|]; [| reflexivity].
  pose proof (fill_range_length (Z.to_nat (colEnd - colStart)) buf colStart
                (Z.of_nat j)) as H.
  destruct (fill_range buf colStart (Z.to_nat (colEnd - colStart))
              (Z.of_nat j)) as [filled ok].
  exact H.
Qed.

(** Offsets that describe ranges of the output keep the expansion inside its
    buffers. *)
Lemma offsets_to_indices_inside (offs : list Z) (v : Z) (out : list Z) :
  offsets_within offs v (Z.of_nat (length out)) ->
  snd (offsets_to_indices offs v out) = true.
Proof.
  unfold offsets_within, offsets_to_indices.
  generalize (Z.to_nat v). intros n Hw.
  assert (length (fst (out, true)) = length out /\ snd (out, true) = true)
    as Hacc by (split; reflexivity).
  revert Hacc. generalize (out, true). intros acc Hacc.
  assert (forall l acc,
            (forall j, j ∈ l -> (j < n)%nat) ->
            length (fst acc) = length out /\ snd acc = true ->
            snd (foldl (fun '(buf, inside) j =>
                          match offs !! j, offs !! S j with
                          | Some colStart, Some colEnd =>
                              let '(filled, ok) :=
                                fill_range buf colStart
                                  (Z.to_nat (colEnd - colStart)) (Z.of_nat j) in
                              (filled, inside && ok)
                          | _, _ => (buf, false)
                          end) acc l) = true) as Hfold.
  { clear acc Hacc. intros l.
    induction l as [| j l IH]; intros [buf inside] Hl [Hlen Hin];
      [exact Hin |].
    cbn [foldl]. apply IH.
    { intros k Hk. apply Hl. apply elem_of_cons. right. exact Hk. }
    cbn [fst snd] in Hlen, Hin. subst inside.
    destruct (Hw j) as (colStart & colEnd & -> & -> & Hrange).
    { apply Hl. apply elem_of_cons. left. reflexivity. }
    pose proof (fill_range_length (Z.to_nat (colEnd - colStart)) buf colStart
                  (Z.of_nat j)) as HL.
    assert (snd (fill_range buf colStart (Z.to_nat (colEnd - colStart))
                   (Z.of_nat j)) = true) as HI.
    { destruct Hrange as [Hempty | [H0 Hend]].
      - replace (Z.to_nat (colEnd - colStart)) with 0%nat by lia. reflexivity.
      - destruct (Z.le_gt_cases colEnd colStart) as [Hempty | Hlt].
        + replace (Z.to_nat (colEnd - colStart)) with 0%nat by lia.
          reflexivity.
        + apply fill_range_inside; [exact H0 |]. rewrite Hlen. lia. }
    destruct (fill_range buf colStart (Z.to_nat (colEnd - colStart))
                (Z.of_nat j)) as [filled ok].
    cbn [fst snd] in *. subst ok. split; [congruence | reflexivity]. }
  apply Hfold; [| exact Hacc].
  intros j Hj. apply elem_of_seq in Hj. lia.
Qed.

Lemma load_app_before (m : device_memory) (b : list Z) (p : addr) :
  (p <= length m)%nat -> load (m ++ [b]) p = load m p.
Proof.
  intros Hp. destruct p as [| k]; [reflexivity |].
  unfold load. rewrite lookup_app_l by lia. reflexivity.
Qed.

(** The expansion of the derivation stays inside its buffers when the
    offsets describe ranges of the index array. *)
Lemma expansion_inside (s : state) (adj : gdf_adj_list) :
  (data (offsets adj) <= length (device s))%nat ->
  offsets_within (load (device s) (data (offsets adj)))
    (size (offsets adj) - 1) (size (indices adj)) ->
  snd (expansion s adj) = true
  /\ length (fst (expansion s adj)) = Z.to_nat (size (indices adj)).
Proof.
  intros Hp Hw. unfold expansion.
  rewrite load_app_before by exact Hp. rewrite load_app_new.
  split.
  - apply offsets_to_indices_inside. rewrite length_replicate.
    intros j Hj. destruct (Hw j Hj) as (a & b & Ha & Hb & Hr).
    exists a, b. split; [exact Ha |]. split; [exact Hb |]. lia.
  - rewrite offsets_to_indices_length. apply length_replicate.
Qed.

(** X13.  When the offsets of the Adjacency List describe ranges of the
    index array (each range that is not empty starts at zero or later and
    ends at the number of indices or before), the edge-list derivation
    succeeds and overwrites no buffer: every pointer allocated before the
    call reads after it what it read before.  What it derives is a source
    array in one new allocation, past all the earlier ones, with one cell for
    each index, and a destination column that is the Adjacency List's index
    buffer itself, so that reading the destinations gives the adjacency
    indices. *)
Theorem edge_list_derivation_keeps_memory (s : state) (adj : gdf_adj_list) :
  edgeList (graph s) = None ->
  adjList (graph s) = Some adj ->
  (data (offsets adj) <= length (device s))%nat ->
  (data (indices adj) <= length (device s))%nat ->
  offsets_within (load (device s) (data (offsets adj)))
    (size (offsets adj) - 1) (size (indices adj)) ->
  let s' := snd (gdf_add_edge_list s) in
  fst (gdf_add_edge_list s) = Done GDF_SUCCESS
  /\ (forall p, (p <= length (device s))%nat ->
                load (device s') p = load (device s) p)
  /\ exists el,
       edgeList (graph s') = Some el
       /\ data (src_indices el) = S (length (device s))
       /\ length (device s') = S (length (device s))
       /\ length (load (device s') (data (src_indices el)))
          = Z.to_nat (size (indices adj))
       /\ data (dest_indices el) = data (indices adj)
       /\ load_n (device s') (data (dest_indices el)) (size (dest_indices el))
          = load_n (device s) (data (indices adj)) (size (indices adj)).
Proof.
  intros Hel Hadj Hoff Hind Hw.
  destruct (expansion_inside s adj Hoff Hw) as [Hin Hlen].
  rewrite (gdf_add_edge_list_derive s adj Hel Hadj), Hin. cbn [fst snd].
  split; [reflexivity |].
  split; [intros p Hp; apply load_after_add_edge_list, Hp |].
  exists (derived_edge_list (S (length (device s))) adj).
  split; [reflexivity |]. split; [reflexivity |].
  split.
  { unfold after_add_edge_list. cbn [device]. unfold store.
    rewrite length_insert, length_app. cbn [length]. lia. }
  split.
  { unfold after_add_edge_list. cbn [device derived_edge_list src_indices
                                      gdf_column_view data].
    rewrite load_store_new. exact Hlen. }
  split; [reflexivity |].
  unfold load_n. cbn [derived_edge_list dest_indices cpy_column_view
                      gdf_column_view data size].
  rewrite load_after_add_edge_list by exact Hind. reflexivity.
Qed.

Lemma edge_list_derivation_keeps_memory_witness :
  let adj :=
    {| offsets := column 1%nat 4 GDF_INT32;
       indices := column 2%nat 3 GDF_INT32;
       adj_edge_data := None |} in
  let s := holding_adj_list adj [[0; 2; 3; 3]; [1; 2; 2]] in
  let s' := snd (gdf_add_edge_list s) in
  edgeList (graph s) = None
  /\ adjList (graph s) = Some adj
  /\ (data (offsets adj) <= length (device s))%nat
  /\ (data (indices adj) <= length (device s))%nat
  /\ offsets_within (load (device s) (data (offsets adj)))
       (size (offsets adj) - 1) (size (indices adj))
  /\ device s' = [[0; 2; 3; 3]; [1; 2; 2]; [0; 0; 1]]
  /\ fst (gdf_add_edge_list s) = Done GDF_SUCCESS
  /\ (forall p, (p <= length (device s))%nat ->
                load (device s') p = load (device s) p)
  /\ exists el,
       edgeList (graph s') = Some el
       /\ data (src_indices el) = S (length (device s))
       /\ length (device s') = S (length (device s))
       /\ length (load (device s') (data (src_indices el)))
          = Z.to_nat (size (indices adj))
       /\ data (dest_indices el) = data (indices adj)
       /\ load_n (device s') (data (dest_indices el)) (size (dest_indices el))
          = load_n (device s) (data (indices adj)) (size (indices adj)).
Proof.
  intros adj s s'.
  assert (data (offsets adj) <= length (device s))%nat as Hoff by (cbn; lia).
  assert (data (indices adj) <= length (device s))%nat as Hind by (cbn; lia).
  assert (offsets_within (load (device s) (data (offsets adj)))
            (size (offsets adj) - 1) (size (indices adj))) as Hw.
  { intros j Hj. change (Z.to_nat (size (offsets adj) - 1)) with 3%nat in Hj.
    destruct j as [| [| [| j]]]; [| | | lia]; cbn; eexists _, _;
      (split; [reflexivity |]); (split; [reflexivity |]); lia. }
  split; [reflexivity |]. split; [reflexivity |]. split; [exact Hoff |].
  split; [exact Hind |]. split; [exact Hw |]. split; [reflexivity |].
  exact (edge_list_derivation_keeps_memory s adj eq_refl eq_refl Hoff Hind Hw).
Defined.

(** ** What every stored representation satisfies *)

Lemma index_column_view (c : gdf_column) :
  dtype c = GDF_INT32 -> index_column (cpy_column_view c).
Proof. intros H. split; [exact H | reflexivity]. Qed.

Lemma weights_column_view (edges : Z) (w : gdf_column) :
  size w = edges -> weights_column edges (Some (cpy_column_view w)).
Proof. intros H c [= <-]. split; [exact H | reflexivity]. Qed.

Lemma weights_column_none (edges : Z) : weights_column edges None.
Proof. intros c Hc. discriminate Hc. Qed.

Lemma handle_ok_slots (g g' : gdf_graph) :
  handle_ok g ->
  (edgeList g' = edgeList g
   \/ forall el, edgeList g' = Some el -> edge_list_ok el) ->
  (adjList g' = adjList g
   \/ forall adj, adjList g' = Some adj -> adj_list_ok adj) ->
  (transposedAdjList g' = transposedAdjList g
   \/ forall adj, transposedAdjList g' = Some adj -> adj_list_ok adj) ->
  handle_ok g'.
Proof.
  intros (H1 & H2 & H3) [E1 | E1] [E2 | E2] [E3 | E3];
    (split; [| split]); try rewrite E1; try rewrite E2; try rewrite E3;
    assumption.
Qed.

Lemma slot_some {A : Type} (P : A -> Prop) (a : A) :
  P a -> forall x, Some a = Some x -> P x.
Proof. intros H x [= <-]. exact H. Qed.

Lemma slot_none {A : Type} (P : A -> Prop) :
  forall x : A, None = Some x -> P x.
Proof. intros x H. discriminate H. Qed.

(** The result of a converter, viewed with int32 index columns, is a
    well-formed adjacency list whatever the converter returned. *)
Lemma convert_ok (K : kernels) (WT : ctype) (m : device_memory)
    (rows cols : addr) (weights : option gdf_column) (nnz : Z) :
  adj_list_ok (snd (fst (convert K WT m rows cols weights nnz GDF_INT32))).
Proof.
  unfold convert. destruct weights as [w|].
  - destruct (ConvertCOOtoCSR_weighted K WT m rows cols (data w) nnz)
      as [[status r] m'].
    cbn. split; [split; reflexivity |]. split; [split; reflexivity |].
    intros c [= <-]. split; reflexivity.
  - destruct (ConvertCOOtoCSR K m rows cols nnz) as [[status r] m'].
    cbn. split; [split; reflexivity |]. split; [split; reflexivity |].
    apply weights_column_none.
Qed.

Lemma derived_edge_list_ok (d_src : addr) (adj : gdf_adj_list) :
  adj_list_ok adj -> edge_list_ok (derived_edge_list d_src adj).
Proof.
  intros ((_ & _) & (Hty & _) & Hw).
  unfold edge_list_ok, derived_edge_list. cbn.
  split; [split; [exact Hty | reflexivity] |].
  split; [split; [exact Hty | reflexivity] |].
  split; [reflexivity |].
  destruct (adj_edge_data adj) as [w|]; [| apply weights_column_none].
  apply weights_column_view. apply (Hw w eq_refl).
Qed.

Lemma after_add_edge_list_ok (s : state) (adj : gdf_adj_list) :
  handle_ok (graph s) -> adjList (graph s) = Some adj ->
  handle_ok (graph (after_add_edge_list s adj)).
Proof.
  intros Hok Hadj. apply (handle_ok_slots (graph s)); [exact Hok | | |];
    [right | left; reflexivity | left; reflexivity].
  cbn. apply slot_some, derived_edge_list_ok.
  destruct Hok as (_ & H & _). apply H, Hadj.
Qed.

(** The checks of a view either pass or end it at once. *)
Lemma gdf_adj_list_view_decided (K : kernels) (o i : gdf_column)
    (ed : option gdf_column) (s : state) :
  (empty_handle (graph s) /\ adjacency_columns_ok o i)
  \/ exists reason, gdf_adj_list_view K o i ed s = (Raised reason, s).
Proof.
  assert (Decision (adjacency_columns_ok o i)) as [Hc | Hc]
    by (unfold adjacency_columns_ok; apply _).
  - destruct (edgeList (graph s)) eqn:E1;
      [right; apply gdf_adj_list_view_rejected;
       intros [(H & _) _]; congruence |].
    destruct (adjList (graph s)) eqn:E2;
      [right; apply gdf_adj_list_view_rejected;
       intros [(_ & H & _) _]; congruence |].
    destruct (transposedAdjList (graph s)) eqn:E3;
      [right; apply gdf_adj_list_view_rejected;
       intros [(_ & _ & H) _]; congruence |].
    left. split; [| exact Hc].
    split; [| split]; first [assumption | reflexivity].
  - right. apply gdf_adj_list_view_rejected. intros [_ H]. exact (Hc H).
Qed.

Lemma gdf_edge_list_view_decided (K : kernels) (src dst : gdf_column)
    (ed : option gdf_column) (s : state) :
  (empty_handle (graph s) /\ edge_columns_ok src dst)
  \/ exists reason, gdf_edge_list_view K src dst ed s = (Raised reason, s).
Proof.
  assert (Decision (edge_columns_ok src dst)) as [Hc | Hc]
    by (unfold edge_columns_ok; apply _).
  - destruct (edgeList (graph s)) eqn:E1;
      [right; apply gdf_edge_list_view_rejected;
       intros [(H & _) _]; congruence |].
    destruct (adjList (graph s)) eqn:E2;
      [right; apply gdf_edge_list_view_rejected;
       intros [(_ & H & _) _]; congruence |].
    destruct (transposedAdjList (graph s)) eqn:E3;
      [right; apply gdf_edge_list_view_rejected;
       intros [(_ & _ & H) _]; congruence |].
    left. split; [| exact Hc].
    split; [| split]; first [assumption | reflexivity].
  - right. apply gdf_edge_list_view_rejected. intros [_ H]. exact (Hc H).
Qed.

Lemma gdf_adj_list_view_ok (K : kernels) (o i : gdf_column)
    (ed : option gdf_column) (s : state) :
  handle_ok (graph s) ->
  handle_ok (graph (snd (gdf_adj_list_view K o i ed s))).
Proof.
  intros Hok.
  destruct (gdf_adj_list_view_decided K o i ed s) as [[He Hc] | [reason E]];
    [| rewrite E; exact Hok].
  rewrite (gdf_adj_list_view_accepted K o i ed s He Hc).
  destruct Hc as (_ & _ & Hto & Hti & _).
  assert (forall W,
            weights_column (size i) W ->
            adj_list_ok {| offsets := cpy_column_view o;
                           indices := cpy_column_view i;
                           adj_edge_data := W |}) as Hadj.
  { intros W HW. split; [apply index_column_view, Hto |].
    split; [apply index_column_view, Hti | exact HW]. }
  destruct ed as [w|].
  - destruct (Z.eqb_spec (size i) (size w)) as [Hsz | Hsz];
      apply (handle_ok_slots (graph s)); try exact Hok;
      try (left; reflexivity); right; cbn; apply slot_some, Hadj.
    + apply weights_column_view. symmetry. exact Hsz.
    + apply weights_column_none.
  - apply (handle_ok_slots (graph s)); try exact Hok;
      try (left; reflexivity); right; cbn; apply slot_some, Hadj.
    apply weights_column_none.
Qed.

Lemma gdf_edge_list_view_ok (K : kernels) (src dst : gdf_column)
    (ed : option gdf_column) (s : state) :
  handle_ok (graph s) ->
  handle_ok (graph (snd (gdf_edge_list_view K src dst ed s))).
Proof.
  intros Hok.
  destruct (gdf_edge_list_view_decided K src dst ed s)
    as [[He Hc] | [reason E]];
    [| rewrite E; exact Hok].
  rewrite (gdf_edge_list_view_accepted K src dst ed s He Hc).
  destruct Hc as (Hsz & Hts & Htd & _).
  assert (forall W,
            weights_column (size src) W ->
            edge_list_ok {| src_indices := cpy_column_view src;
                            dest_indices := cpy_column_view dst;
                            edge_data := W |}) as Hel.
  { intros W HW. split; [apply index_column_view, Hts |].
    split; [apply index_column_view, Htd |]. split; [exact Hsz | exact HW]. }
  destruct ed as [w|].
  - destruct (Z.eqb_spec (size src) (size w)) as [Hw | Hw];
      apply (handle_ok_slots (graph s)); try exact Hok;
      try (left; reflexivity); right; cbn; apply slot_some, Hel.
    + apply weights_column_view. symmetry. exact Hw.
    + apply weights_column_none.
  - apply (handle_ok_slots (graph s)); try exact Hok;
      try (left; reflexivity); right; cbn; apply slot_some, Hel.
    apply weights_column_none.
Qed.

Lemma edge_list_ok_src (g : gdf_graph) (el : gdf_edge_list) :
  handle_ok g -> edgeList g = Some el ->
  dtype (src_indices el) = GDF_INT32 /\ dtype (dest_indices el) = GDF_INT32.
Proof.
  intros (H & _) Hel. destruct (H el Hel) as ((H1 & _) & (H2 & _) & _).
  split; assumption.
Qed.

Lemma gdf_add_adj_list_ok (K : kernels) (s : state) :
  handle_ok (graph s) ->
  handle_ok (graph (snd (gdf_add_adj_list K s))).
Proof.
  intros Hok.
  destruct (adjList (graph s)) as [adj|] eqn:Hadj.
  { rewrite gdf_add_adj_list_present by congruence. exact Hok. }
  destruct (edgeList (graph s)) as [el|] eqn:Hel.
  2: { rewrite gdf_add_adj_list_no_source by assumption. exact Hok. }
  destruct (gdf_add_adj_list_cases K s el Hadj Hel) as [E | [E | [WT E]]];
    rewrite E; try exact Hok.
  destruct (edge_list_ok_src (graph s) el Hok Hel) as [Hsrc _].
  rewrite Hsrc.
  destruct (conversion_outcome_forward (graph s)
              (convert K WT (device s) (data (src_indices el))
                 (data (dest_indices el)) (edge_data el)
                 (size (src_indices el)) GDF_INT32))
    as (_ & H0 & H1 & H2 & _).
  apply (handle_ok_slots (graph s)); [exact Hok | left; exact H1 | | left; exact H2].
  right. rewrite H0. apply slot_some, convert_ok.
Qed.

Lemma gdf_add_transposed_adj_list_ok_edges (K : kernels) (s : state)
    (el : gdf_edge_list) :
  handle_ok (graph s) -> edgeList (graph s) = Some el ->
  handle_ok (graph (snd (gdf_add_transposed_adj_list K s))).
Proof.
  intros Hok Hel.
  destruct (gdf_add_transposed_adj_list_cases K s el Hel)
    as [E | [E | [[_ E] | [_ [WT E]]]]]; rewrite E; try exact Hok.
  destruct (edge_list_ok_src (graph s) el Hok Hel) as [Hsrc _].
  rewrite Hsrc.
  destruct (conversion_outcome_transposed (graph s)
              (convert K WT (device s) (data (dest_indices el))
                 (data (src_indices el)) (edge_data el)
                 (size (src_indices el)) GDF_INT32))
    as (_ & H0 & H1 & H2 & _).
  apply (handle_ok_slots (graph s)); [exact Hok | left; exact H1 | left; exact H2 |].
  right. rewrite H0. apply slot_some, convert_ok.
Qed.

Lemma gdf_add_transposed_adj_list_ok (K : kernels) (s : state) :
  handle_ok (graph s) ->
  handle_ok (graph (snd (gdf_add_transposed_adj_list K s))).
Proof.
  intros Hok.
  destruct (edgeList (graph s)) as [el|] eqn:Hel.
  { apply (gdf_add_transposed_adj_list_ok_edges K s el Hok Hel). }
  destruct (adjList (graph s)) as [adj|] eqn:Hadj.
  2: { rewrite gdf_add_transposed_adj_list_no_source by assumption.
       exact Hok. }
  rewrite (gdf_add_transposed_adj_list_derives K s adj Hel Hadj).
  destruct (snd (expansion s adj));
    [| apply after_add_edge_list_ok; assumption].
  apply (gdf_add_transposed_adj_list_ok_edges K (after_add_edge_list s adj)
           (derived_edge_list (S (length (device s))) adj));
    [apply after_add_edge_list_ok; assumption | reflexivity].
Qed.

Lemma gdf_add_edge_list_ok (s : state) :
  handle_ok (graph s) -> handle_ok (graph (snd (gdf_add_edge_list s))).
Proof.
  intros Hok.
  destruct (gdf_add_edge_list_run s) as [E | [E | (adj & _ & Hadj & E)]];
    rewrite E; try exact Hok.
  apply after_add_edge_list_ok; assumption.
Qed.

Lemma gdf_number_of_vertices_ok (s : state) :
  handle_ok (graph s) -> handle_ok (graph (snd (gdf_number_of_vertices s))).
Proof.
  intros Hok. destruct (gdf_number_of_vertices_run s) as (r & n & E).
  rewrite E. exact Hok.
Qed.

Lemma run_call_handle_ok (K : kernels) (D : destructors) (c : call)
    (s : state) :
  handle_ok (graph s) -> handle_ok (graph (snd (run_call K D c s))).
Proof.
  intros Hok. destruct c; cbn [run_call].
  - apply gdf_adj_list_view_ok, Hok.
  - apply gdf_edge_list_view_ok, Hok.
  - apply gdf_add_adj_list_ok, Hok.
  - apply gdf_add_transposed_adj_list_ok, Hok.
  - apply gdf_add_edge_list_ok, Hok.
  - rewrite gdf_delete_adj_list_run.
    apply (handle_ok_slots (graph s)); [exact Hok | left | right | left];
      try reflexivity. apply slot_none.
  - rewrite gdf_delete_edge_list_run.
    apply (handle_ok_slots (graph s)); [exact Hok | right | left | left];
      try reflexivity. apply slot_none.
  - rewrite gdf_delete_transposed_adj_list_run.
    apply (handle_ok_slots (graph s)); [exact Hok | left | left | right];
      try reflexivity. apply slot_none.
  - apply gdf_number_of_vertices_ok, Hok.
Qed.

Lemma run_calls_handle_ok (K : kernels) (D : destructors)
    (calls : list call) (s : state) :
  handle_ok (graph s) -> handle_ok (graph (run_calls K D calls s)).
Proof.
  revert s. induction calls as [| c calls IH]; intros s Hok; [exact Hok |].
  unfold run_calls. cbn [foldl]. apply IH, run_call_handle_ok, Hok.
Qed.

Lemma fresh_handle_ok (m : device_memory) : handle_ok (graph (fresh m)).
Proof. split; [| split]; intros x Hx; discriminate Hx. Qed.

(** X14.  Whatever sequence of views, derivations, deletes and vertex counts
    is run on a fresh handle, with whatever arguments, kernels and outcomes,
    every representation the handle then holds is well formed: its index
    columns are 32-bit integers without nulls, the two columns of an Edge
    List are equally long, and weights, when stored, are as many as the edges
    and have no nulls.  Each single call keeps this. *)
Theorem stored_representations_well_formed (K : kernels) (D : destructors) :
  (forall c s,
     handle_ok (graph s) -> handle_ok (graph (snd (run_call K D c s))))
  /\ (forall calls m, handle_ok (graph (run_calls K D calls (fresh m)))).
Proof.
  split.
  - intros c s. apply run_call_handle_ok.
  - intros calls m. apply run_calls_handle_ok, fresh_handle_ok.
Qed.

Lemma stored_representations_well_formed_witness :
  let s := fresh [[0; 1; 1; 2]; [2; 0]] in
  let c :=
    call_adj_list_view (column 1%nat 4 GDF_INT32) (column 2%nat 2 GDF_INT32)
      None in
  handle_ok (graph s)
  /\ handle_ok (graph (snd (run_call reference_kernels keep_memory c s))).
Proof.
  intros s c.
  assert (handle_ok (graph s)) as Hok
    by (split; [| split]; intros x Hx; discriminate Hx).
  split; [exact Hok |].
  exact (proj1 (stored_representations_well_formed reference_kernels
                  keep_memory) c s Hok).
Defined.

(** Once in the converter, a derivation ends with a status, not with a
    failed expectation. *)
Lemma gdf_add_adj_list_impl_returns (K : kernels) (WT : ctype) (s : state)
    (el : gdf_edge_list) (reason : string) :
  adjList (graph s) = None -> edgeList (graph s) = Some el ->
  fst (gdf_add_adj_list_impl K WT s) <> Raised reason.
Proof.
  intros Hadj Hel. rewrite (gdf_add_adj_list_impl_converts K WT s el Hadj Hel).
  destruct (conversion_outcome_forward (graph s)
              (convert K WT (device s) (data (src_indices el))
                 (data (dest_indices el)) (edge_data el)
                 (size (src_indices el)) (dtype (src_indices el))))
    as ([E | E] & _); rewrite E; discriminate.
Qed.

Lemma gdf_add_transposed_adj_list_impl_returns (K : kernels) (WT : ctype)
    (s : state) (el : gdf_edge_list) (reason : string) :
  edgeList (graph s) = Some el ->
  fst (gdf_add_transposed_adj_list_impl K WT s) <> Raised reason.
Proof.
  intros Hel. destruct (transposedAdjList (graph s)) as [t|] eqn:Ht.
  { rewrite gdf_add_transposed_adj_list_impl_present by congruence.
    discriminate. }
  rewrite (gdf_add_transposed_adj_list_impl_converts K WT s el Ht Hel).
  destruct (conversion_outcome_transposed (graph s)
              (convert K WT (device s) (data (dest_indices el))
                 (data (src_indices el)) (edge_data el)
                 (size (src_indices el)) (dtype (src_indices el))))
    as ([E | E] & _); rewrite E; discriminate.
Qed.

Lemma gdf_add_transposed_adj_list_index_type (K : kernels) (s : state)
    (el : gdf_edge_list) :
  handle_ok (graph s) -> edgeList (graph s) = Some el ->
  fst (gdf_add_transposed_adj_list K s) <> Raised "Unsupported data type".
Proof.
  intros Hok Hel.
  destruct (edge_list_ok_src (graph s) el Hok Hel) as [Hsrc Hdst].
  rewrite (gdf_add_transposed_adj_list_with_edges K s el Hel).
  rewrite !bool_decide_eq_true_2 by assumption.
  destruct (edge_data el) as [w|];
    [destruct (weight_ctype (dtype w)) as [WT|]; [| discriminate] |];
    apply (gdf_add_transposed_adj_list_impl_returns K _ s el _ Hel).
Qed.

(** X15.  On a handle built by calls from a fresh one, no operation fails
    on the type of an index column: the derivations and the vertex count
    never raise [Unsupported data type].  What is left of UnsupportedType for
    the derivations is the status returned for a weight kind that is not
    floating point. *)
Theorem index_type_never_fails (K : kernels) (D : destructors)
    (calls : list call) (m : device_memory) :
  let s := run_calls K D calls (fresh m) in
  fst (gdf_add_adj_list K s) <> Raised "Unsupported data type"
  /\ fst (gdf_add_transposed_adj_list K s) <> Raised "Unsupported data type"
  /\ fst (gdf_number_of_vertices s) <> Raised "Unsupported data type".
Proof.
  intros s.
  assert (handle_ok (graph s)) as Hok
    by apply run_calls_handle_ok, fresh_handle_ok.
  split; [| split].
  - destruct (adjList (graph s)) as [adj|] eqn:Hadj.
    { rewrite gdf_add_adj_list_present by congruence. discriminate. }
    destruct (edgeList (graph s)) as [el|] eqn:Hel.
    2: { rewrite gdf_add_adj_list_no_source by assumption. discriminate. }
    destruct (edge_list_ok_src (graph s) el Hok Hel) as [Hsrc _].
    rewrite (gdf_add_adj_list_with_edges K s el Hadj Hel).
    rewrite bool_decide_eq_true_2 by assumption.
    destruct (edge_data el) as [w|];
      [destruct (weight_ctype (dtype w)) as [WT|]; [| discriminate] |];
      apply (gdf_add_adj_list_impl_returns K _ s el _ Hadj Hel).
  - destruct (edgeList (graph s)) as [el|] eqn:Hel.
    { apply (gdf_add_transposed_adj_list_index_type K s el Hok Hel). }
    destruct (adjList (graph s)) as [adj|] eqn:Hadj.
    2: { rewrite gdf_add_transposed_adj_list_no_source by assumption.
         discriminate. }
    rewrite (gdf_add_transposed_adj_list_derives K s adj Hel Hadj).
    destruct (snd (expansion s adj)); [| discriminate].
    apply (gdf_add_transposed_adj_list_index_type K
             (after_add_edge_list s adj)
             (derived_edge_list (S (length (device s))) adj));
      [apply after_add_edge_list_ok; assumption | reflexivity].
  - destruct (Z.eq_dec (numberOfVertices (graph s)) 0) as [H0 | Hn].
    2: { rewrite gdf_number_of_vertices_cached by assumption. discriminate. }
    destruct (edgeList (graph s)) as [el|] eqn:Hel.
    2: { rewrite gdf_number_of_vertices_no_edges by assumption.
         discriminate. }
    destruct (edge_list_ok_src (graph s) el Hok Hel) as [Hsrc _].
    rewrite (gdf_number_of_vertices_computes s el H0 Hel).
    rewrite bool_decide_eq_true_2 by assumption. discriminate.
Qed.

(** ** Null pointers *)

Lemma view_outcome_not_crashed {A : Type} (b : bool) (r1 r2 : result A)
    (s1 s2 : state) :
  r1 <> Crashed -> r2 <> Crashed ->
  fst (if b then (r1, s1) else (r2, s2)) <> Crashed.
Proof. destruct b; cbn; auto. Qed.

(** X16.  No operation on the handle reads through a null representation or
    property pointer, whatever the handle holds and whatever it is given:
    where a slot it needs is empty the operation ends with a failed
    expectation before the slot is read. *)
Theorem no_null_dereference (K : kernels) (D : destructors) (c : call)
    (s : state) :
  fst (run_call K D c s) <> Crashed.
Proof.
  destruct c; cbn [run_call].
  - destruct (gdf_adj_list_view_decided K in_offsets in_indices in_edge_data s)
      as [[He Hc] | [reason E]]; [| rewrite E; discriminate].
    rewrite (gdf_adj_list_view_accepted K _ _ _ s He Hc).
    destruct in_edge_data as [w|]; [| discriminate].
    apply view_outcome_not_crashed; discriminate.
  - destruct (gdf_edge_list_view_decided K in_src_indices in_dest_indices
                in_edge_data s)
      as [[He Hc] | [reason E]]; [| rewrite E; discriminate].
    rewrite (gdf_edge_list_view_accepted K _ _ _ s He Hc).
    destruct in_edge_data as [w|]; [| discriminate].
    apply view_outcome_not_crashed; discriminate.
  - destruct (adjList (graph s)) as [adj|] eqn:Hadj.
    { rewrite gdf_add_adj_list_present by congruence. discriminate. }
    destruct (edgeList (graph s)) as [el|] eqn:Hel.
    2: { rewrite gdf_add_adj_list_no_source by assumption. discriminate. }
    destruct (gdf_add_adj_list_cases K s el Hadj Hel) as [E | [E | [WT E]]];
      rewrite E; try discriminate.
    destruct (conversion_outcome_forward (graph s)
                (convert K WT (device s) (data (src_indices el))
                   (data (dest_indices el)) (edge_data el)
                   (size (src_indices el)) (dtype (src_indices el))))
      as ([E' | E'] & _); rewrite E'; discriminate.
  - assert (forall s0 el,
              edgeList (graph s0) = Some el ->
              fst (gdf_add_transposed_adj_list K s0) <> Crashed) as Ht.
    { intros s0 el Hel.
      destruct (gdf_add_transposed_adj_list_cases K s0 el Hel)
        as [E | [E | [[_ E] | [_ [WT E]]]]]; rewrite E; try discriminate.
      destruct (conversion_outcome_transposed (graph s0)
                  (convert K WT (device s0) (data (dest_indices el))
                     (data (src_indices el)) (edge_data el)
                     (size (src_indices el)) (dtype (src_indices el))))
        as ([E' | E'] & _); rewrite E'; discriminate. }
    destruct (edgeList (graph s)) as [el|] eqn:Hel.
    { apply (Ht s el Hel). }
    destruct (adjList (graph s)) as [adj|] eqn:Hadj.
    2: { rewrite gdf_add_transposed_adj_list_no_source by assumption.
         discriminate. }
    rewrite (gdf_add_transposed_adj_list_derives K s adj Hel Hadj).
    destruct (snd (expansion s adj)); [| discriminate].
    apply (Ht (after_add_edge_list s adj)
             (derived_edge_list (S (length (device s))) adj) eq_refl).
  - destruct (gdf_add_edge_list_run s) as [E | [E | (adj & _ & _ & E)]];
      rewrite E; try discriminate.
    destruct (snd (expansion s adj)); discriminate.
  - rewrite gdf_delete_adj_list_run. discriminate.
  - rewrite gdf_delete_edge_list_run. discriminate.
  - rewrite gdf_delete_transposed_adj_list_run. discriminate.
  - destruct (Z.eq_dec (numberOfVertices (graph s)) 0) as [H0 | Hn].
    2: { rewrite gdf_number_of_vertices_cached by assumption. discriminate. }
    destruct (edgeList (graph s)) as [el|] eqn:Hel.
    2: { rewrite gdf_number_of_vertices_no_edges by assumption.
         discriminate. }
    rewrite (gdf_number_of_vertices_computes s el H0 Hel).
    destruct (bool_decide (dtype (src_indices el) = GDF_INT32)); discriminate.
Qed.

(** ** The methods of an adjacency list *)









(** ** An edge-list view and the vertex count *)

(** X18.  On an empty handle whose count is zero, after an edge-list view of
    int32 columns that describe their whole arrays of vertex ids, the vertex
    count operation succeeds, whatever the indexing check answered and
    whether or not the weights fitted, and stores one more than the greatest
    id found in the two given arrays; the device memory is not changed. *)
Theorem edge_list_view_then_vertex_count (K : kernels) (s : state)
    (in_src in_dest : gdf_column) (in_edge_data : option gdf_column) :
  empty_handle (graph s) ->
  numberOfVertices (graph s) = 0 ->
  edge_columns_ok in_src in_dest ->
  Z.of_nat (length (load (device s) (data in_src))) = size in_src ->
  Z.of_nat (length (load (device s) (data in_dest))) = size in_dest ->
  Forall vertex_id (load (device s) (data in_src)) ->
  Forall vertex_id (load (device s) (data in_dest)) ->
  let s1 := snd (gdf_edge_list_view K in_src in_dest in_edge_data s) in
  exists max_src max_dest,
    is_maximum max_src (load (device s) (data in_src))
    /\ is_maximum max_dest (load (device s) (data in_dest))
    /\ fst (gdf_number_of_vertices s1) = Done GDF_SUCCESS
    /\ numberOfVertices (graph (snd (gdf_number_of_vertices s1)))
       = 1 + Z.max max_src max_dest
    /\ device (snd (gdf_number_of_vertices s1)) = device s.
Proof.
  intros He H0 Hc Hls Hld Hids Hidd s1.
  pose proof Hc as (Hsz & Hts & _ & Hpos & _).
  assert (exists W,
            edgeList (graph s1)
            = Some {| src_indices := cpy_column_view in_src;
                      dest_indices := cpy_column_view in_dest;
                      edge_data := W |}
            /\ device s1 = device s) as (W & Hel & Hdev).
  { subst s1. rewrite (gdf_edge_list_view_accepted K _ _ _ s He Hc).
    destruct in_edge_data as [w|];
      [destruct (size in_src =? size w) |]; eexists; split; reflexivity. }
  assert (numberOfVertices (graph s1) = 0) as H01.
  { subst s1. rewrite gdf_edge_list_view_keeps_count. exact H0. }
  rewrite (gdf_number_of_vertices_computes s1 _ H01 Hel).
  cbn [src_indices dest_indices cpy_column_view gdf_column_view dtype data
       size].
  rewrite bool_decide_eq_true_2 by exact Hts. rewrite Hdev.
  pose proof (DeviceReduce_Max_full (device s) (data in_src) (size in_src)
                Hls Hpos Hids) as Hms.
  assert (is_maximum (DeviceReduce_Max (device s) (data in_dest) (size in_src))
            (load (device s) (data in_dest))) as Hmd.
  { apply DeviceReduce_Max_full; [lia | exact Hpos | exact Hidd]. }
  eexists _, _. split; [exact Hms |]. split; [exact Hmd |].
  split; [reflexivity |]. split; [| reflexivity].
  cbn [snd graph numberOfVertices set_numberOfVertices].
  apply wrap_int32_succ.
  pose proof (is_maximum_vertex_id _ _ Hms Hids) as Hs.
  pose proof (is_maximum_vertex_id _ _ Hmd Hidd) as Hd.
  unfold vertex_id in *. lia.
Qed.

Lemma edge_list_view_then_vertex_count_witness :
  let s := fresh [[0; 2; 1]; [1; 0; 4]] in
  let in_src := column 1%nat 3 GDF_INT32 in
  let in_dest := column 2%nat 3 GDF_INT32 in
  let s1 := snd (gdf_edge_list_view reference_kernels in_src in_dest None s) in
  empty_handle (graph s)
  /\ edge_columns_ok in_src in_dest
  /\ exists max_src max_dest,
       is_maximum max_src [0; 2; 1]
       /\ is_maximum max_dest [1; 0; 4]
       /\ fst (gdf_number_of_vertices s1) = Done GDF_SUCCESS
       /\ numberOfVertices (graph (snd (gdf_number_of_vertices s1)))
          = 1 + Z.max max_src max_dest
       /\ device (snd (gdf_number_of_vertices s1)) = device s.
Proof.
  intros s in_src in_dest s1.
  assert (empty_handle (graph s)) as He by (repeat split).
  assert (edge_columns_ok in_src in_dest) as Hc
    by (unfold edge_columns_ok; cbn; repeat split; lia).
  split; [exact He |]. split; [exact Hc |].
  apply (edge_list_view_then_vertex_count reference_kernels s in_src in_dest
           None He eq_refl Hc eq_refl eq_refl); cbn; vertex_ids.
Defined.
